(** * photo_cluster_router: a shallow embedding of the routing engine

    The development follows src/photo_cluster_router.py.  Paths are
    [pathlib] paths seen as their list of components, the file system is an
    explicit state (directories, regular files, a set of write-protected
    paths and the history of the [shutil.copy2] calls that completed), and
    Python exceptions are the [Raise] results of a state-and-error monad:
    the router contains no [try], so the first exception ends the call.

    A path is identified with its components: there are no symbolic links
    and no [..] segments.  The face detector, image decoding and DBSCAN are
    parameters of the pipeline.  The order in which Python iterates a [set]
    is a parameter as well ([SetOrder]); statements hold for every order. *)

From Stdlib Require Import ZArith Lia.
From Stdlib Require Import Strings.Ascii.
From Stdlib Require Strings.String.
From Stdlib Require Import Numbers.DecimalString Numbers.DecimalNat.
From Stdlib Require Import Floats.PrimFloat.
From stdpp Require Import base option list strings gmap sets sorting.

#[local] Set Warnings "-clear-no-such-hyp".

Local Open Scope Z_scope.

(** ** pathlib paths *)

Module PathModel.

Definition path := list string.

(** [p.name]: the final component, the empty string for a path without
    components. *)
Definition name (p : path) : string := List.last p "".

(** [p / s]: pathlib drops an empty segment. *)
Definition joinpath (p : path) (s : string) : path :=
  if decide (s = "") then p else p ++ [s].

(** [s.rfind('.')] *)
Fixpoint rfind_dot (s : string) : option nat :=
  match s with
  | EmptyString => None
  | String c s' =>
      match rfind_dot s' with
      | Some i => Some (S i)
      | None => if Ascii.eqb c "."%char then Some 0%nat else None
      end
  end.

(** The index at which pathlib splits [name] into [stem] and [suffix]:
    the last dot, unless it is the first or the last character. *)
Definition split_point (n : string) : nat :=
  match rfind_dot n with
  | Some i =>
      if (0 <? i)%nat && (i <? String.length n - 1)%nat then i
      else String.length n
  | None => String.length n
  end.

Definition stem (p : path) : string :=
  let n := name p in String.substring 0 (split_point n) n.

Definition suffix (p : path) : string :=
  let n := name p in
  String.substring (split_point n) (String.length n - split_point n) n.

End PathModel.
Export PathModel.

(** ** Face records *)

Record FaceRec := mkFaceRec {
  img_path : path;
  face_index : nat;
  faces_in_image : Z;
  bbox : list float;
  det_score : float;
  embedding : list float
}.

Global Instance FaceRec_inhabited : Inhabited FaceRec :=
  populate (mkFaceRec [] 0%nat 0 [] 0%float []).

(** One row of clustering_report.csv. *)
Record LogRow := mkLogRow {
  row_file : string;
  row_assigned_folder : string;
  row_face_index : nat;
  row_faces_in_image : Z;
  row_det_score : float;
  row_reason : string
}.

(** ** The file system and the monad of the router *)

Inductive content :=
  | Blob (data : nat)
  | Csv (header : list string) (rows : list LogRow).

Record FS := mkFS {
  fs_dirs : gset path;
  fs_files : gmap path content;
  fs_locked : gset path;
  fs_copied : list (path * path)
}.

Inductive exn :=
  | FileNotFoundError
  | FileExistsError
  | IsADirectoryError
  | SameFileError
  | PermissionError
  | IndexError
  | KeyError
  | InvalidParameterError.

Inductive res (A : Type) :=
  | Ok (a : A)
  | Raise (e : exn).
Arguments Ok {A} a.
Arguments Raise {A} e.

Definition M (A : Type) : Type := FS -> res A * FS.

Definition ret {A} (a : A) : M A := fun fs => (Ok a, fs).

Definition raise {A} (e : exn) : M A := fun fs => (Raise e, fs).

Definition bind {A B} (m : M A) (k : A -> M B) : M B :=
  fun fs =>
    match m fs with
    | (Ok a, fs') => k a fs'
    | (Raise e, fs') => (Raise e, fs')
    end.

Definition lift {A} (r : res A) : M A := fun fs => (r, fs).

Declare Scope router_scope.
Delimit Scope router_scope with router.
Notation "x <- m ;; k" := (bind m (fun x => k))
  (at level 100, m at next level, right associativity) : router_scope.
Notation "m ;; k" := (bind m (fun _ => k))
  (at level 100, right associativity) : router_scope.
Local Open Scope router_scope.

(** [for x in xs: body(x)] *)
Fixpoint for_each {A} (body : A -> M unit) (xs : list A) : M unit :=
  match xs with
  | [] => ret tt
  | x :: xs' => body x ;; for_each body xs'
  end.

(** [for x in xs: st = body(x, st)], for loops that update local variables. *)
Fixpoint for_fold {A S} (body : A -> S -> M S) (xs : list A) (st : S) : M S :=
  match xs with
  | [] => ret st
  | x :: xs' => st' <- body x st ;; for_fold body xs' st'
  end.

(** *** File-system primitives *)

(** The non-empty prefixes of a path: the directories that
    [mkdir(parents=True)] walks through, the path itself last. *)
Definition prefixes (p : path) : list path :=
  List.map (fun n => take n p) (seq 1 (length p)).

(** [p.mkdir(parents=True, exist_ok=True)]: fails when [p] or one of its
    ancestors is a regular file, otherwise [p] and its ancestors are
    directories afterwards. *)
Definition ensure_dir (p : path) : M unit := fun fs =>
  if decide (Forall (fun q => q ∉ dom (fs_files fs)) (prefixes p)) then
    (Ok tt, mkFS (fs_dirs fs ∪ list_to_set (prefixes p)) (fs_files fs)
                 (fs_locked fs) (fs_copied fs))
  else (Raise FileExistsError, fs).

(** [p.exists() and p.is_file()] *)
Definition is_file (p : path) : M bool := fun fs =>
  (Ok (bool_decide (p ∈ dom (fs_files fs))), fs).

(** [shutil.copy2(src, dst)].  A destination that is a directory receives
    the file under the source's basename.  The copy fails when source and
    target are the same file, when the source is not a regular file, when
    the target is a directory or when it is write-protected.  The parent of
    the target is not inspected: the router creates every bucket directory
    before its first copy.  A completed call is appended to [fs_copied].
    [copy_target] is the path the call writes. *)
Definition copy_target (fs : FS) (src dst : path) : path :=
  if decide (dst ∈ fs_dirs fs) then joinpath dst (name src) else dst.

Definition copy2 (src dst : path) : M unit := fun fs =>
  let target := copy_target fs src dst in
  match fs_files fs !! src with
  | None => (Raise FileNotFoundError, fs)
  | Some c =>
      if decide (target = src) then (Raise SameFileError, fs)
      else if decide (target ∈ fs_dirs fs) then (Raise IsADirectoryError, fs)
      else if decide (target ∈ fs_locked fs) then (Raise PermissionError, fs)
      else (Ok tt, mkFS (fs_dirs fs) (<[target := c]> (fs_files fs))
                        (fs_locked fs) (fs_copied fs ++ [(src, dst)]))
  end.

(** [with open(p, "w") as f: csv.writer(f).writerow(header); writerows(rows)] *)
Definition write_csv (p : path) (header : list string) (rows : list LogRow)
  : M unit := fun fs =>
  if decide (p ∈ fs_dirs fs) then (Raise IsADirectoryError, fs)
  else if decide (p ∈ fs_locked fs) then (Raise PermissionError, fs)
  else (Ok tt, mkFS (fs_dirs fs) (<[p := Csv header rows]> (fs_files fs))
                    (fs_locked fs) (fs_copied fs)).

(** The guarded copy written out three times in [route_by_clusters]:
    [if not (dst.exists() and dst.is_file()): shutil.copy2(src, dst)]. *)
Definition copy_unless_file (src dst : path) : M unit :=
  b <- is_file dst ;;
  if b then ret tt else copy2 src dst.

(** ** Python containers used by the router *)

(** [xs[i]] for an index that is not negative. *)
Definition list_get {A} (xs : list A) (i : nat) : res A :=
  match xs !! i with
  | Some x => Ok x
  | None => Raise IndexError
  end.

(** A [dict] keeps its keys in insertion order: an association list with
    pairwise distinct keys. *)
Fixpoint dict_lookup {K V} `{EqDecision K} (d : list (K * V)) (k : K)
  : option V :=
  match d with
  | [] => None
  | (k', v) :: d' => if decide (k = k') then Some v else dict_lookup d' k
  end.

(** [d[k]] *)
Definition dict_get {K V} `{EqDecision K} (d : list (K * V)) (k : K) : res V :=
  match dict_lookup d k with
  | Some v => Ok v
  | None => Raise KeyError
  end.

(** [d.setdefault(k, []).append(i)] *)
Fixpoint setdefault_append {K} `{EqDecision K} (d : list (K * list nat))
    (k : K) (i : nat) : list (K * list nat) :=
  match d with
  | [] => [(k, [i])]
  | (k', l) :: d' =>
      if decide (k = k') then (k', l ++ [i]) :: d'
      else (k', l) :: setdefault_append d' k i
  end.

(** [enumerate(xs)] *)
Definition enumerate {A} (xs : list A) : list (nat * A) :=
  zip (seq 0 (length xs)) xs.

(** The order in which a Python [set] is iterated is fixed by hashing and
    insertion history; the router may rely only on every element being
    visited once. *)
Record SetOrder := mkSetOrder {
  iter_labels : gset Z -> list Z;
  iter_labels_perm : forall s, iter_labels s ≡ₚ elements s;
  iter_paths : gset path -> list path;
  iter_paths_perm : forall s, iter_paths s ≡ₚ elements s
}.

(** ** route_by_clusters, step by step *)

Definition noise : Z := -1.

(** Lines 139-144: cluster -> indices and image -> indices. *)
Definition build_indices (records : list FaceRec) (labels : list Z)
  : list (Z * list nat) * list (path * list nat) :=
  fold_left
    (fun acc item =>
       let '(cluster_indices, image_indices) := acc in
       let '(idx, (rec, lab)) := item in
       (setdefault_append cluster_indices lab idx,
        setdefault_append image_indices (img_path rec) idx))
    (enumerate (zip records labels)) ([], []).

(** Line 151: [any(records[i].faces_in_image <= group_thr for i in idxs)] *)
Fixpoint any_personal (records : list FaceRec) (group_thr : Z)
    (idxs : list nat) : res bool :=
  match idxs with
  | [] => Ok false
  | i :: idxs' =>
      match list_get records i with
      | Raise e => Raise e
      | Ok rec =>
          if bool_decide (faces_in_image rec <= group_thr) then Ok true
          else any_personal records group_thr idxs'
      end
  end.

(** Lines 147-152: the loop over [cluster_indices.items()]. *)
Fixpoint eligible_loop (records : list FaceRec) (group_thr : Z)
    (items : list (Z * list nat)) (eligible_clusters : gset Z)
  : res (gset Z) :=
  match items with
  | [] => Ok eligible_clusters
  | (lab, idxs) :: items' =>
      if decide (lab = noise) then
        eligible_loop records group_thr items' eligible_clusters
      else
        match any_personal records group_thr idxs with
        | Raise e => Raise e
        | Ok true =>
            eligible_loop records group_thr items' ({[lab]} ∪ eligible_clusters)
        | Ok false =>
            eligible_loop records group_thr items' eligible_clusters
        end
  end.

Definition eligible_clusters_of (records : list FaceRec) (labels : list Z)
    (group_thr : Z) : res (gset Z) :=
  eligible_loop records group_thr (build_indices records labels).1 ∅.

(** [str.zfill]-style padding of the format [03d]. *)
Definition zfill (width : nat) (s : string) : string :=
  Nat.iter (width - String.length s) (String "0"%char) s.

(** [f"{i:03d}"] for [i >= 0]. *)
Definition format_03d (i : nat) : string :=
  zfill 3 (NilEmpty.string_of_uint (Nat.to_uint i)).

(** [f"person_{i:03d}"] *)
Definition person_name (i : nat) : string := "person_" +:+ format_03d i.

(** Line 155: [sorted(eligible_clusters)]. *)
Definition eligible_sorted_of (order : SetOrder) (eligible_clusters : gset Z)
  : list Z :=
  merge_sort Z.le (iter_labels order eligible_clusters).

(** Line 156: the dict comprehension over [enumerate(eligible_sorted)].  The
    keys enumerate a set, so no entry overwrites another and the dict lists
    them in sorted order. *)
Definition cluster_to_name_of (eligible_sorted : list Z) : list (Z * string) :=
  (fun ic => (ic.2, person_name ic.1)) <$> enumerate eligible_sorted.

Record RouteState := mkRouteState {
  copied_person_image : gset (string * path);
  staged_group_only : gset path;
  staged_unknown : gset path;
  log : list LogRow
}.

(** The three logging loops (lines 185-188, 193-196, 201-204):
    [for i in idxs: if keep(labels[i]): rec = records[i]; log.append(row)]. *)
Fixpoint log_faces (records : list FaceRec) (labels : list Z) (src : path)
    (folder reason : string) (keep : Z -> bool) (idxs : list nat)
    (log : list LogRow) : res (list LogRow) :=
  match idxs with
  | [] => Ok log
  | i :: idxs' =>
      match list_get labels i with
      | Raise e => Raise e
      | Ok lab =>
          if keep lab then
            match list_get records i with
            | Raise e => Raise e
            | Ok rec =>
                log_faces records labels src folder reason keep idxs'
                  (log ++ [mkLogRow (name src) folder (face_index rec)
                             (faces_in_image rec) (det_score rec) reason])
            end
          else log_faces records labels src folder reason keep idxs' log
      end
  end.

(** Line 169: [{labels[i] for i in idxs}] *)
Fixpoint labels_at (labels : list Z) (idxs : list nat) : res (gset Z) :=
  match idxs with
  | [] => Ok ∅
  | i :: idxs' =>
      match list_get labels i with
      | Raise e => Raise e
      | Ok lab =>
          match labels_at labels idxs' with
          | Raise e => Raise e
          | Ok s => Ok ({[lab]} ∪ s)
          end
      end
  end.

(** Line 179: [f"{src.stem}__{person_name}{src.suffix}"] *)
Definition person_dst_name (src : path) (person : string) : string :=
  stem src +:+ "__" +:+ person +:+ suffix src.

Definition person_dst (out_dir src : path) (person : string) : path :=
  joinpath (joinpath out_dir person) (person_dst_name src person).

Definition report_header : list string :=
  ["file"; "assigned_folder"; "face_index"; "faces_in_image"; "det_score";
   "reason"].

Section Router.

Context (order : SetOrder).
Context (records : list FaceRec) (labels : list Z).
Context (out_dir : path) (group_thr : Z).

(** Lines 175-188: one turn of [for lab in eligible_on_image]. *)
Definition route_person (cluster_to_name : list (Z * string)) (src : path)
    (idxs : list nat) (lab : Z) (st : RouteState) : M RouteState :=
  person <- lift (dict_get cluster_to_name lab) ;;
  let key := (person, src) in
  copied <-
    (if decide (key ∈ copied_person_image st) then
       ret (copied_person_image st)
     else
       (copy_unless_file src (person_dst out_dir src person) ;;
        ret ({[key]} ∪ copied_person_image st))) ;;
  log' <- lift (log_faces records labels src person "eligible_person_image"
                  (fun l => bool_decide (l = lab)) idxs (log st)) ;;
  ret (mkRouteState copied (staged_group_only st) (staged_unknown st) log').

(** Lines 168-204: one turn of [for src, idxs in image_indices.items()]. *)
Definition route_image (eligible_clusters : gset Z)
    (cluster_to_name : list (Z * string)) (item : path * list nat)
    (st : RouteState) : M RouteState :=
  let '(src, idxs) := item in
  labs_on_image <- lift (labels_at labels idxs) ;;
  let eligible_on_image : gset Z :=
    filter (fun lab => lab ∈ eligible_clusters) labs_on_image in
  let ineligible_on_image : gset Z :=
    filter (fun lab => (lab ∉ eligible_clusters) /\ (lab ≠ noise)) labs_on_image in
  let has_any_cluster :=
    bool_decide (0 < size (labs_on_image ∖ {[noise]}))%nat in
  st1 <- for_fold (route_person cluster_to_name src idxs)
           (iter_labels order eligible_on_image) st ;;
  st2 <-
    (if decide (ineligible_on_image ≠ ∅) then
       log' <- lift (log_faces records labels src "__group_only__"
                       "group_only_person_on_image"
                       (fun l => bool_decide (l ∈ ineligible_on_image))
                       idxs (log st1)) ;;
       ret (mkRouteState (copied_person_image st1)
              ({[src]} ∪ staged_group_only st1) (staged_unknown st1) log')
     else ret st1) ;;
  if has_any_cluster then ret st2
  else
    log' <- lift (log_faces records labels src "__unknown__"
                    "noise_only_image"
                    (fun l => bool_decide (l = noise)) idxs (log st2)) ;;
    ret (mkRouteState (copied_person_image st2) (staged_group_only st2)
           ({[src]} ∪ staged_unknown st2) log').

(** Lines 123-224. *)
Definition route_by_clusters : M (list (Z * string) * path * gset Z) :=
  ensure_dir out_dir ;;
  let unknown_dir := joinpath out_dir "__unknown__" in
  let group_only_dir := joinpath out_dir "__group_only__" in
  ensure_dir unknown_dir ;;
  ensure_dir group_only_dir ;;
  let '(cluster_indices, image_indices) := build_indices records labels in
  eligible_clusters <-
    lift (eligible_loop records group_thr cluster_indices ∅) ;;
  let eligible_sorted := eligible_sorted_of order eligible_clusters in
  let cluster_to_name := cluster_to_name_of eligible_sorted in
  for_each (fun name => ensure_dir (joinpath out_dir name))
    cluster_to_name.*2 ;;
  st <- for_fold (route_image eligible_clusters cluster_to_name)
          image_indices (mkRouteState ∅ ∅ ∅ []) ;;
  for_each (fun src => copy_unless_file src (joinpath group_only_dir (name src)))
    (iter_paths order (staged_group_only st)) ;;
  for_each (fun src => copy_unless_file src (joinpath unknown_dir (name src)))
    (iter_paths order (staged_unknown st)) ;;
  let report_path := joinpath out_dir "clustering_report.csv" in
  write_csv report_path report_header (log st) ;;
  ret (cluster_to_name, report_path, eligible_clusters).

End Router.

(** ** Data for concrete runs *)

(** The order in which [gset] lists its elements, as one admissible
    iteration order. *)
Definition elements_order : SetOrder :=
  mkSetOrder elements (fun _ => reflexivity _) elements (fun _ => reflexivity _).

Definition rec_of (p : path) (idx : nat) (n : Z) : FaceRec :=
  mkFaceRec p idx n [] 0%float [].

Definition imgA : path := ["in"; "A.jpg"].
Definition imgB : path := ["in"; "B.jpg"].
Definition imgC : path := ["in"; "C.jpg"].
Definition imgD : path := ["in"; "D.jpg"].

Definition scenario_records : list FaceRec :=
  [rec_of imgA 0 1; rec_of imgB 0 1;
   rec_of imgC 0 4; rec_of imgC 1 4; rec_of imgC 2 4; rec_of imgC 3 4;
   rec_of imgD 0 5].
Definition scenario_labels : list Z := [0; 0; 0; 1; 2; -1; -1].
Definition scenario_fs : FS :=
  mkFS ∅ {[ imgA := Blob 1; imgB := Blob 2; imgC := Blob 3; imgD := Blob 4 ]} ∅ [].

(** * Notions for the statements and the proofs *)

Section GroupingDefs.
Context {K : Type} `{EqDecision K}.
Implicit Types (d : list (K * list nat)) (k : K) (i : nat).

(** [i] is filed under [k] in the dict [d]. *)
Definition filed d k i : Prop := exists l, (k, l) ∈ d /\ i ∈ l.

Fixpoint group_from (n : nat) (keys : list K) d : list (K * list nat) :=
  match keys with
  | [] => d
  | k :: keys' => group_from (S n) keys' (setdefault_append d k n)
  end.

End GroupingDefs.

Section IndicesDefs.
Context (records : list FaceRec) (labels : list Z).

(** Face number [i] of the run: record [r] carrying label [l]. *)
Definition face_at (i : nat) (r : FaceRec) (l : Z) : Prop :=
  records !! i = Some r /\ labels !! i = Some l.

End IndicesDefs.

Section EligibilityDefs.
Context (records : list FaceRec) (labels : list Z) (group_thr : Z).

(** The [faces_in_image] values of the members of cluster [lab]. *)
Definition member_faces (lab : Z) : list Z :=
  (fun rl => faces_in_image rl.1) <$>
    filter (fun rl => rl.2 = lab) (zip records labels).

(** [min(...)] over a cluster's members; a cluster without members has none. *)
Definition min_faces (lab : Z) : option Z :=
  match member_faces lab with
  | [] => None
  | x :: xs => Some (foldr Z.min x xs)
  end.

End EligibilityDefs.

(** The number a string of decimal digits denotes, leading zeros allowed. *)
Definition decimal_value (s : string) : option nat :=
  Nat.of_uint <$> NilEmpty.uint_of_string s.

(** Replaying a plan: one guarded copy per entry, in order. *)
Definition exec (plan : list (path * path)) : M unit :=
  for_each (fun e => copy_unless_file e.1 e.2) plan.

(** The fold that collects the plan of a loop next to its local state. *)
Fixpoint plan_fold {A} (step : A -> RouteState -> res (list (path * path) * RouteState))
    (xs : list A) (st : RouteState) : res (list (path * path) * RouteState) :=
  match xs with
  | [] => Ok ([], st)
  | x :: xs' =>
      match step x st with
      | Raise e => Raise e
      | Ok (p1, st1) =>
          match plan_fold step xs' st1 with
          | Raise e => Raise e
          | Ok (p2, st2) => Ok (p1 ++ p2, st2)
          end
      end
  end.

Section DecisionsDefs.
Context (order : SetOrder).
Context (records : list FaceRec) (labels : list Z).
Context (out_dir : path) (group_thr : Z).

(** The decisions of one turn of [for lab in eligible_on_image]. *)
Definition person_step (cluster_to_name : list (Z * string)) (src : path)
    (idxs : list nat) (lab : Z) (st : RouteState)
  : res (list (path * path) * RouteState) :=
  match dict_get cluster_to_name lab with
  | Raise e => Raise e
  | Ok person =>
      match log_faces records labels src person "eligible_person_image"
              (fun l => bool_decide (l = lab)) idxs (log st) with
      | Raise e => Raise e
      | Ok log' =>
          if decide ((person, src) ∈ copied_person_image st) then
            Ok ([], mkRouteState (copied_person_image st)
                      (staged_group_only st) (staged_unknown st) log')
          else
            Ok ([(src, person_dst out_dir src person)],
                mkRouteState ({[(person, src)]} ∪ copied_person_image st)
                  (staged_group_only st) (staged_unknown st) log')
      end
  end.

(** The decisions of one turn of [for src, idxs in image_indices.items()]. *)
Definition image_step (eligible_clusters : gset Z)
    (cluster_to_name : list (Z * string)) (item : path * list nat)
    (st : RouteState) : res (list (path * path) * RouteState) :=
  let '(src, idxs) := item in
  match labels_at labels idxs with
  | Raise e => Raise e
  | Ok labs_on_image =>
      let eligible_on_image : gset Z :=
        filter (fun lab => lab ∈ eligible_clusters) labs_on_image in
      let ineligible_on_image : gset Z :=
        filter (fun lab => (lab ∉ eligible_clusters) /\ (lab ≠ noise))
          labs_on_image in
      let has_any_cluster :=
        bool_decide (0 < size (labs_on_image ∖ {[noise]}))%nat in
      match plan_fold (person_step cluster_to_name src idxs)
              (iter_labels order eligible_on_image) st with
      | Raise e => Raise e
      | Ok (p, st1) =>
          match
            (if decide (ineligible_on_image ≠ ∅) then
               match log_faces records labels src "__group_only__"
                       "group_only_person_on_image"
                       (fun l => bool_decide (l ∈ ineligible_on_image))
                       idxs (log st1) with
               | Raise e => Raise e
               | Ok log' =>
                   Ok (mkRouteState (copied_person_image st1)
                         ({[src]} ∪ staged_group_only st1)
                         (staged_unknown st1) log')
               end
             else Ok st1)
          with
          | Raise e => Raise e
          | Ok st2 =>
              if has_any_cluster then Ok (p, st2)
              else
                match log_faces records labels src "__unknown__"
                        "noise_only_image"
                        (fun l => bool_decide (l = noise)) idxs (log st2) with
                | Raise e => Raise e
                | Ok log' =>
                    Ok (p, mkRouteState (copied_person_image st2)
                             (staged_group_only st2)
                             ({[src]} ∪ staged_unknown st2) log')
                end
          end
      end
  end.

End DecisionsDefs.

Section DecisionSpecDefs.
Context (order : SetOrder).
Context (records : list FaceRec) (labels : list Z).
Context (out_dir : path) (group_thr : Z).

(** Label [lab] occurs on image [src]. *)
Definition on_image (src : path) (lab : Z) : Prop :=
  exists i r, face_at records labels i r lab /\ img_path r = src.

Definition valid_idxs (idxs : list nat) : Prop :=
  Forall (fun i => is_Some (records !! i) /\ is_Some (labels !! i)) idxs.

End DecisionSpecDefs.

Section PlanInvariantDefs.
Context (order : SetOrder).
Context (records : list FaceRec) (labels : list Z).
Context (out_dir : path).
Context (E : gset Z) (c2n : list (Z * string)).

(** The plan of person copies and the dedup set describe each other. *)
Definition plan_inv (p : list (path * path)) (st : RouteState) : Prop :=
  NoDup p /\
  (forall s d, (s, d) ∈ p ->
     exists person, (person, s) ∈ copied_person_image st /\
                    d = person_dst out_dir s person) /\
  (forall person s, (person, s) ∈ copied_person_image st ->
     (s, person_dst out_dir s person) ∈ p /\
     exists lab, on_image records labels s lab /\ lab ∈ E /\
                 dict_lookup c2n lab = Some person).

End PlanInvariantDefs.

Section RoutePlanDefs.
Context (order : SetOrder).
Context (records : list FaceRec) (labels : list Z).
Context (out_dir : path).
Context (E : gset Z) (c2n : list (Z * string)).

(** What holds after the images [pre] have been routed. *)
Definition images_inv (pre : list (path * list nat))
    (p : list (path * path)) (st : RouteState) : Prop :=
  plan_inv records labels out_dir E c2n p st /\
  (forall s lab, s ∈ pre.*1 -> on_image records labels s lab -> lab ∈ E ->
     exists person, dict_lookup c2n lab = Some person /\
                    (person, s) ∈ copied_person_image st) /\
  (forall s, s ∈ staged_group_only st <->
     s ∈ pre.*1 /\
     exists lab, on_image records labels s lab /\ (lab ∉ E) /\ lab ≠ noise) /\
  (forall s, s ∈ staged_unknown st <->
     s ∈ pre.*1 /\ forall lab, on_image records labels s lab -> lab = noise).

Definition empty_state : RouteState := mkRouteState ∅ ∅ ∅ [].

End RoutePlanDefs.

Section DecompositionDefs.
Context (order : SetOrder).
Context (records : list FaceRec) (labels : list Z).
Context (out_dir : path) (group_thr : Z).

Definition unknown_dir : path := joinpath out_dir "__unknown__".

Definition group_only_dir : path := joinpath out_dir "__group_only__".

Definition report_path : path := joinpath out_dir "clustering_report.csv".

(** The guarded copies of a flush loop. *)
Definition shared_plan (dir : path) (srcs : list path) : list (path * path) :=
  (fun src => (src, joinpath dir (name src))) <$> srcs.

(** All decisions of a call: eligible clusters, names, the person copies
    and the final local state. *)
Definition route_plan
  : res (gset Z * list (Z * string) * list (path * path) * RouteState) :=
  match eligible_clusters_of records labels group_thr with
  | Raise e => Raise e
  | Ok E =>
      let c2n := cluster_to_name_of (eligible_sorted_of order E) in
      match plan_fold (image_step order records labels out_dir E c2n)
              (build_indices records labels).2 empty_state with
      | Raise e => Raise e
      | Ok (pp, st) => Ok (E, c2n, pp, st)
      end
  end.

Definition full_plan (pp : list (path * path)) (st : RouteState)
  : list (path * path) :=
  pp ++ shared_plan group_only_dir (iter_paths order (staged_group_only st))
     ++ shared_plan unknown_dir (iter_paths order (staged_unknown st)).

Definition mkdirs (c2n : list (Z * string)) : M unit :=
  ensure_dir out_dir ;;
  ensure_dir unknown_dir ;;
  ensure_dir group_only_dir ;;
  for_each (fun name => ensure_dir (joinpath out_dir name)) c2n.*2.

End DecompositionDefs.

(** The image [src] is present under the destination [dst]. *)
Definition materialized (fs : FS) (src dst : path) : Prop :=
  dst ∈ dom (fs_files fs) \/
  (dst ∈ fs_dirs fs /\ joinpath dst (name src) ∈ dom (fs_files fs)).

(** Only directories were added between two states. *)
Definition dirs_grow (fs fs' : FS) : Prop :=
  fs_files fs' = fs_files fs /\ fs_locked fs' = fs_locked fs /\
  fs_copied fs' = fs_copied fs /\ fs_dirs fs ⊆ fs_dirs fs'.

Section MkdirsDefs.
Context (out_dir : path).

(** Every directory [route_by_clusters] creates, in creation order. *)
Definition all_dirs (c2n : list (Z * string)) : list path :=
  out_dir :: unknown_dir out_dir :: group_only_dir out_dir ::
    (joinpath out_dir <$> c2n.*2).

End MkdirsDefs.

Section PhasesDefs.
Context (order : SetOrder).
Context (records : list FaceRec) (labels : list Z).
Context (out_dir : path) (group_thr : Z).

(** How a call can end: in the directory phase, in the copy phase, while
    writing the report, or normally. *)
Inductive run_shape (c2n : list (Z * string)) (plan : list (path * path))
    (rows : list LogRow) (v : list (Z * string) * path * gset Z)
    (fs : FS) : res (list (Z * string) * path * gset Z) -> FS -> Prop :=
  | run_mkdir_failed e fs' :
      for_each ensure_dir (all_dirs out_dir c2n) fs = (Raise e, fs') ->
      run_shape c2n plan rows v fs (Raise e) fs'
  | run_copy_failed e fsA fs' :
      for_each ensure_dir (all_dirs out_dir c2n) fs = (Ok tt, fsA) ->
      exec plan fsA = (Raise e, fs') ->
      run_shape c2n plan rows v fs (Raise e) fs'
  | run_report_failed e fsA fsB :
      for_each ensure_dir (all_dirs out_dir c2n) fs = (Ok tt, fsA) ->
      exec plan fsA = (Ok tt, fsB) ->
      write_csv (report_path out_dir) report_header rows fsB = (Raise e, fsB) ->
      run_shape c2n plan rows v fs (Raise e) fsB
  | run_completed fsA fsB :
      for_each ensure_dir (all_dirs out_dir c2n) fs = (Ok tt, fsA) ->
      exec plan fsA = (Ok tt, fsB) ->
      (report_path out_dir ∉ fs_dirs fsB) ->
      (report_path out_dir ∉ fs_locked fsB) ->
      run_shape c2n plan rows v fs (Ok v)
        (mkFS (fs_dirs fsB)
           (<[report_path out_dir := Csv report_header rows]> (fs_files fsB))
           (fs_locked fsB) (fs_copied fsB)).

End PhasesDefs.

(** The destination [d] lies in the bucket [b] of the output root. *)
Definition in_bucket (out_dir : path) (b : string) (d : path) : Prop :=
  (out_dir ++ [b]) `prefix_of` d.

Global Instance in_bucket_dec out_dir b d : Decision (in_bucket out_dir b d).
Proof. unfold in_bucket. apply _. Defined.

(** Every record names a file: its path has a last component. *)
Definition names_ok (records : list FaceRec) : Prop :=
  forall r, r ∈ records -> name (img_path r) ≠ "".

(** No directory lies inside a bucket of the output root. *)
Definition no_nested (fs : FS) (out_dir : path) : Prop :=
  forall q, q ∈ fs_dirs fs -> out_dir `prefix_of` q ->
    (length q <= length out_dir + 1)%nat.

(** ** The pipeline around the router *)

(** One detection of the face detector: [f.bbox], [f.det_score],
    [f.embedding]. *)
Record Face := mkFace {
  face_bbox : list float;
  face_det_score : float;
  face_embedding : list float
}.

(** The collaborators of the pipeline: directory listing, image decoding
    with the sharpness test, the face detector and scikit-learn's DBSCAN.
    [blurred min_face blur_thr p] is the test of line 91 on the image loaded
    and cropped by lines 88-90; [detect det_size gpu_id min_face p] is
    [emb.detect(bgr)]; [dbscan eps_sim min_samples X] stands for lines
    110-114 and raises when scikit-learn rejects its parameters. *)
Record Collaborators := mkCollaborators {
  rglob : path -> list path;
  blurred : Z -> float -> path -> bool;
  detect : Z -> Z -> Z -> path -> list Face;
  dbscan : float -> Z -> list (list float) -> res (list Z)
}.

Definition IMG_EXTS : list string :=
  [".jpg"; ".jpeg"; ".png"; ".bmp"; ".webp"; ".tif"; ".tiff"].

(** [str.lower] on ASCII letters. *)
Definition lower_ascii (c : ascii) : ascii :=
  let n := nat_of_ascii c in
  if (65 <=? n)%nat && (n <=? 90)%nat then ascii_of_nat (n + 32) else c.

Fixpoint lower (s : string) : string :=
  match s with
  | EmptyString => EmptyString
  | String c s' => String (lower_ascii c) (lower s')
  end.

Definition is_image (p : path) : bool :=
  bool_decide (lower (suffix p) ∈ IMG_EXTS).

(** Lines 95-104: the records of one image. *)
Definition face_records (img : path) (faces : list Face) : list FaceRec :=
  let n_faces := length faces in
  (fun '(idx, f) =>
     mkFaceRec img idx (Z.of_nat n_faces) (face_bbox f) (face_det_score f)
       (face_embedding f)) <$> enumerate faces.

(** Lines 83-105. *)
Definition collect_faces (c : Collaborators) (input_dir : path)
    (min_face : Z) (blur_thr : float) (det_size gpu_id : Z) : list FaceRec :=
  let files := filter (fun p => is_image p = true) (rglob c input_dir) in
  files ≫= (fun img =>
    if blurred c min_face blur_thr img then []
    else face_records img (detect c det_size gpu_id min_face img)).

(** Lines 107-115. *)
Definition cluster_faces (c : Collaborators) (records : list FaceRec)
    (eps_sim : float) (min_samples : Z) : res (list Z) :=
  match records with
  | [] => Ok []
  | _ => dbscan c eps_sim min_samples (embedding <$> records)
  end.

(** The parsed command line of [main]. *)
Record Args := mkArgs {
  input_dir : path;
  out_dir_arg : path;
  eps_sim : float;
  min_samples : Z;
  min_face : Z;
  blur_thr : float;
  det_size : Z;
  gpu_id : Z;
  group_thr_arg : Z
}.

Inductive Outcome :=
  | NoUsableFaces
  | Routed (cluster_to_name : list (Z * string)) (report : path)
      (eligible_clusters : gset Z).

(** Lines 227-252, after [parse_args]. *)
Definition main (c : Collaborators) (order : SetOrder) (args : Args)
  : M Outcome :=
  let records :=
    collect_faces c (input_dir args) (min_face args) (blur_thr args)
      (det_size args) (gpu_id args) in
  match records with
  | [] => ret NoUsableFaces
  | _ =>
      labels <- lift (cluster_faces c records (eps_sim args) (min_samples args)) ;;
      v <- route_by_clusters order records labels (out_dir_arg args)
             (group_thr_arg args) ;;
      ret (Routed v.1.1 v.1.2 v.2)
  end.

(** No regular file sits where the output root or one of the two shared
    buckets has to be created. *)
Definition mkdir_possible (fs : FS) (out_dir : path) : Prop :=
  forall p, p ∈ [out_dir; unknown_dir out_dir; group_only_dir out_dir] ->
    Forall (fun q => q ∉ dom (fs_files fs)) (prefixes p).


(** ** Concrete runs *)

(** The (image, label) pairs of a run, for deciding [on_image]. *)
Definition image_labels (records : list FaceRec) (labels : list Z)
  : list (path * Z) :=
  (fun rl => (img_path rl.1, rl.2)) <$> zip records labels.

Definition scenario_run : res (list (Z * string) * path * gset Z) * FS :=
  route_by_clusters elements_order scenario_records scenario_labels
    ["out"] 3 scenario_fs.

Definition scenario_result : res (list (Z * string) * path * gset Z) * FS :=
  Eval vm_compute in scenario_run.

Definition swapped_records : list FaceRec :=
  [rec_of imgB 0 1; rec_of imgA 0 1;
   rec_of imgC 0 4; rec_of imgC 1 4; rec_of imgC 2 4; rec_of imgC 3 4;
   rec_of imgD 0 5].

Definition imgE : path := ["in"; "E.jpg"].

Definition face0 : Face := mkFace [] 1%float [1%float; 0%float].

(** Image A shows one face, every other image none; the clusterer rejects
    a [min_samples] below one and otherwise finds only noise. *)
Definition camera : Collaborators :=
  mkCollaborators
    (fun _ => [imgA; imgE])
    (fun _ _ _ => false)
    (fun _ _ _ p => if decide (p = imgA) then [face0] else [])
    (fun _ ms X =>
       if ms <=? 0 then Raise InvalidParameterError
       else Ok (replicate (length X) noise)).

(** The same, with a detector that finds no face at all. *)
Definition blind_camera : Collaborators :=
  mkCollaborators (rglob camera) (blurred camera) (fun _ _ _ _ => [])
    (dbscan camera).

Definition camera_fs : FS :=
  mkFS ∅ {[ imgA := Blob 1; imgE := Blob 5 ]} ∅ [].

Definition args_of (ms : Z) : Args :=
  mkArgs ["in"] ["out"] 0.5%float ms 110 45%float 640 0 3.

Definition imgX : path := ["x"; "a.jpg"].

Definition imgY : path := ["y"; "a.jpg"].

Definition twin_records : list FaceRec := [rec_of imgX 0 1; rec_of imgY 0 1].


Definition twin_fs : FS :=
  mkFS ∅ {[ imgX := Blob 7; imgY := Blob 8 ]} ∅ [].


Definition locked_records : list FaceRec := [rec_of imgA 0 1; rec_of imgB 0 1].

Definition locked_labels : list Z := [0; 0].

Definition locked_fs : FS :=
  mkFS ∅ {[ imgA := Blob 1; imgB := Blob 2 ]}
    {[ ["out"; "person_000"; "A__person_000.jpg"] ]} [].

Definition locked_dirs : res unit * FS :=
  Eval vm_compute in
    for_each ensure_dir
      (all_dirs ["out"]
         (cluster_to_name_of (eligible_sorted_of elements_order {[0]})))
      locked_fs.

(** ** The rows of the report *)

(** The row that a logging loop appends for the record [r] of image [src]. *)
Definition face_row (src : path) (folder reason : string) (r : FaceRec)
  : LogRow :=
  mkLogRow (name src) folder (face_index r) (faces_in_image r) (det_score r)
    reason.

(** The rows a logging loop appends: one per index whose label is kept. *)
Definition face_rows (records : list FaceRec) (labels : list Z)
    (keep : Z -> bool) (mk : Z -> FaceRec -> option LogRow) (i : nat)
  : option LogRow :=
  match labels !! i, records !! i with
  | Some lab, Some r => if keep lab then mk lab r else None
  | _, _ => None
  end.

(** The folder of a person row is looked up under the face's label. *)
Definition person_row (c2n : list (Z * string)) (src : path) (l : Z)
    (r : FaceRec) : option LogRow :=
  (fun person => face_row src person "eligible_person_image" r)
    <$> dict_lookup c2n l.

(** Every label on the image of [src] is noise, as a test on the
    (image, label) pairs of the run. *)
Definition noise_only (records : list FaceRec) (labels : list Z) (src : path)
  : Prop :=
  Forall (fun sl => sl.1 = src -> sl.2 = noise) (image_labels records labels).

(** The row of the report for one face, if it has one: a face of an
    eligible cluster is reported under the cluster's folder, a face of any
    other cluster under [__group_only__], a noise face under [__unknown__]
    when its image shows nothing but noise. *)
Definition report_row (records : list FaceRec) (labels : list Z)
    (E : gset Z) (c2n : list (Z * string)) (rl : FaceRec * Z)
  : option LogRow :=
  let '(r, lab) := rl in
  if decide (lab ∈ E) then
    (fun person => face_row (img_path r) person "eligible_person_image" r)
      <$> dict_lookup c2n lab
  else if decide (lab ≠ noise) then
    Some (face_row (img_path r) "__group_only__"
            "group_only_person_on_image" r)
  else if decide (noise_only records labels (img_path r)) then
    Some (face_row (img_path r) "__unknown__" "noise_only_image" r)
  else None.

Global Instance noise_only_dec records labels src :
  Decision (noise_only records labels src).
Proof. unfold noise_only. apply _. Defined.

(** ** Pixel arrays and center_crop_square *)

(** A decoded image: [bgr.shape[:2]] is [(im_height, im_width)] and the
    pixels are stored row by row. *)
Record Image (A : Type) := mkImage {
  im_width : nat;
  im_rows : list (list A)
}.
Arguments mkImage {A} im_width im_rows.
Arguments im_width {A} _.
Arguments im_rows {A} _.

Definition im_height {A} (bgr : Image A) : nat := length (im_rows bgr).

(** Every row has the width the shape announces. *)
Definition well_formed {A} (bgr : Image A) : Prop :=
  Forall (fun row => length row = im_width bgr) (im_rows bgr).

(** [bgr[i, j]] *)
Definition pixel {A} (bgr : Image A) (i j : nat) : option A :=
  im_rows bgr !! i ≫= fun row => row !! j.

(** [bgr[y0:y1, x0:x1]] for bounds that are not negative: numpy clips a
    slice to the array. *)
Definition slice {A} (bgr : Image A) (y0 y1 x0 x1 : nat) : Image A :=
  mkImage (Nat.min x1 (im_width bgr) - Nat.min x0 (im_width bgr))
    ((fun row => take (x1 - x0) (drop x0 row))
       <$> take (y1 - y0) (drop y0 (im_rows bgr))).

(** Lines 53-61.  [resize crop w h] stands for
    [cv2.resize(crop, (w, h), interpolation=cv2.INTER_CUBIC)], which
    raises on an empty image. *)
Definition center_crop_square {A}
    (resize : Image A -> Z -> Z -> option (Image A))
    (bgr : Image A) (size_min : Z) : option (Image A) :=
  let h := im_height bgr in
  let w := im_width bgr in
  let s := Nat.min h w in
  let y0 := ((h - s) / 2)%nat in
  let x0 := ((w - s) / 2)%nat in
  let crop := slice bgr y0 (y0 + s) x0 (x0 + s) in
  if Z.of_nat s <? size_min then resize crop size_min size_min
  else Some crop.

(** Lines 89-90 of [collect_faces]:
    [if min(bgr.shape[:2]) < min_face:
       bgr = center_crop_square(bgr, size_min=min_face)]. *)
Definition crop_if_small {A}
    (resize : Image A -> Z -> Z -> option (Image A))
    (bgr : Image A) (min_face : Z) : option (Image A) :=
  if Z.of_nat (Nat.min (im_height bgr) (im_width bgr)) <? min_face then
    center_crop_square resize bgr min_face
  else Some bgr.

(** ** app.py: the folder picker *)





(** app.py, line 472. *)
Definition image_extensions : list string :=
  [".jpg"; ".jpeg"; ".png"; ".bmp"; ".webp"; ".tif"; ".tiff"].

(** app.py, lines 469-479: the files below [folder_path] that are regular
    files with an image extension. *)
Definition count_images_in_folder (c : Collaborators) (fs : FS)
    (folder_path : path) : nat :=
  length (filter (fun file_path =>
                    file_path ∈ dom (fs_files fs) /\
                    lower (suffix file_path) ∈ image_extensions)
            (rglob c folder_path)).

(** ** app.py: the processing queue and process_images *)

Module App.

(** [st.session_state.params] *)
Record Params := mkParams {
  eps_sim : float;
  min_samples : Z;
  min_face : Z;
  blur_thr : float;
  group_thr : Z;
  det_size : Z;
  gpu_id : Z
}.

(** [st.session_state.results] *)
Record Results := mkResults {
  cluster_to_name : list (Z * string);
  eligible_clusters : gset Z;
  results_output_dir : path;
  report_path : path;
  total_faces : nat;
  total_images : nat
}.

(** The entries of [st.session_state] that the queue and [process_images]
    read or write.  [processing_logs], [output_dir] and [results] may be
    absent; the others are set before these functions run
    ([show_upload_tab], [show_processing_tab], [main]). *)
Record Session := mkSession {
  processing_queue : list path;
  current_processing : option path;
  processing_status : string;
  processing_state : string;
  processing_logs : option (list string);
  auto_process_current : bool;
  output_dir : option path;
  input_dir : path;
  params : Params;
  uploaded_files : list path;
  results : option Results
}.

(** What Python raises inside the application: an exception of the
    pipeline, or [AttributeError] for an absent entry of the session. *)
Inductive py_exn :=
  | PipelineError (e : exn)
  | AttributeError.

(** How a function of the application ends: it returns, it raises an
    [Exception], or [st.rerun()] stops the script with its control
    exception, which is not an [Exception]. *)
Inductive signal :=
  | Returned
  | Raised (e : py_exn)
  | RerunException.

(** The environment of the application.  A log line is an f-string with
    the clock reading of [time.strftime] in front: its text is a parameter,
    one function per line of the source.  [home] is [Path.home()],
    [timestamp] the reading of [datetime.datetime.now()], and
    [scan_folder_for_images] the function of that name. *)
Record Env := mkEnv {
  line_queue_added : string -> string;
  line_queue_removed : string -> string;
  line_queue_next : string -> string;
  line_queue_done : string;
  line_started : string -> string;
  line_output_dir : path -> string;
  line_no_faces : string -> string;
  line_clusters : nat -> string;
  line_folders : nat -> string;
  line_finished : string -> string;
  line_saved : path -> string;
  line_error : py_exn -> string;
  home : path;
  timestamp : string;
  scan_folder_for_images : path -> Session -> FS -> Session * FS
}.

Definition set_queue (q : list path) (ss : Session) : Session :=
  mkSession q (current_processing ss) (processing_status ss)
    (processing_state ss) (processing_logs ss) (auto_process_current ss)
    (output_dir ss) (input_dir ss) (params ss) (uploaded_files ss) (results ss).

Definition set_current (c : option path) (ss : Session) : Session :=
  mkSession (processing_queue ss) c (processing_status ss)
    (processing_state ss) (processing_logs ss) (auto_process_current ss)
    (output_dir ss) (input_dir ss) (params ss) (uploaded_files ss) (results ss).

Definition set_status (s : string) (ss : Session) : Session :=
  mkSession (processing_queue ss) (current_processing ss) s
    (processing_state ss) (processing_logs ss) (auto_process_current ss)
    (output_dir ss) (input_dir ss) (params ss) (uploaded_files ss) (results ss).

Definition set_state (s : string) (ss : Session) : Session :=
  mkSession (processing_queue ss) (current_processing ss)
    (processing_status ss) s (processing_logs ss) (auto_process_current ss)
    (output_dir ss) (input_dir ss) (params ss) (uploaded_files ss) (results ss).

Definition set_logs (l : option (list string)) (ss : Session) : Session :=
  mkSession (processing_queue ss) (current_processing ss)
    (processing_status ss) (processing_state ss) l (auto_process_current ss)
    (output_dir ss) (input_dir ss) (params ss) (uploaded_files ss) (results ss).

Definition set_auto (b : bool) (ss : Session) : Session :=
  mkSession (processing_queue ss) (current_processing ss)
    (processing_status ss) (processing_state ss) (processing_logs ss) b
    (output_dir ss) (input_dir ss) (params ss) (uploaded_files ss) (results ss).

Definition set_output_dir (d : option path) (ss : Session) : Session :=
  mkSession (processing_queue ss) (current_processing ss)
    (processing_status ss) (processing_state ss) (processing_logs ss)
    (auto_process_current ss) d (input_dir ss) (params ss)
    (uploaded_files ss) (results ss).

Definition set_results (r : option Results) (ss : Session) : Session :=
  mkSession (processing_queue ss) (current_processing ss)
    (processing_status ss) (processing_state ss) (processing_logs ss)
    (auto_process_current ss) (output_dir ss) (input_dir ss) (params ss)
    (uploaded_files ss) r.

(** [if 'processing_logs' not in st.session_state:
       st.session_state.processing_logs = []] *)
Definition ensure_logs (ss : Session) : Session :=
  match processing_logs ss with
  | Some _ => ss
  | None => set_logs (Some []) ss
  end.

(** [st.session_state.processing_logs.append(line)] *)
Definition log_append (line : string) (ss : Session) : option Session :=
  match processing_logs ss with
  | Some l => Some (set_logs (Some (l ++ [line])) ss)
  | None => None
  end.

(** [xs.remove(x)]: the first occurrence goes. *)
Fixpoint list_remove (x : path) (xs : list path) : list path :=
  match xs with
  | [] => []
  | y :: xs' => if decide (x = y) then xs' else y :: list_remove x xs'
  end.

(** Lines 481-492. *)
Definition add_to_queue (env : Env) (folder_path : path) (ss : Session)
  : Session :=
  if decide (folder_path ∉ processing_queue ss) then
    let ss1 := set_queue (processing_queue ss ++ [folder_path]) ss in
    let ss2 := ensure_logs ss1 in
    set_logs (Some (default [] (processing_logs ss2)
                    ++ [line_queue_added env (name folder_path)])) ss2
  else ss.

(** Lines 519-527: the queue is done. *)
Definition queue_completed (env : Env) (ss : Session) : signal * Session :=
  let ss1 :=
    set_state "completed" (set_status "idle" (set_current None ss)) in
  let ss2 :=
    match log_append (line_queue_done env) ss1 with
    | Some ss2 => ss2
    | None => ss1
    end in
  (RerunException, ss2).

(** Lines 502-527. *)
Definition process_next_in_queue (env : Env) (ss : Session) (fs : FS)
  : signal * Session * FS :=
  let removed : option Session :=
    match current_processing ss with
    | Some current =>
        if decide (current ∈ processing_queue ss) then
          log_append (line_queue_removed env (name current))
            (set_queue (list_remove current (processing_queue ss)) ss)
        else Some ss
    | None => Some ss
    end in
  match removed with
  | None =>
      (Raised AttributeError,
       match current_processing ss with
       | Some current =>
           set_queue (list_remove current (processing_queue ss)) ss
       | None => ss
       end, fs)
  | Some ss1 =>
      match processing_queue ss1 with
      | next_folder :: _ =>
          if decide (processing_status ss1 = "processing") then
            let ss2 := set_current (Some next_folder) ss1 in
            match log_append (line_queue_next env (name next_folder)) ss2 with
            | None => (Raised AttributeError, ss2, fs)
            | Some ss3 =>
                let '(ss4, fs4) :=
                  scan_folder_for_images env next_folder
                    (set_auto true ss3) fs in
                (Returned, ss4, fs4)
            end
          else
            let '(sig, ss2) := queue_completed env ss1 in (sig, ss2, fs)
      | [] =>
          let '(sig, ss2) := queue_completed env ss1 in (sig, ss2, fs)
      end
  end.

(** Lines 1386-1391: the handler of [except Exception]; its own
    [processing_logs.append] needs the log to exist. *)
Definition on_exception (env : Env) (e : py_exn) (ss : Session)
  : signal * Session :=
  let ss1 := set_state "error" ss in
  match log_append (line_error env e) ss1 with
  | Some ss2 => (Returned, ss2)
  | None => (Raised AttributeError, ss1)
  end.

(** [Path(st.session_state.current_processing
          or st.session_state.input_dir).name] *)
Definition folder_name (ss : Session) : string :=
  name (default (input_dir ss) (current_processing ss)).

(** Lines 1326-1391: the [try] statement of [process_images] with its
    handler.  From line 1290 on [processing_logs] exists, so the appends
    of the body cannot fail. *)
Definition try_pipeline (env : Env) (c : Collaborators) (order : SetOrder)
    (out : path) (ss : Session) (fs : FS) : signal * Session * FS :=
  let p := params ss in
  let records :=
    collect_faces c (input_dir ss) (min_face p) (blur_thr p)
      (det_size p) (gpu_id p) in
  match records with
  | [] =>
      (Returned,
       set_logs (Some (default [] (processing_logs ss)
                       ++ [line_no_faces env (folder_name ss)])) ss, fs)
  | _ =>
      match cluster_faces c records (eps_sim p) (min_samples p) with
      | Raise e => (on_exception env (PipelineError e) ss, fs)
      | Ok labels =>
          let ss :=
            set_logs (Some (default [] (processing_logs ss)
                            ++ [line_clusters env
                                  (size (list_to_set labels : gset Z))]))
              ss in
          match route_by_clusters order records labels out
                  (group_thr p) fs with
          | (Raise e, fs) => (on_exception env (PipelineError e) ss, fs)
          | (Ok (c2n, report, E), fs) =>
              let ss :=
                set_logs (Some (default [] (processing_logs ss)
                                ++ [line_folders env (size E)])) ss in
              let ss :=
                set_results
                  (Some (mkResults c2n E out report (length records)
                           (length (uploaded_files ss)))) ss in
              let ss :=
                set_logs (Some (default [] (processing_logs ss)
                                ++ [line_finished env (folder_name ss);
                                    line_saved env out])) ss in
              let ss := set_state "completed" ss in
              match process_next_in_queue env ss fs with
              | (Raised e, ss, fs) => (on_exception env e ss, fs)
              | other => other
              end
          end
      end
  end.

(** Lines 1286-1391.  The widgets ([st.spinner], the progress bar, the
    status text and the messages) draw and keep no state. *)
Definition process_images (env : Env) (c : Collaborators) (order : SetOrder)
    (ss : Session) (fs : FS) : signal * Session * FS :=
  let ss := ensure_logs ss in
  let ss :=
    set_logs (Some (default [] (processing_logs ss)
                    ++ [line_started env (folder_name ss)])) ss in
  let ss := set_state "processing" ss in
  let created : res path * Session * FS :=
    match output_dir ss with
    | Some d => (Ok d, ss, fs)
    | None =>
        let results_base_dir := joinpath (home env) "FaceSort_Results" in
        let d := joinpath results_base_dir ("facesort_" +:+ timestamp env) in
        let ss := set_output_dir (Some d) ss in
        match ensure_dir d fs with
        | (Ok _, fs1) =>
            (Ok d,
             set_logs (Some (default [] (processing_logs ss)
                             ++ [line_output_dir env d])) ss, fs1)
        | (Raise e, fs1) => (Raise e, ss, fs1)
        end
    end in
  match created with
  | (Raise e, ss, fs) => (Raised (PipelineError e), ss, fs)
  | (Ok out, ss, fs) => try_pipeline env c order out ss fs
  end.

End App.

(** ** More concrete data *)

(** The one record the camera roll yields. *)
Definition camera_record : FaceRec :=
  mkFaceRec imgA 0 1 [] 1%float [1%float; 0%float].

(** A picture two pixels high and three wide, and a resizer that refuses
    every request. *)
Definition demo_image : Image nat :=
  mkImage 3 [[1; 2; 3]; [4; 5; 6]]%nat.

Definition no_resize : Image nat -> Z -> Z -> option (Image nat) :=
  fun _ _ _ => None.

(** An application environment whose log lines are bare and whose scan
    does nothing. *)
Definition demo_env : App.Env :=
  App.mkEnv (fun s => s) (fun s => s) (fun s => s) "" (fun s => s)
    (fun _ => "") (fun s => s) (fun _ => "") (fun _ => "") (fun s => s)
    (fun _ => "") (fun _ => "") ["home"] "20240101_000000"
    (fun _ ss fs => (ss, fs)).

Definition demo_params (ms : Z) : App.Params :=
  App.mkParams 0.5%float ms 110 45%float 3 640 0.

(** A session that processes the folder [in], the only one queued, into
    [out]. *)
Definition demo_session (ms : Z) : App.Session :=
  App.mkSession [["in"]] (Some ["in"]) "processing" "idle" (Some []) false
    (Some ["out"]) ["in"] (demo_params ms) [imgA; imgE] None.

(** Two images called a.jpg that show the same person. *)
Definition twin_person_labels : list Z := [0; 0].

Definition twin_person_result
  : res (list (Z * string) * path * gset Z) * FS :=
  Eval vm_compute in
    route_by_clusters elements_order twin_records twin_person_labels ["out"] 3
      twin_fs.

(** A second admissible iteration order: that of [elements], reversed. *)
Definition reversed_order : SetOrder :=
  mkSetOrder (fun s => reverse (elements s))
             (fun s => reverse_Permutation (elements s))
             (fun s => reverse (elements s))
             (fun s => reverse_Permutation (elements s)).

Definition reversed_result : res (list (Z * string) * path * gset Z) * FS :=
  Eval vm_compute in
    route_by_clusters reversed_order scenario_records scenario_labels
      ["out"] 3 scenario_fs.

(** * Proofs *)

(** ** Grouping indices by key *)

Section Grouping.
Context {K : Type} `{EqDecision K}.
Implicit Types (d : list (K * list nat)) (k : K) (i : nat).

Lemma setdefault_append_filed d k i k' i' :
  filed (setdefault_append d k i) k' i' <-> filed d k' i' \/ (k' = k /\ i' = i).
Proof.
  unfold filed. induction d as [|[k0 l0] d IH]; simpl.
  - split.
    + intros (l & Hl & Hi). apply list_elem_of_singleton in Hl.
      inversion Hl; subst. apply list_elem_of_singleton in Hi. auto.
    + intros [(l & Hl & _)|[-> ->]]; [by apply elem_of_nil in Hl|].
      exists [i]. split; apply list_elem_of_singleton; done.
  - destruct (decide (k = k0)) as [->|Hne].
    + split.
      * intros (l & Hl & Hi). apply elem_of_cons in Hl as [Hl|Hl].
        -- inversion Hl; subst. apply elem_of_app in Hi as [Hi|Hi].
           ++ left. exists l0. split; [left|done].
           ++ apply list_elem_of_singleton in Hi. auto.
        -- left. exists l. split; [by right|done].
      * intros [(l & Hl & Hi)|[-> ->]].
        -- apply elem_of_cons in Hl as [Hl|Hl].
           ++ inversion Hl; subst. exists (l0 ++ [i]).
              split; [left|apply elem_of_app; auto].
           ++ exists l. split; [by right|done].
        -- exists (l0 ++ [i]). split; [left|].
           apply elem_of_app. right. by apply list_elem_of_singleton.
    + split.
      * intros (l & Hl & Hi). apply elem_of_cons in Hl as [Hl|Hl].
        -- inversion Hl; subst. left. exists l0. split; [left|done].
        -- destruct (proj1 IH) as [(l' & Hl' & Hi')|?]; [eauto| |auto].
           left. exists l'. split; [by right|done].
      * intros [(l & Hl & Hi)|Heq].
        -- apply elem_of_cons in Hl as [Hl|Hl].
           ++ inversion Hl; subst. exists l0. split; [left|done].
           ++ destruct (proj2 IH) as (l' & Hl' & Hi'); [left; eauto|].
              exists l'. split; [by right|done].
        -- destruct (proj2 IH) as (l' & Hl' & Hi'); [by right|].
           exists l'. split; [by right|done].
Qed.

Lemma setdefault_append_keys d k i :
  ((setdefault_append d k i).*1 = d.*1) \/
  ((k ∉ d.*1) /\ ((setdefault_append d k i).*1 = d.*1 ++ [k])).
Proof.
  induction d as [|[k0 l0] d IH]; csimpl.
  - right. split; [apply not_elem_of_nil|done].
  - destruct (decide (k = k0)) as [->|Hne]; csimpl; [by left|].
    destruct IH as [->|[Hk ->]]; [by left|right].
    split; [|done]. intros [?|?]%elem_of_cons; done.
Qed.

Lemma setdefault_append_NoDup d k i :
  NoDup d.*1 -> NoDup (setdefault_append d k i).*1.
Proof.
  intros Hd. destruct (setdefault_append_keys d k i) as [->|[Hk ->]]; [done|].
  apply NoDup_app. split_and!; [done| |apply NoDup_singleton].
  intros x Hx ->%list_elem_of_singleton. done.
Qed.

Lemma setdefault_append_nonempty d k i :
  Forall (fun kl => kl.2 ≠ []) d ->
  Forall (fun kl => kl.2 ≠ []) (setdefault_append d k i).
Proof.
  induction 1 as [|[k0 l0] d Hx Hd IH]; simpl.
  - by repeat constructor.
  - destruct (decide (k = k0)); constructor; simpl in *; auto.
    by destruct l0.
Qed.

Lemma group_from_spec keys : forall n d,
  NoDup d.*1 -> Forall (fun kl => kl.2 ≠ []) d ->
  NoDup (group_from n keys d).*1 /\
  Forall (fun kl => kl.2 ≠ []) (group_from n keys d) /\
  forall k i, filed (group_from n keys d) k i <->
    filed d k i \/ exists j, keys !! j = Some k /\ i = (n + j)%nat.
Proof.
  induction keys as [|k0 keys IH]; intros n d Hnd Hne; simpl.
  - split_and!; [done..|]. intros k i. split; [auto|].
    intros [?|(j & Hj & _)]; [done|]. by rewrite lookup_nil in Hj.
  - destruct (IH (S n) (setdefault_append d k0 n)) as (H1 & H2 & H3);
      [by apply setdefault_append_NoDup|by apply setdefault_append_nonempty|].
    split_and!; [done..|]. intros k i. rewrite H3, setdefault_append_filed.
    split.
    + intros [[?|[-> ->]]|(j & Hj & ->)]; [by left| |].
      * right. exists 0%nat. split; [done|lia].
      * right. exists (S j). split; [done|lia].
    + intros [?|(j & Hj & ->)]; [by left; left|].
      destruct j as [|j]; simpl in Hj.
      * inversion Hj; subst. left. right. split; [done|lia].
      * right. exists j. split; [done|lia].
Qed.

End Grouping.

(** ** The two index dicts of [route_by_clusters] *)

Section Indices.
Context (records : list FaceRec) (labels : list Z).

Lemma face_at_zip i r l :
  zip records labels !! i = Some (r, l) <-> face_at records labels i r l.
Proof.
  unfold face_at. revert labels i.
  induction records as [|r0 rs IH]; intros [|l0 ls] [|i]; simpl;
    try (split; [done|intros [? ?]; done]).
  - split; [by inversion 1|]. intros [? ?]; congruence.
  - apply IH.
Qed.

Lemma build_indices_fold (zs : list (FaceRec * Z)) : forall n ci ii,
  fold_left
    (fun acc item =>
       let '(cluster_indices, image_indices) := acc in
       let '(idx, (rec, lab)) := item in
       (setdefault_append cluster_indices lab idx,
        setdefault_append image_indices (img_path rec) idx))
    (zip (seq n (length zs)) zs) (ci, ii)
  = (group_from n zs.*2 ci, group_from n (img_path <$> zs.*1) ii).
Proof.
  induction zs as [|[r l] zs IH]; intros n ci ii; simpl; [done|].
  apply IH.
Qed.

Lemma build_indices_eq :
  build_indices records labels =
    (group_from 0 (zip records labels).*2 [],
     group_from 0 (img_path <$> (zip records labels).*1) []).
Proof. apply build_indices_fold. Qed.

Lemma cluster_indices_spec :
  let ci := (build_indices records labels).1 in
  NoDup ci.*1 /\
  forall lab i, filed ci lab i <-> exists r, face_at records labels i r lab.
Proof.
  rewrite build_indices_eq. simpl.
  destruct (group_from_spec (zip records labels).*2 0 [])
    as (H1 & _ & H3); [constructor..|].
  split; [done|]. intros lab i. rewrite H3. split.
  - intros [(l & Hl & _)|(j & Hj & ->)]; [by apply elem_of_nil in Hl|].
    rewrite list_lookup_fmap in Hj.
    destruct (zip records labels !! j) as [[r l]|] eqn:Hz; [|done].
    simpl in Hj. inversion Hj; subst. exists r. by apply face_at_zip.
  - intros (r & Hf). right. exists i. split; [|done].
    apply face_at_zip in Hf. by rewrite list_lookup_fmap, Hf.
Qed.

Lemma image_indices_spec :
  let ii := (build_indices records labels).2 in
  NoDup ii.*1 /\
  Forall (fun kl => kl.2 ≠ []) ii /\
  forall src i, filed ii src i <->
    exists r l, face_at records labels i r l /\ img_path r = src.
Proof.
  rewrite build_indices_eq. simpl.
  destruct (group_from_spec (img_path <$> (zip records labels).*1) 0 [])
    as (H1 & H2 & H3); [constructor..|].
  split_and!; [done..|]. intros src i. rewrite H3. split.
  - intros [(l & Hl & _)|(j & Hj & ->)]; [by apply elem_of_nil in Hl|].
    rewrite !list_lookup_fmap in Hj.
    destruct (zip records labels !! j) as [[r l]|] eqn:Hz; [|done].
    simpl in Hj. inversion Hj; subst. exists r, l.
    split; [by apply face_at_zip|done].
  - intros (r & l & Hf & <-). right. exists i. split; [|done].
    apply face_at_zip in Hf. by rewrite !list_lookup_fmap, Hf.
Qed.

(** In a dict, a key has one value. *)
Lemma dict_value_unique {K V} (d : list (K * V)) k v1 v2 :
  NoDup d.*1 -> (k, v1) ∈ d -> (k, v2) ∈ d -> v1 = v2.
Proof.
  induction d as [|[k0 v0] d IH]; csimpl; intros Hnd H1 H2.
  - by apply elem_of_nil in H1.
  - apply NoDup_cons in Hnd as [Hk Hnd].
    apply elem_of_cons in H1 as [H1|H1]; apply elem_of_cons in H2 as [H2|H2].
    + congruence.
    + inversion H1; subst. destruct Hk.
      apply list_elem_of_fmap. by exists (k0, v2).
    + inversion H2; subst. destruct Hk.
      apply list_elem_of_fmap. by exists (k0, v1).
    + by apply IH.
Qed.

Lemma image_item_spec src idxs :
  (src, idxs) ∈ (build_indices records labels).2 ->
  idxs ≠ [] /\
  forall i, i ∈ idxs <-> exists r l, face_at records labels i r l /\ img_path r = src.
Proof.
  intros Hin. destruct image_indices_spec as (Hnd & Hne & Hspec).
  split.
  - rewrite Forall_forall in Hne. apply (Hne _ Hin).
  - intros i. rewrite <- Hspec. split.
    + intros Hi. by exists idxs.
    + intros (l & Hl & Hi).
      by rewrite (dict_value_unique _ _ _ _ Hnd Hin Hl).
Qed.

Lemma cluster_item_spec lab idxs :
  (lab, idxs) ∈ (build_indices records labels).1 ->
  forall i, i ∈ idxs <-> exists r, face_at records labels i r lab.
Proof.
  intros Hin. destruct cluster_indices_spec as (Hnd & Hspec).
  intros i. rewrite <- Hspec. split.
  - intros Hi. by exists idxs.
  - intros (l & Hl & Hi).
    by rewrite (dict_value_unique _ _ _ _ Hnd Hin Hl).
Qed.

End Indices.

(** ** Eligibility *)

Section Eligibility.
Context (records : list FaceRec) (labels : list Z) (group_thr : Z).

Lemma any_personal_spec idxs :
  Forall (fun i => is_Some (records !! i)) idxs ->
  exists b, any_personal records group_thr idxs = Ok b /\
    (b = true <->
     exists i r, i ∈ idxs /\ records !! i = Some r /\
                 faces_in_image r <= group_thr).
Proof.
  induction 1 as [|i idxs [r Hr] Hall (b & Hb & IH)]; simpl.
  - exists false. split; [done|]. split; [done|].
    intros (i & r & Hi & _). by apply elem_of_nil in Hi.
  - unfold list_get. rewrite Hr. case_bool_decide as Hle.
    + exists true. split; [done|]. split; [|done]. intros _.
      exists i, r. split; [left|done].
    + exists b. split; [done|]. rewrite IH. split.
      * intros (j & r' & Hj & Hr' & Hle'). exists j, r'.
        split; [by right|done].
      * intros (j & r' & Hj & Hr' & Hle').
        apply elem_of_cons in Hj as [->|Hj]; [|eauto].
        rewrite Hr in Hr'. inversion Hr'; subst. done.
Qed.

Lemma eligible_loop_spec items : forall acc,
  (forall lab idxs, (lab, idxs) ∈ items ->
     Forall (fun i => is_Some (records !! i)) idxs) ->
  exists E, eligible_loop records group_thr items acc = Ok E /\
    forall lab, lab ∈ E <->
      lab ∈ acc \/
      (lab ≠ noise /\
       exists idxs i r, (lab, idxs) ∈ items /\ i ∈ idxs /\
         records !! i = Some r /\ faces_in_image r <= group_thr).
Proof.
  induction items as [|[lab0 idxs0] items IH]; intros acc Hv; simpl.
  - exists acc. split; [done|]. intros lab. split; [auto|].
    intros [?|(_ & idxs & i & r & Hin & _)]; [done|].
    by apply elem_of_nil in Hin.
  - assert (Hv' : forall lab idxs, (lab, idxs) ∈ items ->
       Forall (fun i => is_Some (records !! i)) idxs).
    { intros lab idxs Hin. apply (Hv lab). by right. }
    destruct (decide (lab0 = noise)) as [Hn|Hn].
    + destruct (IH acc Hv') as (E & HE & Hspec). exists E. split; [done|].
      intros lab. rewrite Hspec. split.
      * intros [?|(? & idxs & i & r & Hin & ?)]; [by left|right].
        split; [done|]. exists idxs, i, r. split; [by right|done].
      * intros [?|(Hl & idxs & i & r & Hin & ?)]; [by left|right].
        split; [done|]. exists idxs, i, r. split; [|done].
        apply elem_of_cons in Hin as [Hin|Hin]; [|done].
        inversion Hin; subst. done.
    + destruct (any_personal_spec idxs0) as (b & Hb & Hbspec).
      { apply (Hv lab0). left. }
      rewrite Hb. destruct b.
      * destruct (IH ({[lab0]} ∪ acc) Hv') as (E & HE & Hspec).
        exists E. split; [done|]. intros lab. rewrite Hspec.
        destruct (proj1 Hbspec eq_refl) as (i0 & r0 & Hi0 & Hr0 & Hle0).
        split.
        -- intros [[->%elem_of_singleton|?]%elem_of_union
                  |(? & idxs & i & r & Hin & ?)].
           ++ right. split; [done|]. exists idxs0, i0, r0.
              split; [left|done].
           ++ by left.
           ++ right. split; [done|]. exists idxs, i, r.
              split; [by right|done].
        -- intros [?|(Hl & idxs & i & r & Hin & ?)].
           ++ left. apply elem_of_union. by right.
           ++ apply elem_of_cons in Hin as [Hin|Hin].
              ** inversion Hin; subst. left. apply elem_of_union. left.
                 by apply elem_of_singleton.
              ** right. split; [done|]. by exists idxs, i, r.
      * destruct (IH acc Hv') as (E & HE & Hspec).
        exists E. split; [done|]. intros lab. rewrite Hspec. split.
        -- intros [?|(? & idxs & i & r & Hin & ?)]; [by left|right].
           split; [done|]. exists idxs, i, r. split; [by right|done].
        -- intros [?|(Hl & idxs & i & r & Hin & Hi & Hr & Hle)]; [by left|].
           apply elem_of_cons in Hin as [Hin|Hin].
           ++ inversion Hin; subst.
              assert (false = true); [|done].
              apply Hbspec. by exists i, r.
           ++ right. split; [done|]. by exists idxs, i, r.
Qed.

Lemma cluster_indices_valid lab idxs :
  (lab, idxs) ∈ (build_indices records labels).1 ->
  Forall (fun i => is_Some (records !! i)) idxs.
Proof.
  intros Hin. apply Forall_forall. intros i Hi.
  apply (cluster_item_spec _ _ _ _ Hin) in Hi as (r & Hr & _). by exists r.
Qed.

Lemma eligible_clusters_of_spec :
  exists E, eligible_clusters_of records labels group_thr = Ok E /\
    forall lab, lab ∈ E <->
      lab ≠ noise /\
      exists i r, face_at records labels i r lab /\
                  faces_in_image r <= group_thr.
Proof.
  unfold eligible_clusters_of.
  destruct (eligible_loop_spec (build_indices records labels).1 ∅)
    as (E & HE & Hspec); [apply cluster_indices_valid|].
  exists E. split; [done|]. intros lab. rewrite Hspec. split.
  - intros [Hin|(Hn & idxs & i & r & Hin & Hi & Hr & Hle)];
      [by apply not_elem_of_empty in Hin|].
    split; [done|]. exists i, r. split; [|done].
    apply (cluster_item_spec _ _ _ _ Hin) in Hi as (r' & Hf).
    destruct Hf as [Hr' Hl]. split; congruence.
  - intros (Hn & i & r & Hf & Hle). right. split; [done|].
    destruct (cluster_indices_spec records labels) as [_ Hfiled].
    destruct (proj2 (Hfiled lab i)) as (idxs & Hin & Hi); [by exists r|].
    exists idxs, i, r. destruct Hf. done.
Qed.

Lemma foldr_min_le x xs t :
  foldr Z.min x xs <= t <-> exists y, y ∈ x :: xs /\ y <= t.
Proof.
  induction xs as [|z xs IH]; simpl.
  - split.
    + intros ?. exists x. split; [left|done].
    + intros (y & ->%list_elem_of_singleton & ?). done.
  - split.
    + intros Hmin. destruct (Z.min_spec z (foldr Z.min x xs)) as [[_ Heq]|[_ Heq]].
      * exists z. split; [right; left|lia].
      * destruct (proj1 IH) as (y & Hy & Hle); [lia|].
        exists y. split; [|done].
        apply elem_of_cons in Hy as [->|Hy]; [left|right; by right].
    + intros (y & Hy & Hle).
      apply elem_of_cons in Hy as [->|[->|Hy]%elem_of_cons].
      * assert (foldr Z.min x xs <= t); [|lia].
        apply IH. exists x. split; [left|done].
      * lia.
      * assert (foldr Z.min x xs <= t); [|lia].
        apply IH. exists y. split; [by right|done].
Qed.

Lemma member_faces_elem lab y :
  y ∈ member_faces records labels lab <->
  exists i r, face_at records labels i r lab /\ faces_in_image r = y.
Proof.
  unfold member_faces. rewrite list_elem_of_fmap. split.
  - intros ([r l] & -> & Hin). apply list_elem_of_filter in Hin as [Hl Hin].
    simpl in *. subst l. apply list_elem_of_lookup in Hin as [i Hi].
    exists i, r. split; [by apply face_at_zip|done].
  - intros (i & r & Hf & <-). exists (r, lab). split; [done|].
    apply list_elem_of_filter. split; [done|].
    apply list_elem_of_lookup. exists i. by apply face_at_zip.
Qed.

End Eligibility.

(** ** Naming *)

Lemma decimal_value_zero s :
  decimal_value (String "0"%char s) = decimal_value s.
Proof.
  unfold decimal_value. simpl.
  destruct (NilEmpty.uint_of_string s); reflexivity.
Qed.

Lemma decimal_value_zfill w s : decimal_value (zfill w s) = decimal_value s.
Proof.
  unfold zfill. induction (w - String.length s)%nat as [|k IH]; simpl; [done|].
  by rewrite decimal_value_zero.
Qed.

Lemma decimal_value_format i : decimal_value (format_03d i) = Some i.
Proof.
  unfold format_03d. rewrite decimal_value_zfill. unfold decimal_value.
  rewrite NilEmpty.usu. simpl. f_equal. apply DecimalNat.Unsigned.of_to.
Qed.

Lemma string_app_inv_head (s a b : string) : s +:+ a = s +:+ b -> a = b.
Proof. induction s as [|c s IH]; simpl; [done|]. intros [= H]. auto. Qed.

Lemma person_name_inj i j : person_name i = person_name j -> i = j.
Proof.
  unfold person_name. intros H%string_app_inv_head.
  assert (Some i = Some j) as Hs; [|by inversion Hs].
  by rewrite <- !decimal_value_format, H.
Qed.

Lemma person_name_first i : exists s, person_name i = String "p"%char s.
Proof. unfold person_name. simpl. eauto. Qed.

Lemma person_name_not_shared i :
  person_name i ≠ "__unknown__" /\ person_name i ≠ "__group_only__" /\
  person_name i ≠ "" /\ person_name i ≠ "clustering_report.csv".
Proof. destruct (person_name_first i) as [s ->]. done. Qed.

Lemma enumerate_from_lookup {A} (l : list A) : forall n i,
  zip (seq n (length l)) l !! i = (fun x => ((n + i)%nat, x)) <$> l !! i.
Proof.
  induction l as [|x l IH]; intros n i; simpl; [done|].
  destruct i as [|i]; simpl.
  - by rewrite Nat.add_0_r.
  - rewrite IH. destruct (l !! i); simpl; [|done]. do 2 f_equal. lia.
Qed.

Lemma cluster_to_name_lookup (l : list Z) i :
  cluster_to_name_of l !! i = (fun cl => (cl, person_name i)) <$> l !! i.
Proof.
  unfold cluster_to_name_of, enumerate.
  rewrite list_lookup_fmap, enumerate_from_lookup.
  by destruct (l !! i).
Qed.

Lemma cluster_to_name_keys (l : list Z) : (cluster_to_name_of l).*1 = l.
Proof.
  apply list_eq. intros i.
  rewrite list_lookup_fmap, cluster_to_name_lookup. by destruct (l !! i).
Qed.

Lemma cluster_to_name_values (l : list Z) person :
  person ∈ (cluster_to_name_of l).*2 -> exists i, person = person_name i.
Proof.
  intros Hin. apply list_elem_of_lookup in Hin as [i Hi].
  rewrite list_lookup_fmap, cluster_to_name_lookup in Hi.
  destruct (l !! i); [|done]. simpl in Hi. inversion Hi. eauto.
Qed.

Lemma dict_lookup_Some {K V} `{EqDecision K} (d : list (K * V)) k v :
  dict_lookup d k = Some v -> (k, v) ∈ d.
Proof.
  induction d as [|[k0 v0] d IH]; simpl; [done|].
  destruct (decide (k = k0)) as [->|Hne].
  - intros [= ->]. left.
  - intros H. right. auto.
Qed.

Lemma dict_lookup_elem {K V} `{EqDecision K} (d : list (K * V)) k v :
  NoDup d.*1 -> (k, v) ∈ d -> dict_lookup d k = Some v.
Proof.
  induction d as [|[k0 v0] d IH]; csimpl; intros Hnd Hin.
  - by apply elem_of_nil in Hin.
  - apply NoDup_cons in Hnd as [Hk Hnd].
    apply elem_of_cons in Hin as [Hin|Hin].
    + inversion Hin; subst. by rewrite decide_True.
    + rewrite decide_False; [by apply IH|].
      intros ->. apply Hk. apply list_elem_of_fmap. by exists (k0, v).
Qed.

Lemma dict_lookup_is_Some {K V} `{EqDecision K} (d : list (K * V)) k :
  k ∈ d.*1 -> is_Some (dict_lookup d k).
Proof.
  induction d as [|[k0 v0] d IH]; csimpl; intros Hin.
  - by apply elem_of_nil in Hin.
  - destruct (decide (k = k0)); [by eexists|].
    apply IH. apply elem_of_cons in Hin as [?|?]; done.
Qed.

Section Sorting.
Context (order : SetOrder).

Lemma eligible_sorted_perm (E : gset Z) :
  eligible_sorted_of order E ≡ₚ elements E.
Proof.
  unfold eligible_sorted_of.
  by rewrite merge_sort_Permutation, iter_labels_perm.
Qed.

Lemma eligible_sorted_elem (E : gset Z) cl :
  cl ∈ eligible_sorted_of order E <-> cl ∈ E.
Proof. by rewrite eligible_sorted_perm, elem_of_elements. Qed.

Lemma eligible_sorted_NoDup (E : gset Z) : NoDup (eligible_sorted_of order E).
Proof. rewrite eligible_sorted_perm. apply NoDup_elements. Qed.

Lemma eligible_sorted_Sorted (E : gset Z) :
  Sorted Z.le (eligible_sorted_of order E).
Proof. apply (Sorted_merge_sort Z.le). Qed.

Lemma StronglySorted_le_lt (l : list Z) :
  StronglySorted Z.le l -> NoDup l -> StronglySorted Z.lt l.
Proof.
  induction 1 as [|x l Hs IH Hall]; intros Hnd; constructor.
  - apply IH. by apply NoDup_cons in Hnd as [_ ?].
  - apply NoDup_cons in Hnd as [Hx _].
    rewrite Forall_forall in Hall |- *. intros y Hy.
    specialize (Hall y Hy).
    assert (x ≠ y) by (intros ->; done). lia.
Qed.

Lemma eligible_sorted_ascending (E : gset Z) :
  StronglySorted Z.lt (eligible_sorted_of order E).
Proof.
  apply StronglySorted_le_lt; [|apply eligible_sorted_NoDup].
  apply Sorted_StronglySorted; [apply _|apply eligible_sorted_Sorted].
Qed.

End Sorting.

Lemma eligible_sorted_order_irrelevant (o1 o2 : SetOrder) (E : gset Z) :
  eligible_sorted_of o1 E = eligible_sorted_of o2 E.
Proof.
  apply (Sorted_unique Z.le); try apply eligible_sorted_Sorted.
  by rewrite !eligible_sorted_perm.
Qed.

Lemma cluster_to_name_NoDup order (E : gset Z) :
  NoDup (cluster_to_name_of (eligible_sorted_of order E)).*1.
Proof. rewrite cluster_to_name_keys. apply eligible_sorted_NoDup. Qed.

Lemma cluster_to_name_get order (E : gset Z) lab :
  lab ∈ E ->
  exists i, eligible_sorted_of order E !! i = Some lab /\
    dict_lookup (cluster_to_name_of (eligible_sorted_of order E)) lab
      = Some (person_name i).
Proof.
  intros Hin. apply (eligible_sorted_elem order) in Hin.
  apply list_elem_of_lookup in Hin as [i Hi]. exists i. split; [done|].
  apply dict_lookup_elem; [apply cluster_to_name_NoDup|].
  apply list_elem_of_lookup. exists i.
  by rewrite cluster_to_name_lookup, Hi.
Qed.

(** ** Separating the routing decisions from the file system

    The local variables of [route_by_clusters] never depend on the file
    system: the decisions can be computed first, as the list of guarded
    copies the call will attempt (the plan), and replayed afterwards. *)

Ltac munfold := unfold bind, lift, ret, raise in *.

Lemma bind_assoc {A B C} (m : M A) (f : A -> M B) (g : B -> M C) fs :
  bind (bind m f) g fs = bind m (fun a => bind (f a) g) fs.
Proof. unfold bind. destruct (m fs) as [[a|e] fs']; done. Qed.

Lemma bind_lift_Ok {A B} (a : A) (k : A -> M B) fs :
  bind (lift (Ok a)) k fs = k a fs.
Proof. done. Qed.

Lemma bind_ret {A B} (a : A) (k : A -> M B) fs : bind (ret a) k fs = k a fs.
Proof. done. Qed.

Lemma bind_lift_Ok' {A B} (r : res A) (a : A) (k : A -> M B) fs :
  r = Ok a -> bind (lift r) k fs = k a fs.
Proof. by intros ->. Qed.

Lemma exec_app p1 p2 fs : exec (p1 ++ p2) fs = (exec p1 ;; exec p2) fs.
Proof.
  revert fs. unfold exec.
  induction p1 as [|e p1 IH]; intros fs; simpl; [done|].
  unfold bind in *.
  destruct (copy_unless_file e.1 e.2 fs) as [[[]|err] fs']; [|done].
  apply IH.
Qed.

Lemma exec_nil fs : exec [] fs = (Ok tt, fs).
Proof. done. Qed.

Lemma for_each_exec (f : path -> path) (l : list path) fs :
  for_each (fun src => copy_unless_file src (f src)) l fs
  = exec ((fun src => (src, f src)) <$> l) fs.
Proof.
  revert fs. induction l as [|x l IH]; intros fs; simpl; [done|].
  unfold exec. simpl. unfold bind.
  destruct (copy_unless_file x (f x) fs) as [[[]|err] fs']; [|done].
  apply IH.
Qed.

Lemma plan_fold_sound {A} step (body : A -> RouteState -> M RouteState) xs :
  (forall x st p st' fs, step x st = Ok (p, st') ->
     body x st fs = (exec p ;; ret st') fs) ->
  forall st p st' fs, plan_fold step xs st = Ok (p, st') ->
    for_fold body xs st fs = (exec p ;; ret st') fs.
Proof.
  intros Hstep. induction xs as [|x xs IH]; intros st p st' fs; simpl.
  - intros [= <- <-]. done.
  - destruct (step x st) as [[p1 st1]|e] eqn:Hx; [|done].
    destruct (plan_fold step xs st1) as [[p2 st2]|e] eqn:Hxs; [|done].
    intros [= <- <-].
    pose proof (Hstep _ _ _ _ fs Hx) as Hb.
    pose proof (exec_app p1 p2 fs) as Ha.
    unfold bind, ret in *. rewrite Hb, Ha.
    destruct (exec p1 fs) as [[[]|err] fs1]; [|done].
    apply (IH _ _ _ _ Hxs).
Qed.

Lemma plan_fold_inv {A} (P : list A -> list (path * path) -> RouteState -> Prop)
    step xs st0 :
  P [] [] st0 ->
  (forall pre x post p st p1 st1, xs = pre ++ x :: post ->
     P pre p st -> step x st = Ok (p1, st1) -> P (pre ++ [x]) (p ++ p1) st1) ->
  forall p st, plan_fold step xs st0 = Ok (p, st) -> P xs p st.
Proof.
  intros H0 Hstep.
  assert (forall post pre p0 st0' p st, xs = pre ++ post -> P pre p0 st0' ->
            plan_fold step post st0' = Ok (p, st) -> P xs (p0 ++ p) st) as H.
  { induction post as [|x post IH]; intros pre p0 st0' p st Hxs HP; simpl.
    - intros [= <- <-]. rewrite !app_nil_r in *. by subst.
    - destruct (step x st0') as [[p1 st1]|e] eqn:Hx; [|done].
      destruct (plan_fold step post st1) as [[p2 st2]|e] eqn:Hpost; [|done].
      intros [= <- <-]. rewrite app_assoc.
      apply (IH (pre ++ [x]) (p0 ++ p1) st1);
        [by rewrite <- app_assoc| |done].
      by apply (Hstep pre x post _ st0'). }
  intros p st Hf. by apply (H xs [] [] st0).
Qed.

Lemma plan_fold_total {A} step (xs : list A) :
  (forall x st, x ∈ xs -> exists r, step x st = Ok r) ->
  forall st, exists r, plan_fold step xs st = Ok r.
Proof.
  induction xs as [|x xs IH]; intros Hstep st; simpl; [eauto|].
  destruct (Hstep x st) as [[p1 st1] ->]; [left|].
  destruct (IH (fun y st' Hy => Hstep y st' (list_elem_of_further _ _ _ Hy)) st1)
    as [[p2 st2] ->].
  eauto.
Qed.

Section Decisions.
Context (order : SetOrder).
Context (records : list FaceRec) (labels : list Z).
Context (out_dir : path) (group_thr : Z).

Lemma person_step_sound c2n src idxs lab st p st' fs :
  person_step records labels out_dir c2n src idxs lab st = Ok (p, st') ->
  route_person records labels out_dir c2n src idxs lab st fs
  = (exec p ;; ret st') fs.
Proof.
  unfold person_step, route_person.
  destruct (dict_get c2n lab) as [person|e]; [|done].
  destruct (log_faces _ _ _ _ _ _ _ _) as [log'|e] eqn:Hlog; [|done].
  rewrite bind_lift_Ok.
  destruct (decide _) as [Hin|Hin]; intros [= <- <-].
  - munfold. simpl. by rewrite Hlog.
  - munfold. unfold exec. simpl. munfold.
    destruct (copy_unless_file _ _ fs) as [[[]|err] fs']; [|done].
    by rewrite Hlog.
Qed.

Lemma image_step_sound E c2n item st p st' fs :
  image_step order records labels out_dir E c2n item st = Ok (p, st') ->
  route_image order records labels out_dir E c2n item st fs
  = (exec p ;; ret st') fs.
Proof.
  unfold image_step, route_image. destruct item as [src idxs].
  destruct (labels_at labels idxs) as [labs|e]; [|done].
  rewrite bind_lift_Ok. cbv zeta.
  destruct (plan_fold _ _ _) as [[p1 st1]|e] eqn:Hfold; [|done].
  pose proof (plan_fold_sound _ _ _
             (fun x st p st' fs => person_step_sound c2n src idxs x st p st' fs)
             _ _ _ fs Hfold) as Hinner.
  unfold bind at 1. rewrite Hinner.
  destruct (decide (filter _ labs ≠ ∅)) as [Hne|Hne].
  - destruct (log_faces _ _ _ "__group_only__" _ _ _ _) as [log1|e] eqn:Hl1;
      [|done].
    case_bool_decide.
    + intros [= <- <-]. munfold.
      destruct (exec p1 fs) as [[[]|err] fs1]; [|done]. by rewrite Hl1.
    + destruct (log_faces _ _ _ "__unknown__" _ _ _ _) as [log2|e] eqn:Hl2;
        [|done].
      intros [= <- <-]. munfold.
      destruct (exec p1 fs) as [[[]|err] fs1]; [|done].
      rewrite Hl1. simpl in *. by rewrite Hl2.
  - case_bool_decide.
    + intros [= <- <-]. munfold.
      by destruct (exec p1 fs) as [[[]|err] fs1].
    + destruct (log_faces _ _ _ "__unknown__" _ _ _ _) as [log2|e] eqn:Hl2;
        [|done].
      intros [= <- <-]. munfold.
      destruct (exec p1 fs) as [[[]|err] fs1]; [|done].
      by rewrite Hl2.
Qed.

End Decisions.

(** ** What the decisions are *)

Section DecisionSpec.
Context (order : SetOrder).
Context (records : list FaceRec) (labels : list Z).
Context (out_dir : path) (group_thr : Z).

Lemma labels_at_spec idxs :
  valid_idxs records labels idxs ->
  exists labs, labels_at labels idxs = Ok labs /\
    forall lab, lab ∈ labs <-> exists i, i ∈ idxs /\ labels !! i = Some lab.
Proof.
  induction 1 as [|i idxs [_ [l Hl]] Hall (labs & Hlabs & IH)]; simpl.
  - exists ∅. split; [done|]. intros lab. split.
    + by intros ?%not_elem_of_empty.
    + intros (i & Hi & _). by apply elem_of_nil in Hi.
  - unfold list_get. rewrite Hl, Hlabs. exists ({[l]} ∪ labs).
    split; [done|]. intros lab. rewrite elem_of_union, elem_of_singleton, IH.
    split.
    + intros [->|(j & Hj & Hlj)].
      * exists i. split; [left|done].
      * exists j. split; [by right|done].
    + intros (j & Hj & Hlj). apply elem_of_cons in Hj as [->|Hj].
      * left. congruence.
      * right. eauto.
Qed.

Lemma log_faces_total src folder reason keep idxs : forall log0,
  valid_idxs records labels idxs ->
  exists log', log_faces records labels src folder reason keep idxs log0
               = Ok log'.
Proof.
  intros log0 Hv. revert log0.
  induction Hv as [|i idxs [[r Hr] [l Hl]] Hall IH]; intros log0; simpl.
  - eauto.
  - unfold list_get. rewrite Hl, Hr. destruct (keep l); apply IH.
Qed.

Lemma image_item_valid src idxs :
  (src, idxs) ∈ (build_indices records labels).2 -> valid_idxs records labels idxs.
Proof.
  intros Hin. apply Forall_forall. intros i Hi.
  apply (image_item_spec _ _ _ _ Hin) in Hi as (r & l & [Hr Hl] & _).
  split; eauto.
Qed.

Lemma image_item_labels src idxs :
  (src, idxs) ∈ (build_indices records labels).2 ->
  exists labs, labels_at labels idxs = Ok labs /\
    (forall lab, lab ∈ labs <-> on_image records labels src lab) /\
    exists lab, lab ∈ labs.
Proof.
  intros Hin. destruct (image_item_spec _ _ _ _ Hin) as [Hne Hspec].
  destruct (labels_at_spec idxs (image_item_valid _ _ Hin))
    as (labs & Hlabs & Hl).
  exists labs. split; [done|]. split.
  - intros lab. rewrite Hl. unfold on_image. split.
    + intros (i & Hi & Hli). apply Hspec in Hi as (r & l & [Hr Hl'] & Hp).
      exists i, r. split; [|done]. split; congruence.
    + intros (i & r & [Hr Hl'] & Hp). exists i. split; [|done].
      apply Hspec. exists r, lab. done.
  - destruct idxs as [|i idxs]; [done|].
    destruct (proj1 (Hspec i)) as (r & l & [Hr Hl'] & Hp); [left|].
    exists l. apply Hl. exists i. split; [left|done].
Qed.

Lemma image_keys_spec src :
  src ∈ (build_indices records labels).2.*1 <-> exists lab, on_image records labels src lab.
Proof.
  destruct (image_indices_spec records labels) as (_ & Hne & Hspec).
  split.
  - intros ([s idxs] & -> & Hin)%list_elem_of_fmap. simpl.
    destruct (image_item_labels _ _ Hin) as (labs & _ & Hl & lab & Hlab).
    exists lab. by apply Hl.
  - intros (lab & i & r & Hf & Hp).
    destruct (proj2 (Hspec src i)) as (idxs & Hin & _); [by exists r, lab|].
    apply list_elem_of_fmap. by exists (src, idxs).
Qed.

Lemma has_any_cluster_spec (labs : gset Z) :
  (0 < size (labs ∖ {[noise]}))%nat <-> exists lab, lab ∈ labs /\ lab ≠ noise.
Proof.
  split.
  - intros Hpos. apply size_pos_elem_of in Hpos as [lab Hlab].
    exists lab. set_solver.
  - intros (lab & Hin & Hne).
    assert (size (labs ∖ {[noise]}) ≠ 0%nat); [|lia].
    apply size_non_empty_iff. set_solver.
Qed.

Context (E : gset Z) (c2n : list (Z * string)).

Lemma person_step_spec src idxs lab st p1 st1 :
  person_step records labels out_dir c2n src idxs lab st = Ok (p1, st1) ->
  exists person, dict_lookup c2n lab = Some person /\
    copied_person_image st1 = {[(person, src)]} ∪ copied_person_image st /\
    staged_group_only st1 = staged_group_only st /\
    staged_unknown st1 = staged_unknown st /\
    (((person, src) ∈ copied_person_image st /\ p1 = []) \/
     (((person, src) ∉ copied_person_image st) /\
      p1 = [(src, person_dst out_dir src person)])).
Proof.
  unfold person_step, dict_get.
  destruct (dict_lookup c2n lab) as [person|]; [|done].
  destruct (log_faces _ _ _ _ _ _ _ _) as [log'|]; [|done].
  destruct (decide _) as [Hin|Hin]; intros Heq; injection Heq as <- <-;
    exists person; simpl.
  - split_and!; [done| |done|done|by left].
    apply set_eq. intros k. rewrite elem_of_union, elem_of_singleton.
    split; [by right|]. by intros [->|?].
  - split_and!; [done|done|done|done|by right].
Qed.

Lemma person_step_total src idxs lab st :
  is_Some (dict_lookup c2n lab) -> valid_idxs records labels idxs ->
  exists r, person_step records labels out_dir c2n src idxs lab st = Ok r.
Proof.
  intros [person Hp] Hv. unfold person_step, dict_get. rewrite Hp.
  destruct (log_faces_total src person "eligible_person_image"
              (fun l => bool_decide (l = lab)) idxs (log st) Hv) as [log' ->].
  destruct (decide _); eauto.
Qed.

Lemma image_step_inv src idxs st p1 st1 :
  image_step order records labels out_dir E c2n (src, idxs) st = Ok (p1, st1) ->
  exists labs sta,
    labels_at labels idxs = Ok labs /\
    plan_fold (person_step records labels out_dir c2n src idxs)
      (iter_labels order (filter (fun lab => lab ∈ E) labs)) st
      = Ok (p1, sta) /\
    copied_person_image st1 = copied_person_image sta /\
    staged_group_only st1 =
      (if decide (filter (fun lab => (lab ∉ E) /\ (lab ≠ noise)) labs ≠ ∅)
       then {[src]} ∪ staged_group_only sta else staged_group_only sta) /\
    staged_unknown st1 =
      (if bool_decide (0 < size (labs ∖ {[noise]}))%nat
       then staged_unknown sta else {[src]} ∪ staged_unknown sta).
Proof.
  unfold image_step.
  destruct (labels_at labels idxs) as [labs|]; [|done]. cbv zeta.
  destruct (plan_fold _ _ _) as [[p sta]|] eqn:Hfold; [|done].
  intros H. exists labs, sta. split; [done|].
  destruct (decide (filter _ labs ≠ ∅)) as [Hne|Hne].
  - destruct (log_faces _ _ _ "__group_only__" _ _ _ _) as [log1|]; [|done].
    case_bool_decide.
    + injection H as <- <-. done.
    + destruct (log_faces _ _ _ "__unknown__" _ _ _ _) as [log2|]; [|done].
      injection H as <- <-. done.
  - case_bool_decide.
    + injection H as <- <-. done.
    + destruct (log_faces _ _ _ "__unknown__" _ _ _ _) as [log2|]; [|done].
      injection H as <- <-. done.
Qed.

Lemma image_step_total src idxs st :
  valid_idxs records labels idxs ->
  (forall lab, lab ∈ E -> is_Some (dict_lookup c2n lab)) ->
  exists r, image_step order records labels out_dir E c2n (src, idxs) st = Ok r.
Proof.
  intros Hv Hc2n. unfold image_step.
  destruct (labels_at_spec idxs Hv) as (labs & -> & _). cbv zeta.
  destruct (plan_fold_total (person_step records labels out_dir c2n src idxs)
              (iter_labels order (filter (fun lab => lab ∈ E) labs))) with (st := st)
    as [[p sta] ->].
  { intros lab st' Hin. apply person_step_total; [|done].
    apply Hc2n. rewrite iter_labels_perm in Hin.
    apply elem_of_elements, elem_of_filter in Hin as [? _]. done. }
  destruct (decide (filter _ labs ≠ ∅)) as [Hne|Hne].
  - destruct (log_faces_total src "__group_only__" "group_only_person_on_image"
      (fun l => bool_decide
         (l ∈ (filter (fun lab => (lab ∉ E) /\ (lab ≠ noise)) labs : gset Z)))
      idxs (log sta) Hv) as [log1 ->].
    case_bool_decide; [eauto|].
    destruct (log_faces_total src "__unknown__" "noise_only_image"
      (fun l => bool_decide (l = noise)) idxs log1 Hv) as [log2 Hl2].
    simpl. rewrite Hl2. eauto.
  - case_bool_decide; [eauto|].
    destruct (log_faces_total src "__unknown__" "noise_only_image"
      (fun l => bool_decide (l = noise)) idxs (log sta) Hv) as [log2 ->].
    eauto.
Qed.

End DecisionSpec.

(** ** Destination paths *)

Lemma string_app_nonempty_r (s1 s2 : string) : s2 ≠ "" -> s1 +:+ s2 ≠ "".
Proof. destruct s1; simpl; [done|]. intros _. discriminate. Qed.

Lemma person_dst_name_nonempty src person : person_dst_name src person ≠ "".
Proof. unfold person_dst_name. apply string_app_nonempty_r. discriminate. Qed.

Lemma joinpath_nonempty (p : path) (s : string) :
  s ≠ "" -> joinpath p s = p ++ [s].
Proof. intros Hs. unfold joinpath. by rewrite decide_False. Qed.

Lemma person_dst_eq out_dir src person :
  person ≠ "" ->
  person_dst out_dir src person
  = out_dir ++ [person; person_dst_name src person].
Proof.
  intros Hp. unfold person_dst.
  rewrite !joinpath_nonempty; [|done|apply person_dst_name_nonempty].
  by rewrite <- app_assoc.
Qed.

Lemma person_dst_inj out_dir s1 s2 person1 person2 :
  person1 ≠ "" -> person2 ≠ "" ->
  person_dst out_dir s1 person1 = person_dst out_dir s2 person2 ->
  person1 = person2.
Proof.
  intros H1 H2. rewrite !person_dst_eq by done.
  intros Heq%app_inv_head. by inversion Heq.
Qed.

Section PlanInvariant.
Context (order : SetOrder).
Context (records : list FaceRec) (labels : list Z).
Context (out_dir : path).
Context (E : gset Z) (c2n : list (Z * string)).
Context (Hnames : forall lab person, dict_lookup c2n lab = Some person ->
                    exists i, person = person_name i).

Lemma name_of_person lab person :
  dict_lookup c2n lab = Some person -> person ≠ "".
Proof.
  intros [i ->]%Hnames. by destruct (person_name_not_shared i) as (_ & _ & ? & _).
Qed.

Lemma person_step_pres src idxs lab p st p1 st1 :
  plan_inv records labels out_dir E c2n p st -> on_image records labels src lab -> lab ∈ E ->
  person_step records labels out_dir c2n src idxs lab st = Ok (p1, st1) ->
  plan_inv records labels out_dir E c2n (p ++ p1) st1 /\
  (exists person, dict_lookup c2n lab = Some person /\
                  (person, src) ∈ copied_person_image st1) /\
  copied_person_image st ⊆ copied_person_image st1 /\
  staged_group_only st1 = staged_group_only st /\
  staged_unknown st1 = staged_unknown st.
Proof.
  intros (Hnd & Hfw & Hbw) Hon HE Hstep.
  apply person_step_spec in Hstep
    as (person & Hlk & Hcop & Hg & Hu & Hcase).
  split; [|split_and!; [|rewrite Hcop; set_solver|done|done]].
  2:{ exists person. split; [done|]. rewrite Hcop. set_solver. }
  destruct Hcase as [[Hin ->]|[Hnin ->]].
  - rewrite app_nil_r. assert (copied_person_image st1 = copied_person_image st)
      as Heq by (rewrite Hcop; set_solver).
    unfold plan_inv. rewrite Heq. done.
  - split_and!.
    + apply NoDup_app. split_and!; [done| |apply NoDup_singleton].
      intros [s d] Hsd Heq%list_elem_of_singleton.
      inversion Heq; subst.
      destruct (Hfw _ _ Hsd) as (person' & Hin' & Hd).
      destruct (Hbw _ _ Hin') as (_ & lab' & _ & _ & Hlk').
      apply person_dst_inj in Hd; [|by eapply name_of_person..].
      by subst.
    + intros s d [Hsd|Hsd]%elem_of_app.
      * destruct (Hfw _ _ Hsd) as (person' & Hin' & Hd).
        exists person'. split; [|done]. rewrite Hcop. set_solver.
      * apply list_elem_of_singleton in Hsd. inversion Hsd; subst.
        exists person. split; [|done]. rewrite Hcop. set_solver.
    + intros person' s. rewrite Hcop, elem_of_union, elem_of_singleton.
      intros [Heq|Hin'].
      * inversion Heq; subst. split.
        -- apply elem_of_app. right. by apply list_elem_of_singleton.
        -- by exists lab.
      * destruct (Hbw _ _ Hin') as [Hp Hl]. split; [|done].
        apply elem_of_app. by left.
Qed.

Lemma persons_fold_pres src idxs (L : list Z) p st p1 st1 :
  plan_inv records labels out_dir E c2n p st ->
  (forall lab, lab ∈ L -> on_image records labels src lab /\ lab ∈ E) ->
  plan_fold (person_step records labels out_dir c2n src idxs) L st
    = Ok (p1, st1) ->
  plan_inv records labels out_dir E c2n (p ++ p1) st1 /\
  (forall lab, lab ∈ L ->
     exists person, dict_lookup c2n lab = Some person /\
                    (person, src) ∈ copied_person_image st1) /\
  copied_person_image st ⊆ copied_person_image st1 /\
  staged_group_only st1 = staged_group_only st /\
  staged_unknown st1 = staged_unknown st.
Proof.
  intros Hinv HL Hfold.
  apply (plan_fold_inv
    (fun pre q st' =>
       plan_inv records labels out_dir E c2n (p ++ q) st' /\
       (forall lab, lab ∈ pre ->
          exists person, dict_lookup c2n lab = Some person /\
                         (person, src) ∈ copied_person_image st') /\
       copied_person_image st ⊆ copied_person_image st' /\
       staged_group_only st' = staged_group_only st /\
       staged_unknown st' = staged_unknown st)
    _ _ _) in Hfold; [done| |].
  - rewrite app_nil_r. split_and!; [done| |done..].
    intros lab Hl. by apply elem_of_nil in Hl.
  - intros pre lab post q st' q1 st1' HLeq (Hi & Hdone & Hsub & Hg & Hu) Hstep.
    destruct (HL lab) as [Hon HE]; [rewrite HLeq; set_solver|].
    destruct (person_step_pres _ _ _ _ _ _ _ Hi Hon HE Hstep)
      as (Hi' & Hnew & Hsub' & Hg' & Hu').
    rewrite app_assoc. split_and!; [done| |set_solver|congruence..].
    intros lab' [Hl| ->%list_elem_of_singleton]%elem_of_app; [|done].
    destruct (Hdone _ Hl) as (person & Hlk & Hin). exists person.
    split; [done|]. set_solver.
Qed.

End PlanInvariant.

Section RoutePlan.
Context (order : SetOrder).
Context (records : list FaceRec) (labels : list Z).
Context (out_dir : path).
Context (E : gset Z) (c2n : list (Z * string)).
Context (Hnames : forall lab person, dict_lookup c2n lab = Some person ->
                    exists i, person = person_name i).
Context (Hnamed : forall lab, lab ∈ E -> is_Some (dict_lookup c2n lab)).

Lemma plan_inv_copied p st st' :
  copied_person_image st' = copied_person_image st ->
  plan_inv records labels out_dir E c2n p st ->
  plan_inv records labels out_dir E c2n p st'.
Proof. unfold plan_inv. by intros ->. Qed.

Lemma image_step_pres pre src idxs p st p1 st1 :
  (src, idxs) ∈ (build_indices records labels).2 ->
  images_inv records labels out_dir E c2n pre p st ->
  image_step order records labels out_dir E c2n (src, idxs) st = Ok (p1, st1) ->
  images_inv records labels out_dir E c2n (pre ++ [(src, idxs)]) (p ++ p1) st1.
Proof.
  intros Hitem (Hinv & Hdone & Hg & Hu) Hstep.
  apply image_step_inv in Hstep as (labs & sta & Hlabs & Hfold & Hc & Hg1 & Hu1).
  destruct (image_item_labels _ _ _ _ Hitem) as (labs' & Hlabs' & Hon & _).
  rewrite Hlabs in Hlabs'. injection Hlabs' as <-.
  apply (persons_fold_pres records labels out_dir E c2n Hnames _ _ _ _ _ _ _ Hinv)
    in Hfold as (Hinv' & Hnew & Hsub & Hga & Hua).
  2:{ intros lab Hl. rewrite iter_labels_perm in Hl.
      apply elem_of_elements, elem_of_filter in Hl as [HlE Hl].
      split; [by apply Hon|done]. }
  assert (Hpre : forall s, s ∈ (pre ++ [(src, idxs)]).*1 <-> s ∈ pre.*1 \/ s = src).
  { intros s. rewrite fmap_app, elem_of_app. simpl.
    by rewrite list_elem_of_singleton. }
  split_and!.
  - by apply (plan_inv_copied _ sta).
  - intros s lab [Hs| ->]%Hpre Hl HlE; rewrite Hc.
    + destruct (Hdone s lab Hs Hl HlE) as (person & Hlk & Hin).
      exists person. split; [done|]. by apply Hsub.
    + apply Hnew. rewrite iter_labels_perm.
      apply elem_of_elements, elem_of_filter. split; [done|by apply Hon].
  - intros s. rewrite Hg1, Hpre, Hga. destruct (decide _) as [Hne|Hemp].
    + apply set_choose_L in Hne as [lab0 Hlab0].
      apply elem_of_filter in Hlab0 as [[H1 H2] H3%Hon].
      rewrite elem_of_union, elem_of_singleton, Hg. split.
      * intros [->|[Hs Hex]]; [|split; [by left|done]].
        split; [by right|]. by exists lab0.
      * intros [[Hs| ->] Hex]; [right; done|by left].
    + rewrite Hg. split.
      * intros [Hs Hex]. split; [by left|done].
      * intros [[Hs| ->] Hex]; [done|].
        destruct Hex as (lab & Hl & H1 & H2). destruct Hemp.
        intros Hempty. apply (not_elem_of_empty (C := gset Z) lab).
        rewrite <- Hempty. apply elem_of_filter. split; [done|by apply Hon].
  - intros s. rewrite Hu1, Hpre, Hua. case_bool_decide as Hany.
    + apply has_any_cluster_spec in Hany as (lab0 & Hl0%Hon & Hn0).
      rewrite Hu. split.
      * intros [Hs Hall]. split; [by left|done].
      * intros [[Hs| ->] Hall]; [done|]. destruct Hn0. by apply Hall.
    + rewrite elem_of_union, elem_of_singleton, Hu. split.
      * intros [->|[Hs Hall]]; [|split; [by left|done]].
        split; [by right|]. intros lab Hl%Hon.
        destruct (decide (lab = noise)) as [|Hn]; [done|].
        destruct Hany. apply has_any_cluster_spec. by exists lab.
      * intros [[Hs| ->] Hall]; [by right|by left].
Qed.

Lemma route_plan_spec :
  exists pp st,
    plan_fold (image_step order records labels out_dir E c2n)
      (build_indices records labels).2 empty_state = Ok (pp, st) /\
    NoDup pp /\
    (forall s d, (s, d) ∈ pp <->
       exists lab person, on_image records labels s lab /\ lab ∈ E /\
         dict_lookup c2n lab = Some person /\
         d = person_dst out_dir s person) /\
    (forall s, s ∈ staged_group_only st <->
       exists lab, on_image records labels s lab /\ (lab ∉ E) /\ lab ≠ noise) /\
    (forall s, s ∈ staged_unknown st <->
       (exists lab, on_image records labels s lab) /\
       forall lab, on_image records labels s lab -> lab = noise).
Proof.
  destruct (plan_fold_total (image_step order records labels out_dir E c2n)
              (build_indices records labels).2) with (st := empty_state)
    as [[pp st] Hfold].
  { intros [src idxs] st Hin. apply image_step_total; [|done].
    by apply (image_item_valid _ _ src). }
  exists pp, st. split; [done|].
  apply (plan_fold_inv (images_inv records labels out_dir E c2n)) in Hfold.
  - destruct Hfold as ((Hnd & Hfw & Hbw) & Hdone & Hg & Hu).
    split_and!; [done| | |].
    + intros s d. split.
      * intros Hsd. destruct (Hfw _ _ Hsd) as (person & Hin & ->).
        destruct (Hbw _ _ Hin) as (_ & lab & Hl & HlE & Hlk).
        by exists lab, person.
      * intros (lab & person & Hl & HlE & Hlk & ->).
        destruct (Hdone s lab) as (person' & Hlk' & Hin); [|done..|].
        { apply image_keys_spec. by exists lab. }
        rewrite Hlk in Hlk'. injection Hlk' as <-.
        by apply Hbw.
    + intros s. rewrite Hg, image_keys_spec. split; [by intros [_ ?]|].
      intros (lab & Hl & H1 & H2). split; [by exists lab|by exists lab].
    + intros s. by rewrite Hu, image_keys_spec.
  - split_and!.
    + split_and!; [constructor| |].
      * intros s d Hsd. by apply elem_of_nil in Hsd.
      * intros person s Hin. by apply not_elem_of_empty in Hin.
    + intros s lab Hs. by apply elem_of_nil in Hs.
    + intros s. split; [by intros ?%not_elem_of_empty|].
      intros [Hs _]. by apply elem_of_nil in Hs.
    + intros s. split; [by intros ?%not_elem_of_empty|].
      intros [Hs _]. by apply elem_of_nil in Hs.
  - intros pre [src idxs] post p st' p1 st1 Heq Hinv Hstep.
    apply (image_step_pres pre src idxs p st'); [|done..].
    rewrite Heq. set_solver.
Qed.

End RoutePlan.

(** ** The call as directories, plan and report *)

Section Decomposition.
Context (order : SetOrder).
Context (records : list FaceRec) (labels : list Z).
Context (out_dir : path) (group_thr : Z).

Lemma route_by_clusters_eq E c2n pp st fs :
  route_plan order records labels out_dir group_thr = Ok (E, c2n, pp, st) ->
  route_by_clusters order records labels out_dir group_thr fs
  = (mkdirs out_dir c2n ;;
     exec (full_plan order out_dir pp st) ;;
     write_csv (report_path out_dir) report_header (log st) ;;
     ret (c2n, (report_path out_dir), E)) fs.
Proof.
  unfold route_plan, eligible_clusters_of, route_by_clusters, mkdirs, full_plan.
  fold (unknown_dir out_dir) (group_only_dir out_dir) (report_path out_dir).
  destruct (build_indices records labels) as [ci ii]. simpl.
  destruct (eligible_loop records group_thr ci ∅) as [E'|] eqn:HE; [|done].
  destruct (plan_fold _ _ _) as [[pp' st']|] eqn:Hfold; [|done].
  intros [= <- <- <- <-].
  pose proof (fun fs => plan_fold_sound _ _ _
    (fun x st p st' fs => image_step_sound order records labels out_dir
                            E' _ x st p st' fs) _ _ _ fs Hfold) as Hloop.
  unfold bind, lift, ret in *.
  destruct (ensure_dir out_dir fs) as [[[]|e1] fs1]; [|done].
  destruct (ensure_dir (unknown_dir out_dir) fs1) as [[[]|e2] fs2]; [|done].
  destruct (ensure_dir (group_only_dir out_dir) fs2) as [[[]|e3] fs3]; [|done].
  destruct (for_each _ _ fs3) as [[[]|e4] fs4]; [|done].
  rewrite Hloop.
  pose proof (exec_app pp' (shared_plan (group_only_dir out_dir)
       (iter_paths order (staged_group_only st')) ++
     shared_plan (unknown_dir out_dir) (iter_paths order (staged_unknown st'))) fs4) as Ha.
  unfold bind in Ha. rewrite Ha. clear Ha.
  destruct (exec pp' fs4) as [[[]|e5] fs5]; [|done].
  rewrite (for_each_exec (fun src => joinpath (group_only_dir out_dir) (name src))).
  fold (shared_plan (group_only_dir out_dir) (iter_paths order (staged_group_only st'))).
  pose proof (exec_app (shared_plan (group_only_dir out_dir)
       (iter_paths order (staged_group_only st')))
     (shared_plan (unknown_dir out_dir) (iter_paths order (staged_unknown st'))) fs5) as Ha.
  unfold bind in Ha. rewrite Ha. clear Ha.
  destruct (exec (shared_plan (group_only_dir out_dir) _) fs5) as [[[]|e6] fs6]; [|done].
  rewrite (for_each_exec (fun src => joinpath (unknown_dir out_dir) (name src))).
  done.
Qed.

Lemma cluster_to_name_names (l : list Z) lab person :
  dict_lookup (cluster_to_name_of l) lab = Some person ->
  exists i, person = person_name i.
Proof.
  intros Hlk%dict_lookup_Some. apply cluster_to_name_values with (l := l).
  apply list_elem_of_fmap. by exists (lab, person).
Qed.

Lemma route_plan_total :
  exists E pp st,
    let c2n := cluster_to_name_of (eligible_sorted_of order E) in
    route_plan order records labels out_dir group_thr = Ok (E, c2n, pp, st) /\
    eligible_clusters_of records labels group_thr = Ok E /\
    (forall lab, lab ∈ E <->
       lab ≠ noise /\
       exists i r, face_at records labels i r lab /\
                   faces_in_image r <= group_thr) /\
    NoDup pp /\
    (forall s d, (s, d) ∈ pp <->
       exists lab person, on_image records labels s lab /\ lab ∈ E /\
         dict_lookup c2n lab = Some person /\
         d = person_dst out_dir s person) /\
    (forall s, s ∈ staged_group_only st <->
       exists lab, on_image records labels s lab /\ (lab ∉ E) /\ lab ≠ noise) /\
    (forall s, s ∈ staged_unknown st <->
       (exists lab, on_image records labels s lab) /\
       forall lab, on_image records labels s lab -> lab = noise).
Proof.
  destruct (eligible_clusters_of_spec records labels group_thr)
    as (E & HE & HEspec).
  destruct (route_plan_spec order records labels out_dir E
              (cluster_to_name_of (eligible_sorted_of order E)))
    as (pp & st & Hfold & Hrest).
  { apply cluster_to_name_names. }
  { intros lab Hl. destruct (cluster_to_name_get order E lab Hl) as (i & _ & ->).
    by eexists. }
  exists E, pp, st. simpl. unfold route_plan. rewrite HE, Hfold.
  split_and!; [done|done|done|apply Hrest..].
Qed.

End Decomposition.

(** ** Counting with [filter] *)

Section FilterCount.
Context {A : Type} (P : A -> Prop) `{forall x, Decision (P x)}.

Lemma filter_none (l : list A) :
  (forall x, x ∈ l -> ~ P x) -> filter P l = [].
Proof.
  induction l as [|x l IH]; intros Hall; [done|].
  rewrite filter_cons_False; [|apply Hall; left].
  apply IH. intros y Hy. apply Hall. by right.
Qed.

Lemma filter_sublist_mono (l1 l2 : list A) :
  l1 `sublist_of` l2 -> filter P l1 `sublist_of` filter P l2.
Proof.
  induction 1 as [|x l1 l2 Hs IH|x l1 l2 Hs IH]; [done| |].
  - rewrite !filter_cons. destruct (decide (P x)); [by apply sublist_skip|done].
  - rewrite filter_cons. destruct (decide (P x)); [by apply sublist_cons|done].
Qed.

Lemma filter_at_most_one (l : list A) (a : A) :
  NoDup l -> (forall x, x ∈ l -> P x -> x = a) ->
  (length (filter P l) <= 1)%nat.
Proof.
  induction 1 as [|x l Hx Hnd IH]; intros Hall; [simpl; lia|].
  rewrite filter_cons. destruct (decide (P x)) as [Hp|Hp].
  - rewrite filter_none; [simpl; lia|].
    intros y Hy HPy.
    assert (x = a) by (apply Hall; [left|done]).
    assert (y = a) by (apply Hall; [by right|done]).
    by subst.
  - apply IH. intros y Hy. apply Hall. by right.
Qed.

End FilterCount.

(** ** What the file-system primitives do *)

Lemma copy_unless_file_cases src dst fs :
  (dst ∈ dom (fs_files fs) /\ copy_unless_file src dst fs = (Ok tt, fs)) \/
  ((dst ∉ dom (fs_files fs)) /\
   exists e, copy_unless_file src dst fs = (Raise e, fs)) \/
  ((dst ∉ dom (fs_files fs)) /\
   exists c, fs_files fs !! src = Some c /\
     (copy_target fs src dst ∉ fs_dirs fs) /\
     (copy_target fs src dst ∉ fs_locked fs) /\
     copy_unless_file src dst fs =
       (Ok tt, mkFS (fs_dirs fs) (<[copy_target fs src dst := c]> (fs_files fs))
                 (fs_locked fs) (fs_copied fs ++ [(src, dst)]))).
Proof.
  unfold copy_unless_file, is_file, bind, ret, copy2. cbv zeta.
  case_bool_decide as Hd; [by left|right].
  destruct (fs_files fs !! src) as [c|]; [|left; eauto].
  destruct (decide (copy_target fs src dst = src)); [left; eauto|].
  destruct (decide (copy_target fs src dst ∈ fs_dirs fs)); [left; eauto|].
  destruct (decide (copy_target fs src dst ∈ fs_locked fs)); [left; eauto|].
  right. split; [done|]. exists c. done.
Qed.

Lemma exec_cons s d p fs :
  exec ((s, d) :: p) fs =
    match copy_unless_file s d fs with
    | (Ok _, fs1) => exec p fs1
    | (Raise e, fs1) => (Raise e, fs1)
    end.
Proof. done. Qed.

Lemma exec_spec p : forall fs r fs',
  exec p fs = (r, fs') ->
  exists evs,
    fs_copied fs' = fs_copied fs ++ evs /\
    evs `sublist_of` p /\
    fs_dirs fs' = fs_dirs fs /\
    fs_locked fs' = fs_locked fs /\
    dom (fs_files fs) ⊆ dom (fs_files fs') /\
    (forall q, q ∈ dom (fs_files fs') ->
       q ∈ dom (fs_files fs) \/
       exists s d, (s, d) ∈ evs /\ q = copy_target fs s d) /\
    (forall s d, (s, d) ∈ evs -> d ∉ dom (fs_files fs)) /\
    (forall d, d ∉ fs_dirs fs ->
       (length (filter (fun e => e.2 = d) evs) <= 1)%nat) /\
    (r = Ok tt -> forall s d, (s, d) ∈ p -> materialized fs' s d).
Proof.
  induction p as [|[s d] p IH]; intros fs r fs'.
  - rewrite exec_nil. intros [= <- <-]. exists [].
    rewrite app_nil_r. split_and!; try done.
    + intros q Hq. by left.
    + intros s d Hsd. by apply elem_of_nil in Hsd.
    + intros d _. simpl. lia.
    + intros _ s d Hsd. by apply elem_of_nil in Hsd.
  - rewrite exec_cons.
    destruct (copy_unless_file_cases s d fs)
      as [[Hd ->]|[[Hd [e ->]]|[Hd (c & Hc & Htd & Htl & ->)]]].
    + intros Hrest. destruct (IH _ _ _ Hrest)
        as (evs & H1 & H2 & H3 & H4 & H5 & H6 & H7 & H8 & H9).
      exists evs. split_and!; try done.
      * by apply sublist_cons.
      * intros -> s' d' [Heq|Hin]%elem_of_cons; [|by apply H9].
        inversion Heq; subst. left. by apply H5.
    + intros [= <- <-]. exists []. rewrite app_nil_r.
      split_and!; try done.
      * apply sublist_nil_l.
      * intros q Hq. by left.
      * intros s' d' Hsd. by apply elem_of_nil in Hsd.
      * intros d' _. simpl. lia.
    + intros Hrest. destruct (IH _ _ _ Hrest)
        as (evs & H1 & H2 & H3 & H4 & H5 & H6 & H7 & H8 & H9).
      simpl in *. exists ((s, d) :: evs). split_and!.
      * by rewrite H1, <- app_assoc.
      * by apply sublist_skip.
      * done.
      * done.
      * etrans; [|exact H5]. rewrite dom_insert. set_solver.
      * intros q Hq. destruct (H6 q Hq) as [Hq'|(s' & d' & Hin & ->)].
        -- rewrite dom_insert in Hq'.
           apply elem_of_union in Hq' as [->%elem_of_singleton|Hq']; [|by left].
           right. exists s, d. split; [left|done].
        -- right. exists s', d'. split; [by right|done].
      * intros s' d' [Heq|Hin]%elem_of_cons.
        -- by inversion Heq; subst.
        -- intros Hd'. apply (H7 _ _ Hin). rewrite dom_insert. set_solver.
      * intros d' Hd'. rewrite filter_cons. simpl.
        destruct (decide (d = d')) as [->|Hne]; [|by apply H8].
        assert (filter (fun e : path * path => e.2 = d') evs = []) as ->;
          [|simpl; lia].
        apply filter_none. intros [s' d''] Hin Heq.
        simpl in Heq. subst d''. apply (H7 _ _ Hin). rewrite dom_insert.
        unfold copy_target. rewrite decide_False by done. set_solver.
      * intros -> s' d' [Heq|Hin]%elem_of_cons; [|by apply H9].
        inversion Heq; subst. unfold materialized. rewrite H3.
        unfold copy_target in *. destruct (decide (d ∈ fs_dirs fs)).
        -- right. split; [done|]. apply H5. rewrite dom_insert. set_solver.
        -- left. apply H5. rewrite dom_insert. set_solver.
Qed.



Lemma elem_of_prefixes (q p : path) :
  q ∈ prefixes p <-> exists n, (1 <= n <= length p)%nat /\ q = take n p.
Proof.
  unfold prefixes. rewrite list_elem_of_fmap. split.
  - intros (n & -> & Hn%elem_of_seq). exists n. split; [lia|done].
  - intros (n & Hn & ->). exists n. split; [done|]. apply elem_of_seq. lia.
Qed.

Lemma prefixes_self (p : path) : p ≠ [] -> p ∈ prefixes p.
Proof.
  intros Hp. apply elem_of_prefixes. exists (length p). split.
  - destruct p; [done|]. simpl. lia.
  - by rewrite take_ge.
Qed.

Lemma prefixes_prefix (q p : path) :
  q ∈ prefixes p -> q `prefix_of` p /\ (length q <= length p)%nat.
Proof.
  intros (n & Hn & ->)%elem_of_prefixes. split.
  - exists (drop n p). by rewrite take_drop.
  - rewrite length_take. lia.
Qed.

Lemma ensure_dir_cases p fs :
  (Forall (fun q => q ∉ dom (fs_files fs)) (prefixes p) /\
   ensure_dir p fs =
     (Ok tt, mkFS (fs_dirs fs ∪ list_to_set (prefixes p)) (fs_files fs)
               (fs_locked fs) (fs_copied fs))) \/
  (~ Forall (fun q => q ∉ dom (fs_files fs)) (prefixes p) /\
   ensure_dir p fs = (Raise FileExistsError, fs)).
Proof. unfold ensure_dir. destruct (decide _); [by left|by right]. Qed.

Lemma for_each_ensure_dir_spec (l : list path) : forall fs r fs',
  for_each ensure_dir l fs = (r, fs') ->
  dirs_grow fs fs' /\
  (forall q, q ∈ fs_dirs fs' ->
     q ∈ fs_dirs fs \/ exists p, p ∈ l /\ q ∈ prefixes p) /\
  (r = Ok tt -> forall p q, p ∈ l -> q ∈ prefixes p ->
     q ∈ fs_dirs fs' /\ q ∉ dom (fs_files fs)).
Proof.
  induction l as [|p l IH]; intros fs r fs'; simpl.
  - intros [= <- <-]. split_and!; [done|by left|].
    intros _ p q Hp. by apply elem_of_nil in Hp.
  - unfold bind. destruct (ensure_dir_cases p fs) as [[Hall ->]|[Hno ->]].
    + intros Hrest. destruct (IH _ _ _ Hrest) as ((F1 & F2 & F3 & F4) & G & Hok).
      simpl in *. split_and!.
      * split_and!; [done..|set_solver].
      * intros q Hq. destruct (G q Hq) as [Hq'|(p' & Hp' & Hq')].
        -- apply elem_of_union in Hq' as [?|Hq']; [by left|].
           right. exists p. split; [left|]. by apply elem_of_list_to_set in Hq'.
        -- right. exists p'. split; [by right|done].
      * intros -> p' q [->|Hp']%elem_of_cons Hq.
        -- split.
           ++ apply F4. apply elem_of_union. right.
              by apply elem_of_list_to_set.
           ++ rewrite Forall_forall in Hall. by apply Hall.
        -- by apply (Hok eq_refl p').
    + intros [= <- <-]. split_and!; [done|by left|done].
Qed.


Section Mkdirs.
Context (out_dir : path).

Lemma for_each_fmap {A B} (f : A -> B) (body : B -> M unit) (l : list A) fs :
  for_each (fun x => body (f x)) l fs = for_each body (f <$> l) fs.
Proof.
  revert fs. induction l as [|x l IH]; intros fs; simpl; [done|].
  unfold bind. destruct (body (f x) fs) as [[[]|e] fs1]; [apply IH|done].
Qed.

Lemma mkdirs_eq c2n fs :
  mkdirs out_dir c2n fs = for_each ensure_dir (all_dirs out_dir c2n) fs.
Proof.
  unfold mkdirs, all_dirs. simpl. unfold bind.
  destruct (ensure_dir out_dir fs) as [[[]|e1] fs1]; [|done].
  destruct (ensure_dir (unknown_dir out_dir) fs1) as [[[]|e2] fs2]; [|done].
  destruct (ensure_dir (group_only_dir out_dir) fs2) as [[[]|e3] fs3]; [|done].
  apply (for_each_fmap (joinpath out_dir) ensure_dir).
Qed.

Lemma bucket_dir_eq (x : string) : x ≠ "" -> joinpath out_dir x = out_dir ++ [x].
Proof. apply joinpath_nonempty. Qed.

(** The directories of a call lie at most one level below the root, and
    none of them is the report. *)
Lemma all_dirs_shape order (E : gset Z) p q :
  p ∈ all_dirs out_dir (cluster_to_name_of (eligible_sorted_of order E)) ->
  q ∈ prefixes p ->
  (length q <= length out_dir + 1)%nat /\ q ≠ report_path out_dir.
Proof.
  intros Hp Hq. apply prefixes_prefix in Hq as [Hpre Hlen].
  assert (p = out_dir \/ exists x, p = out_dir ++ [x] /\
            x ≠ "clustering_report.csv") as Hshape.
  { unfold all_dirs in Hp. repeat apply elem_of_cons in Hp as [->|Hp].
    - by left.
    - right. exists "__unknown__". split; [by apply bucket_dir_eq|done].
    - right. exists "__group_only__". split; [by apply bucket_dir_eq|done].
    - apply list_elem_of_fmap in Hp as (x & -> & Hx).
      apply cluster_to_name_values in Hx as [i ->].
      destruct (person_name_not_shared i) as (_ & _ & Hne & Hrep).
      right. exists (person_name i). split; [by apply bucket_dir_eq|done]. }
  unfold report_path. rewrite joinpath_nonempty by done.
  destruct Hshape as [->|(x & -> & Hx)].
  - split; [lia|]. intros ->. rewrite length_app in Hlen. simpl in Hlen. lia.
  - rewrite length_app in Hlen. simpl in Hlen. split; [lia|].
    intros ->. apply prefix_app_inv in Hpre.
    apply prefix_cons_inv_1 in Hpre. done.
Qed.

End Mkdirs.

Lemma write_csv_cases p header rows fs :
  ((p ∉ fs_dirs fs) /\ (p ∉ fs_locked fs) /\
   write_csv p header rows fs =
     (Ok tt, mkFS (fs_dirs fs) (<[p := Csv header rows]> (fs_files fs))
               (fs_locked fs) (fs_copied fs))) \/
  (exists e, write_csv p header rows fs = (Raise e, fs)).
Proof.
  unfold write_csv. destruct (decide _); [right; eauto|].
  destruct (decide _); [right; eauto|]. by left.
Qed.

(** ** The three phases of a call *)

Section Phases.
Context (order : SetOrder).
Context (records : list FaceRec) (labels : list Z).
Context (out_dir : path) (group_thr : Z).

Lemma route_by_clusters_shape E c2n pp st fs r fs' :
  route_plan order records labels out_dir group_thr = Ok (E, c2n, pp, st) ->
  route_by_clusters order records labels out_dir group_thr fs = (r, fs') ->
  run_shape out_dir c2n (full_plan order out_dir pp st) (log st)
    (c2n, report_path out_dir, E) fs r fs'.
Proof.
  intros Hplan. rewrite (route_by_clusters_eq _ _ _ _ _ _ _ _ _ _ Hplan).
  unfold bind at 1. rewrite mkdirs_eq.
  destruct (for_each ensure_dir _ fs) as [[[]|e] fsA] eqn:HA.
  2:{ intros [= <- <-]. by apply run_mkdir_failed. }
  unfold bind at 1.
  destruct (exec _ fsA) as [[[]|e] fsB] eqn:HB.
  2:{ intros [= <- <-]. by eapply run_copy_failed. }
  unfold bind, ret.
  destruct (write_csv_cases (report_path out_dir) report_header (log st) fsB)
    as [(Hd & Hl & HC)|[e HC]]; rewrite HC.
  - intros [= <- <-]. by eapply run_completed.
  - intros [= <- <-]. by eapply run_report_failed.
Qed.

(** Every copy of a call is one of its planned copies, in plan order. *)
Lemma route_copies fs r fs' :
  route_by_clusters order records labels out_dir group_thr fs = (r, fs') ->
  exists E pp st evs,
    route_plan order records labels out_dir group_thr
      = Ok (E, cluster_to_name_of (eligible_sorted_of order E), pp, st) /\
    fs_copied fs' = fs_copied fs ++ evs /\
    evs `sublist_of` full_plan order out_dir pp st.
Proof.
  intros Hrun.
  destruct (route_plan_total order records labels out_dir group_thr)
    as (E & pp & st & Hplan & _).
  exists E, pp, st.
  pose proof (route_by_clusters_shape _ _ _ _ _ _ _ Hplan Hrun) as Hshape.
  inversion Hshape as [e fs1 HA|e fsA fs1 HA HB|e fsA fsB HA HB HC
                      |fsA fsB HA HB Hd Hl]; subst.
  - apply for_each_ensure_dir_spec in HA as ((_ & _ & Hc & _) & _).
    exists []. rewrite app_nil_r. split_and!; [done..|apply sublist_nil_l].
  - apply for_each_ensure_dir_spec in HA as ((_ & _ & Hc & _) & _).
    apply exec_spec in HB as (evs & H1 & H2 & _).
    exists evs. rewrite H1, Hc. done.
  - apply for_each_ensure_dir_spec in HA as ((_ & _ & Hc & _) & _).
    apply exec_spec in HB as (evs & H1 & H2 & _).
    exists evs. rewrite H1, Hc. done.
  - apply for_each_ensure_dir_spec in HA as ((_ & _ & Hc & _) & _).
    apply exec_spec in HB as (evs & H1 & H2 & _).
    exists evs. simpl. rewrite H1, Hc. done.
Qed.

End Phases.

(** ** Buckets *)

Lemma joinpath_prefix (p : path) (s : string) : p `prefix_of` joinpath p s.
Proof.
  unfold joinpath. destruct (decide (s = "")); [done|]. by apply prefix_app_r.
Qed.

Lemma in_bucket_joinpath out_dir (x f b : string) :
  x ≠ "" ->
  in_bucket out_dir b (joinpath (joinpath out_dir x) f) <-> b = x.
Proof.
  intros Hx. unfold in_bucket. rewrite (joinpath_nonempty out_dir x Hx). split.
  - intros Hpre.
    assert (out_dir ++ [b] `prefix_of` out_dir ++ ([x] ++
              (if decide (f = "") then [] else [f]))) as Hpre'.
    { unfold joinpath in Hpre. destruct (decide (f = "")).
      - by rewrite app_nil_r.
      - by rewrite app_assoc. }
    apply prefix_app_inv in Hpre'. by apply prefix_cons_inv_1 in Hpre'.
  - intros ->. apply joinpath_prefix.
Qed.

Section BucketCount.
Context (order : SetOrder).
Context (records : list FaceRec) (labels : list Z).
Context (out_dir : path) (group_thr : Z).

Lemma shared_plan_fst (dir : path) (l : list path) : (shared_plan dir l).*1 = l.
Proof.
  unfold shared_plan. rewrite <- list_fmap_compose.
  induction l as [|x l IH]; csimpl; [done|]. by rewrite IH.
Qed.

Lemma shared_plan_NoDup (dir : path) (staged : gset path) :
  NoDup (shared_plan dir (iter_paths order staged)).
Proof.
  apply (NoDup_fmap_1 fst). rewrite shared_plan_fst, iter_paths_perm.
  apply NoDup_elements.
Qed.

Lemma shared_plan_elem (dir : path) (staged : gset path) s d :
  (s, d) ∈ shared_plan dir (iter_paths order staged) <->
  s ∈ staged /\ d = joinpath dir (name s).
Proof.
  unfold shared_plan. rewrite list_elem_of_fmap. split.
  - intros (x & [= -> ->] & Hx). rewrite iter_paths_perm in Hx.
    by apply elem_of_elements in Hx.
  - intros [Hs ->]. exists s. split; [done|].
    rewrite iter_paths_perm. by apply elem_of_elements.
Qed.

Lemma shared_plan_count (dir_name : string) (staged : gset path) src b :
  dir_name ≠ "" ->
  (length (filter (fun e => e.1 = src /\ in_bucket out_dir b e.2)
             (shared_plan (joinpath out_dir dir_name) (iter_paths order staged)))
   <= 1)%nat /\
  (b ≠ dir_name ->
   filter (fun e => e.1 = src /\ in_bucket out_dir b e.2)
     (shared_plan (joinpath out_dir dir_name) (iter_paths order staged)) = []).
Proof.
  intros Hd. split.
  - apply (filter_at_most_one _ _
             (src, joinpath (joinpath out_dir dir_name) (name src)));
      [apply shared_plan_NoDup|].
    intros [s d] [_ ->]%shared_plan_elem [Hs _]. simpl in *. by subst.
  - intros Hb. apply filter_none.
    intros [s d] [_ ->]%shared_plan_elem [_ Hin]. simpl in *.
    by apply in_bucket_joinpath in Hin.
Qed.

Lemma full_plan_once E pp st src b :
  route_plan order records labels out_dir group_thr
    = Ok (E, cluster_to_name_of (eligible_sorted_of order E), pp, st) ->
  (length (filter (fun e => e.1 = src /\ in_bucket out_dir b e.2)
             (full_plan order out_dir pp st)) <= 1)%nat.
Proof.
  intros Hplan.
  destruct (route_plan_total order records labels out_dir group_thr)
    as (E' & pp' & st' & Hplan' & _ & _ & Hnd & Hpp & _).
  simpl in Hplan'. rewrite Hplan in Hplan'.
  injection Hplan' as HE _ Hp Hs. subst E' pp' st'.
  assert (Hperson : forall s d, (s, d) ∈ pp ->
            exists i, d = person_dst out_dir s (person_name i)).
  { intros s d (lab & person & _ & _ & Hlk & ->)%Hpp.
    apply cluster_to_name_names in Hlk as [i ->]. eauto. }
  assert (Hpp1 : (length (filter (fun e => e.1 = src /\ in_bucket out_dir b e.2)
                        pp) <= 1)%nat).
  { apply (filter_at_most_one _ _ (src, person_dst out_dir src b)); [done|].
    intros [s d] Hin [Hs Hb]. simpl in *. subst s.
    destruct (Hperson _ _ Hin) as [i ->]. f_equal.
    destruct (person_name_not_shared i) as (_ & _ & Hne & _).
    apply in_bucket_joinpath in Hb; [|done]. by subst. }
  assert (Hpp0 : (b = "__group_only__" \/ b = "__unknown__") ->
            filter (fun e => e.1 = src /\ in_bucket out_dir b e.2) pp = []).
  { intros Hb. apply filter_none. intros [s d] Hin [_ Hbk]. simpl in *.
    destruct (Hperson _ _ Hin) as [i ->].
    destruct (person_name_not_shared i) as (Hu & Hg & Hne & _).
    apply in_bucket_joinpath in Hbk; [|done]. destruct Hb; by subst. }
  unfold full_plan. rewrite !filter_app, !length_app.
  unfold group_only_dir, unknown_dir.
  destruct (shared_plan_count "__group_only__" (staged_group_only st) src b)
    as [Hg1 Hg0]; [done|].
  destruct (shared_plan_count "__unknown__" (staged_unknown st) src b)
    as [Hu1 Hu0]; [done|].
  destruct (decide (b = "__group_only__")) as [Hbg|Hbg].
  - rewrite Hpp0, Hu0; [simpl; lia|by subst|by left].
  - destruct (decide (b = "__unknown__")) as [Hbu|Hbu].
    + rewrite Hpp0, Hg0; [simpl; lia|done|by right].
    + rewrite Hg0, Hu0; [simpl; lia|done..].
Qed.

(** In any call, finished or not, an image is copied at most once into a
    bucket. *)
Lemma route_copies_once fs r fs' src b :
  route_by_clusters order records labels out_dir group_thr fs = (r, fs') ->
  exists evs, fs_copied fs' = fs_copied fs ++ evs /\
    (length (filter (fun e => e.1 = src /\ in_bucket out_dir b e.2) evs)
     <= 1)%nat.
Proof.
  intros (E & pp & st & evs & Hplan & Hc & Hsub)%route_copies.
  exists evs. split; [done|].
  etrans; [|apply (full_plan_once _ _ _ src b Hplan)].
  apply sublist_length, filter_sublist_mono, Hsub.
Qed.

End BucketCount.

(** ** Running the router again *)

Section PlanFacts.
Context (records : list FaceRec) (labels : list Z).
Context (out_dir : path) (group_thr : Z).

Lemma route_plan_facts order E c2n pp st :
  route_plan order records labels out_dir group_thr = Ok (E, c2n, pp, st) ->
  c2n = cluster_to_name_of (eligible_sorted_of order E) /\
  eligible_clusters_of records labels group_thr = Ok E /\
  (forall lab, lab ∈ E <->
     lab ≠ noise /\
     exists i r, face_at records labels i r lab /\
                 faces_in_image r <= group_thr) /\
  NoDup pp /\
  (forall s d, (s, d) ∈ pp <->
     exists lab person, on_image records labels s lab /\ lab ∈ E /\
       dict_lookup c2n lab = Some person /\
       d = person_dst out_dir s person) /\
  (forall s, s ∈ staged_group_only st <->
     exists lab, on_image records labels s lab /\ (lab ∉ E) /\ lab ≠ noise) /\
  (forall s, s ∈ staged_unknown st <->
     (exists lab, on_image records labels s lab) /\
     forall lab, on_image records labels s lab -> lab = noise).
Proof.
  intros Hplan.
  destruct (route_plan_total order records labels out_dir group_thr)
    as (E' & pp' & st' & Hplan' & Hrest).
  simpl in Hplan'. rewrite Hplan in Hplan'.
  injection Hplan' as HE Hc Hp Hs. subst E' pp' st' c2n. done.
Qed.

Lemma full_plan_elem order pp st s d :
  (s, d) ∈ full_plan order out_dir pp st <->
  (s, d) ∈ pp \/
  (s ∈ staged_group_only st /\ d = joinpath (group_only_dir out_dir) (name s)) \/
  (s ∈ staged_unknown st /\ d = joinpath (unknown_dir out_dir) (name s)).
Proof.
  unfold full_plan. by rewrite !elem_of_app, !shared_plan_elem.
Qed.


Lemma on_image_record s lab :
  on_image records labels s lab -> exists r, r ∈ records /\ img_path r = s.
Proof.
  intros (i & r & [Hr _] & Hp). exists r. split; [|done].
  by apply list_elem_of_lookup_2 in Hr.
Qed.

(** With named images, a planned destination lies two levels below the
    output root. *)
Lemma full_plan_shape order E c2n pp st s d :
  route_plan order records labels out_dir group_thr = Ok (E, c2n, pp, st) ->
  names_ok records ->
  (s, d) ∈ full_plan order out_dir pp st ->
  exists x f, d = out_dir ++ [x; f].
Proof.
  intros (Hc & _ & _ & _ & Hpp & Hg & Hu)%route_plan_facts Hnames.
  assert (Hshared : forall x lab, x ≠ "" -> on_image records labels s lab ->
            joinpath (joinpath out_dir x) (name s) = out_dir ++ [x; name s]).
  { intros x lab Hx (r & Hr & <-)%on_image_record.
    rewrite !joinpath_nonempty; [|done|by apply Hnames].
    by rewrite <- app_assoc. }
  intros [Hin|[[Hin ->]|[Hin ->]]]%full_plan_elem.
  - apply Hpp in Hin as (lab & person & _ & _ & Hlk & ->). subst c2n.
    apply cluster_to_name_names in Hlk as [i ->].
    destruct (person_name_not_shared i) as (_ & _ & Hne & _).
    rewrite person_dst_eq by done. eauto.
  - apply Hg in Hin as (lab & Hon & _).
    unfold group_only_dir. rewrite (Hshared _ lab); [eauto|done..].
  - apply Hu in Hin as [[lab Hon] _].
    unfold unknown_dir. rewrite (Hshared _ lab); [eauto|done..].
Qed.

End PlanFacts.

Section Rerun.
Context (records : list FaceRec) (labels : list Z).
Context (out_dir : path) (group_thr : Z).

Lemma copy_target_length fs s d :
  (length d <= length (copy_target fs s d))%nat.
Proof.
  unfold copy_target, joinpath.
  repeat destruct (decide _); rewrite ?length_app; simpl; lia.
Qed.

(** What a completed call leaves behind. *)
Lemma completed_run_state order E c2n pp st fs0 fsA fsB :
  route_plan order records labels out_dir group_thr = Ok (E, c2n, pp, st) ->
  names_ok records -> no_nested fs0 out_dir ->
  for_each ensure_dir (all_dirs out_dir c2n) fs0 = (Ok tt, fsA) ->
  exec (full_plan order out_dir pp st) fsA = (Ok tt, fsB) ->
  (forall p q, p ∈ all_dirs out_dir c2n -> q ∈ prefixes p ->
     q ∈ fs_dirs fsB /\ (q ∉ dom (fs_files fsB)) /\ q ≠ report_path out_dir) /\
  (forall s d, (s, d) ∈ full_plan order out_dir pp st ->
     d ∈ dom (fs_files fsB)).
Proof.
  intros Hplan Hnames Hnest HA HB.
  pose proof (route_plan_facts _ _ _ _ _ _ _ _ _ Hplan) as (Hc & _).
  apply for_each_ensure_dir_spec in HA as ((FA & _ & _ & DA) & GA & OkA).
  specialize (OkA eq_refl).
  apply exec_spec in HB as (evs & _ & Hsub & DB & _ & _ & WB & _ & _ & MB).
  specialize (MB eq_refl).
  split.
  - intros p q Hp Hq. destruct (OkA p q Hp Hq) as [Hd Hf].
    assert ((length q <= length out_dir + 1)%nat /\ q ≠ report_path out_dir)
      as [Hlen Hrep].
    { subst c2n. by apply (all_dirs_shape out_dir order E p q). }
    split_and!; [by rewrite DB| |done].
    intros [Hq'|(s & d & Hin & ->)]%WB; [by rewrite FA in Hq'|].
    assert ((s, d) ∈ full_plan order out_dir pp st) as Hin'.
    { eapply elem_of_sublist; [exact Hin|exact Hsub]. }
    destruct (full_plan_shape _ _ _ _ _ _ _ _ _ _ _ Hplan Hnames Hin')
      as (x & f & ->).
    pose proof (copy_target_length fsA s (out_dir ++ [x; f])) as Hl.
    rewrite length_app in Hl. simpl in Hl. lia.
  - intros s d Hin.
    destruct (full_plan_shape _ _ _ _ _ _ _ _ _ _ _ Hplan Hnames Hin)
      as (x & f & ->).
    destruct (MB _ _ Hin) as [Hf|[Hd _]]; [done|].
    rewrite DB in Hd. exfalso.
    destruct (GA _ Hd) as [Hd0|(p & Hp & Hq)].
    + assert (out_dir `prefix_of` out_dir ++ [x; f]) as Hpre
        by (by apply prefix_app_r).
      pose proof (Hnest _ Hd0 Hpre) as Hlen.
      rewrite length_app in Hlen. simpl in Hlen. lia.
    + subst c2n. destruct (all_dirs_shape out_dir order E p _ Hp Hq) as [Hl _].
      rewrite length_app in Hl. simpl in Hl. lia.
Qed.


End Rerun.

(** * The claims *)

Lemma eligible_permutation records labels records' labels' group_thr E :
  zip records' labels' ≡ₚ zip records labels ->
  eligible_clusters_of records labels group_thr = Ok E ->
  eligible_clusters_of records' labels' group_thr = Ok E.
Proof.
  intros Hperm HE.
  destruct (eligible_clusters_of_spec records labels group_thr)
    as (E1 & HE1 & Hspec1).
  destruct (eligible_clusters_of_spec records' labels' group_thr)
    as (E2 & HE2 & Hspec2).
  rewrite HE in HE1. injection HE1 as <-. rewrite HE2. f_equal.
  apply set_eq. intros lab. rewrite Hspec1, Hspec2.
  assert (forall rs ls rs' ls', zip rs' ls' ≡ₚ zip rs ls ->
            (exists i r, face_at rs ls i r lab /\ faces_in_image r <= group_thr) ->
            exists i r, face_at rs' ls' i r lab /\ faces_in_image r <= group_thr)
    as Himp.
  { intros rs ls rs' ls' Hp (i & r & Hf%face_at_zip & Hle).
    apply list_elem_of_lookup_2 in Hf. rewrite <- Hp in Hf.
    apply list_elem_of_lookup in Hf as [j Hj]. exists j, r.
    split; [by apply face_at_zip|done]. }
  split; intros [Hn Hex]; (split; [done|]).
  - by apply (Himp records' labels' records labels).
  - by apply (Himp records labels records' labels').
Qed.

Lemma route_result_eligible order records labels out_dir group_thr fs v fs' :
  route_by_clusters order records labels out_dir group_thr fs = (Ok v, fs') ->
  eligible_clusters_of records labels group_thr = Ok v.2 /\
  v.1.1 = cluster_to_name_of (eligible_sorted_of order v.2) /\
  v.1.2 = report_path out_dir.
Proof.
  intros Hrun.
  destruct (route_plan_total order records labels out_dir group_thr)
    as (E & pp & st & Hplan & HE & _).
  pose proof (route_by_clusters_shape _ _ _ _ _ _ _ _ _ _ _ _ Hplan Hrun)
    as Hshape.
  inversion Hshape; subst. done.
Qed.

(** C2. A cluster label is eligible exactly when it is not the noise label
    and one of its member records has [faces_in_image <= group_thr];
    for a non-noise label with members this is the same as the minimum of
    [faces_in_image] over the members being at most [group_thr]; the noise
    label is never eligible; and this set is what [route_by_clusters]
    returns as [eligible_clusters]. *)
Theorem C2_eligibility_iff_personal_member
    (records : list FaceRec) (labels : list Z) (group_thr : Z) :
  exists E, eligible_clusters_of records labels group_thr = Ok E /\
    (forall lab, lab ∈ E <->
       lab ≠ noise /\
       exists i r, face_at records labels i r lab /\
                   faces_in_image r <= group_thr) /\
    (forall lab, lab ≠ noise ->
       (exists i r, face_at records labels i r lab) ->
       exists m, min_faces records labels lab = Some m /\
                 (lab ∈ E <-> m <= group_thr)) /\
    (noise ∉ E) /\
    (forall order out_dir fs v fs',
       route_by_clusters order records labels out_dir group_thr fs
         = (Ok v, fs') -> v.2 = E).
Proof.
  destruct (eligible_clusters_of_spec records labels group_thr)
    as (E & HE & Hspec).
  exists E. split_and!; [done|done| | |].
  - intros lab Hn (i & r & Hf). unfold min_faces.
    destruct (member_faces records labels lab) as [|x xs] eqn:Hm.
    + assert (faces_in_image r ∈ member_faces records labels lab) as Hin
        by (apply member_faces_elem; eauto).
      rewrite Hm in Hin. by apply elem_of_nil in Hin.
    + exists (foldr Z.min x xs). split; [done|].
      rewrite Hspec, foldr_min_le, <- Hm. split.
      * intros (_ & j & r' & Hf' & Hle). exists (faces_in_image r').
        split; [|done]. apply member_faces_elem. eauto.
      * intros (y & (j & r' & Hf' & <-)%member_faces_elem & Hle).
        split; [done|]. eauto.
  - rewrite Hspec. by intros [? _].
  - intros order out_dir fs v fs' [Hv _]%route_result_eligible.
    rewrite HE in Hv. by injection Hv.
Qed.

(** C6. The eligible labels are sorted ascending and the label at position
    [i] of that order is named [person_] followed by [i] zero-padded to
    three digits; names of different positions differ; the mapping does not
    depend on the order in which the set is iterated nor on the order of the
    input records, and it is the [cluster_to_name] that [route_by_clusters]
    returns. *)
Theorem C6_naming_sorted_and_deterministic
    (order order' : SetOrder) (records records' : list FaceRec)
    (labels labels' : list Z) (group_thr : Z) :
  zip records' labels' ≡ₚ zip records labels ->
  exists E,
    eligible_clusters_of records labels group_thr = Ok E /\
    eligible_clusters_of records' labels' group_thr = Ok E /\
    StronglySorted Z.lt (eligible_sorted_of order E) /\
    (forall cl, cl ∈ eligible_sorted_of order E <-> cl ∈ E) /\
    (forall i, cluster_to_name_of (eligible_sorted_of order E) !! i
               = (fun cl => (cl, person_name i)) <$>
                   eligible_sorted_of order E !! i) /\
    (forall i j, person_name i = person_name j -> i = j) /\
    person_name 0 = "person_000" /\ person_name 1 = "person_001" /\
    person_name 12 = "person_012" /\
    cluster_to_name_of (eligible_sorted_of order' E)
      = cluster_to_name_of (eligible_sorted_of order E) /\
    (forall out_dir fs v fs',
       route_by_clusters order' records' labels' out_dir group_thr fs
         = (Ok v, fs') ->
       v.1.1 = cluster_to_name_of (eligible_sorted_of order E)).
Proof.
  intros Hperm.
  destruct (eligible_clusters_of_spec records labels group_thr)
    as (E & HE & _).
  pose proof (eligible_permutation _ _ _ _ _ _ Hperm HE) as HE'.
  exists E. split_and!; try done.
  - apply eligible_sorted_ascending.
  - apply eligible_sorted_elem.
  - apply cluster_to_name_lookup.
  - apply person_name_inj.
  - by rewrite (eligible_sorted_order_irrelevant order' order).
  - intros out_dir fs v fs' (Hv & Hc & _)%route_result_eligible.
    rewrite HE' in Hv. injection Hv as Hv.
    by rewrite Hc, <- Hv, (eligible_sorted_order_irrelevant order' order).
Qed.

Lemma full_plan_empty order out_dir group_thr labels E c2n pp st :
  route_plan order [] labels out_dir group_thr = Ok (E, c2n, pp, st) ->
  full_plan order out_dir pp st = [].
Proof.
  intros Hplan.
  pose proof (route_plan_facts _ _ _ _ _ _ _ _ _ Hplan)
    as (_ & _ & _ & _ & Hpp & Hg & Hu).
  assert (forall s lab, ~ on_image [] labels s lab) as Hnone.
  { intros s lab (i & r & [Hr _] & _). by rewrite lookup_nil in Hr. }
  destruct (full_plan order out_dir pp st) as [|[s d] l] eqn:Hfp; [done|].
  assert ((s, d) ∈ full_plan order out_dir pp st) as Hin
    by (rewrite Hfp; left).
  apply full_plan_elem in Hin as [Hin|[[Hin _]|[Hin _]]].
  - apply Hpp in Hin as (lab & _ & Hon & _). by apply Hnone in Hon.
  - apply Hg in Hin as (lab & Hon & _). by apply Hnone in Hon.
  - apply Hu in Hin as [[lab Hon] _]. by apply Hnone in Hon.
Qed.


Lemma for_each_ensure_dir_first (l1 : list path) : forall l2 fs r fs',
  for_each ensure_dir (l1 ++ l2) fs = (r, fs') ->
  (forall p, p ∈ l1 -> Forall (fun q => q ∉ dom (fs_files fs)) (prefixes p)) ->
  forall p q, p ∈ l1 -> q ∈ prefixes p -> q ∈ fs_dirs fs'.
Proof.
  induction l1 as [|p1 l1 IH]; intros l2 fs r fs' Hrun Hok p q Hp Hq.
  - by apply elem_of_nil in Hp.
  - simpl in Hrun. unfold bind in Hrun.
    destruct (ensure_dir_cases p1 fs) as [[_ Heq]|[Hno _]].
    2:{ destruct Hno. apply Hok. left. }
    rewrite Heq in Hrun.
    apply elem_of_cons in Hp as [->|Hp].
    + apply for_each_ensure_dir_spec in Hrun as ((_ & _ & _ & Hsub) & _).
      apply Hsub. simpl. apply elem_of_union. right.
      by apply elem_of_list_to_set.
    + apply (IH _ _ _ _ Hrun) with (p := p); [|done..].
      intros p' Hp'. simpl. apply Hok. by right.
Qed.

Lemma route_dirs order records labels out_dir group_thr fs r fs' :
  route_by_clusters order records labels out_dir group_thr fs = (r, fs') ->
  exists c2n rA fsA,
    for_each ensure_dir (all_dirs out_dir c2n) fs = (rA, fsA) /\
    fs_dirs fs' = fs_dirs fsA /\ (forall v, r = Ok v -> rA = Ok tt).
Proof.
  intros Hrun.
  destruct (route_plan_total order records labels out_dir group_thr)
    as (E & pp & st & Hplan & _).
  pose proof (route_by_clusters_shape _ _ _ _ _ _ _ _ _ _ _ _ Hplan Hrun)
    as Hshape.
  exists (cluster_to_name_of (eligible_sorted_of order E)).
  inversion Hshape as [e fs1 HA|e fsA fs1 HA HB|e fsA fsB HA HB HC
                      |fsA fsB HA HB Hd Hl]; subst.
  - exists (Raise e), fs'. done.
  - exists (Ok tt), fsA. split_and!; [done| |done].
    by apply exec_spec in HB as (evs & _ & _ & -> & _).
  - exists (Ok tt), fsA. split_and!; [done| |done].
    by apply exec_spec in HB as (evs & _ & _ & -> & _).
  - exists (Ok tt), fsA. split_and!; [done| |done]. simpl.
    by apply exec_spec in HB as (evs & _ & _ & -> & _).
Qed.

(** C10. [route_by_clusters] creates the output root, [__unknown__] and
    [__group_only__] before it looks at any record: after every call that
    returns normally, and after every call in which these three [mkdir]
    calls were possible, however it ends, the two shared-bucket directories
    (and their ancestors) exist; a call with zero records copies nothing
    and still leaves them behind. *)
Theorem C10_shared_buckets_always_created
    (order : SetOrder) (records : list FaceRec) (labels : list Z)
    (out_dir : path) (group_thr : Z) (fs : FS)
    (r : res (list (Z * string) * path * gset Z)) (fs' : FS) :
  route_by_clusters order records labels out_dir group_thr fs = (r, fs') ->
  (exists v, r = Ok v) \/ mkdir_possible fs out_dir ->
  unknown_dir out_dir ∈ fs_dirs fs' /\
  group_only_dir out_dir ∈ fs_dirs fs' /\
  (forall q, q ∈ prefixes (unknown_dir out_dir) -> q ∈ fs_dirs fs') /\
  (forall q, q ∈ prefixes (group_only_dir out_dir) -> q ∈ fs_dirs fs') /\
  (records = [] -> fs_copied fs' = fs_copied fs).
Proof.
  intros Hrun Hcond.
  assert (forall p q, p ∈ [out_dir; unknown_dir out_dir; group_only_dir out_dir]
            -> q ∈ prefixes p -> q ∈ fs_dirs fs') as Hdirs.
  { destruct (route_dirs _ _ _ _ _ _ _ _ Hrun) as (c2n & rA & fsA & HA & -> & HOk).
    destruct Hcond as [[v ->]|Hposs].
    - rewrite (HOk v eq_refl) in HA.
      apply for_each_ensure_dir_spec in HA as (_ & _ & Hall).
      intros p q Hp Hq. apply (Hall eq_refl p q); [|done].
      unfold all_dirs. set_solver.
    - apply (for_each_ensure_dir_first
               [out_dir; unknown_dir out_dir; group_only_dir out_dir]
               (joinpath out_dir <$> c2n.*2) fs rA fsA HA Hposs). }
  assert (unknown_dir out_dir ≠ [] /\ group_only_dir out_dir ≠ []) as [Hu Hg].
  { unfold unknown_dir, group_only_dir. rewrite !joinpath_nonempty by done.
    split; by destruct out_dir. }
  split_and!.
  - apply (Hdirs (unknown_dir out_dir)); [set_solver|by apply prefixes_self].
  - apply (Hdirs (group_only_dir out_dir)); [set_solver|by apply prefixes_self].
  - intros q. apply Hdirs. set_solver.
  - intros q. apply Hdirs. set_solver.
  - intros ->. destruct (route_copies _ _ _ _ _ _ _ _ Hrun)
      as (E & pp & st & evs & Hplan & -> & Hsub).
    rewrite (full_plan_empty _ _ _ _ _ _ _ _ Hplan) in Hsub.
    apply sublist_nil_r in Hsub as ->. by rewrite app_nil_r.
Qed.

Lemma cluster_faces_nil c eps ms : cluster_faces c [] eps ms = Ok [].
Proof. done. Qed.

(** C8. With zero FaceRecords the clusterer returns the empty label list,
    which is a normal result; no cluster is eligible; and [main] returns at
    its "no usable faces" exit without calling the clusterer or the router:
    the file system is left as it was, so no folder and no report row is
    produced. *)
Theorem C8_empty_input_produces_nothing
    (c : Collaborators) (order : SetOrder) (args : Args) (fs : FS)
    (labels : list Z) :
  cluster_faces c [] (eps_sim args) (min_samples args) = Ok [] /\
  eligible_clusters_of [] labels (group_thr_arg args) = Ok ∅ /\
  (collect_faces c (input_dir args) (min_face args) (blur_thr args)
     (det_size args) (gpu_id args) = [] ->
   main c order args fs = (Ok NoUsableFaces, fs)).
Proof.
  split_and!; [done|done|]. unfold main. by intros ->.
Qed.

(** C7 (amended). [main] validates nothing before extraction: whatever
    [min_samples] is, extraction runs first; without records the run ends
    normally with "no usable faces"; with records [min_samples] reaches the
    clusterer unchanged, and only an exception of the clusterer aborts the
    run, after extraction and before any routing. *)
Theorem C7_parameters_reach_clusterer_unchecked
    (c : Collaborators) (order : SetOrder) (args : Args) (fs : FS) :
  let records :=
    collect_faces c (input_dir args) (min_face args) (blur_thr args)
      (det_size args) (gpu_id args) in
  (records = [] -> main c order args fs = (Ok NoUsableFaces, fs)) /\
  (records ≠ [] -> forall e,
     dbscan c (eps_sim args) (min_samples args) (embedding <$> records)
       = Raise e ->
     main c order args fs = (Raise e, fs)) /\
  (records ≠ [] -> forall labels,
     dbscan c (eps_sim args) (min_samples args) (embedding <$> records)
       = Ok labels ->
     main c order args fs =
       (v <- route_by_clusters order records labels (out_dir_arg args)
               (group_thr_arg args) ;;
        ret (Routed v.1.1 v.1.2 v.2)) fs).
Proof.
  unfold main. cbv zeta.
  destruct (collect_faces _ _ _ _ _ _) as [|r rs]; split_and!; try done.
  - intros _ e He. unfold cluster_faces, bind, lift. by rewrite He.
  - intros _ labels Hl. unfold cluster_faces.
    by rewrite (bind_lift_Ok' _ labels).
Qed.

(** ** Failing copies *)

Lemma copy_target_prefix fs s d : d `prefix_of` copy_target fs s d.
Proof.
  unfold copy_target. destruct (decide _); [apply joinpath_prefix|done].
Qed.

(** A plan leaves alone every path that does not extend one of its
    destinations. *)
Lemma exec_frame p : forall fs r fs' (q : path),
  exec p fs = (r, fs') ->
  (forall (s d : path), (s, d) ∈ p -> ~ d `prefix_of` q) ->
  fs_files fs' !! q = fs_files fs !! q.
Proof.
  induction p as [|[s d] p IH]; intros fs r fs' q.
  - rewrite exec_nil. by intros [= <- <-].
  - rewrite exec_cons. intros Hrun Hq.
    assert (forall s' d', (s', d') ∈ p -> ~ d' `prefix_of` q) as Hq'
      by (intros s' d' Hin; apply (Hq s'); by right).
    destruct (copy_unless_file_cases s d fs)
      as [[Hd Heq]|[[Hd [e Heq]]|[Hd (c & Hc & Htd & Htl & Heq)]]];
      rewrite Heq in Hrun.
    + by apply (IH _ _ _ _ Hrun).
    + by injection Hrun as <- <-.
    + rewrite (IH _ _ _ _ Hrun Hq'). simpl. apply lookup_insert_ne.
      intros <-. apply (Hq s d); [left|apply copy_target_prefix].
Qed.

Section Failure.
Context (order : SetOrder).
Context (records : list FaceRec) (labels : list Z).
Context (out_dir : path) (group_thr : Z).

(** Every planned destination lies in a bucket, and no bucket is called
    like the report. *)
Lemma full_plan_bucket E c2n pp st s d :
  route_plan order records labels out_dir group_thr = Ok (E, c2n, pp, st) ->
  (s, d) ∈ full_plan order out_dir pp st ->
  exists x, x ≠ "clustering_report.csv" /\ in_bucket out_dir x d.
Proof.
  intros (Hc & _ & _ & _ & Hpp & _)%route_plan_facts
         [Hin|[[_ ->]|[_ ->]]]%full_plan_elem.
  - apply Hpp in Hin as (lab & person & _ & _ & Hlk & ->). subst c2n.
    apply cluster_to_name_names in Hlk as [i ->].
    destruct (person_name_not_shared i) as (_ & _ & Hne & Hrep).
    exists (person_name i). split; [done|]. by apply in_bucket_joinpath.
  - exists "__group_only__". split; [done|]. by apply in_bucket_joinpath.
  - exists "__unknown__". split; [done|]. by apply in_bucket_joinpath.
Qed.

Lemma report_not_in_bucket x d :
  x ≠ "clustering_report.csv" -> in_bucket out_dir x d ->
  ~ d `prefix_of` report_path out_dir.
Proof.
  unfold in_bucket, report_path. rewrite joinpath_nonempty by done.
  intros Hx Hb Hd. assert (out_dir ++ [x] `prefix_of`
    out_dir ++ ["clustering_report.csv"]) as Hpre by (by etrans).
  apply prefix_app_inv, prefix_cons_inv_1 in Hpre. done.
Qed.

Lemma route_raise_report_untouched fs e fs' :
  route_by_clusters order records labels out_dir group_thr fs = (Raise e, fs') ->
  fs_files fs' !! report_path out_dir = fs_files fs !! report_path out_dir /\
  fs_dirs fs ⊆ fs_dirs fs' /\
  exists evs, fs_copied fs' = fs_copied fs ++ evs.
Proof.
  intros Hrun.
  destruct (route_plan_total order records labels out_dir group_thr)
    as (E & pp & st & Hplan & _). simpl in Hplan.
  assert (forall s d, (s, d) ∈ full_plan order out_dir pp st ->
            ~ d `prefix_of` report_path out_dir) as Hfree.
  { intros s d (x & Hx & Hb)%(full_plan_bucket _ _ _ _ _ _ Hplan).
    by apply (report_not_in_bucket x). }
  pose proof (route_by_clusters_shape _ _ _ _ _ _ _ _ _ _ _ _ Hplan Hrun)
    as Hshape.
  inversion Hshape as [e' fs1 HA|e' fsA fs1 HA HB|e' fsA fsB HA HB HC|]; subst.
  - apply for_each_ensure_dir_spec in HA as ((-> & _ & -> & Hd) & _).
    split_and!; [done..|]. exists []. by rewrite app_nil_r.
  - apply for_each_ensure_dir_spec in HA as ((HfA & _ & HcA & HdA) & _).
    pose proof (exec_frame _ _ _ _ _ HB Hfree) as Hf.
    apply exec_spec in HB as (evs & Hc & _ & Hd & _).
    split_and!; [etrans; [exact Hf|by rewrite HfA]|by rewrite Hd|].
    exists evs. by rewrite Hc, HcA.
  - apply for_each_ensure_dir_spec in HA as ((HfA & _ & HcA & HdA) & _).
    pose proof (exec_frame _ _ _ _ _ HB Hfree) as Hf.
    apply exec_spec in HB as (evs & Hc & _ & Hd & _).
    split_and!; [etrans; [exact Hf|by rewrite HfA]|by rewrite Hd|].
    exists evs. by rewrite Hc, HcA.
Qed.

Lemma exec_stops_at_failure done s d rest fsA fsB e :
  exec done fsA = (Ok tt, fsB) ->
  copy_unless_file s d fsB = (Raise e, fsB) ->
  exec (done ++ (s, d) :: rest) fsA = (Raise e, fsB).
Proof.
  intros Hdone Hfail. rewrite exec_app. unfold bind. rewrite Hdone.
  rewrite exec_cons. by rewrite Hfail.
Qed.

(** C5 (amended). [route_by_clusters] has no handler around its copies.
    When the guarded copy of some planned entry fails, after the
    directories were created and the entries before it went through, the
    call ends at once with that exception in the state the failing copy
    found: the entries after it are not attempted.  Whenever the call ends
    with an exception, the report has not been written, while directories
    and copies made before stay. *)
Theorem C5_failed_copy_aborts_the_call
    (fs : FS) (E : gset Z) (c2n : list (Z * string))
    (pp : list (path * path)) (st : RouteState)
    (done rest : list (path * path)) (s d : path) (fsA fsB : FS) (e : exn) :
  route_plan order records labels out_dir group_thr = Ok (E, c2n, pp, st) ->
  full_plan order out_dir pp st = done ++ (s, d) :: rest ->
  for_each ensure_dir (all_dirs out_dir c2n) fs = (Ok tt, fsA) ->
  exec done fsA = (Ok tt, fsB) ->
  copy_unless_file s d fsB = (Raise e, fsB) ->
  route_by_clusters order records labels out_dir group_thr fs = (Raise e, fsB)
  /\ fs_files fsB !! report_path out_dir = fs_files fs !! report_path out_dir
  /\ (exists evs, fs_copied fsB = fs_copied fs ++ evs /\ evs `sublist_of` done)
  /\ forall fs0 e0 fs1,
       route_by_clusters order records labels out_dir group_thr fs0
         = (Raise e0, fs1) ->
       fs_files fs1 !! report_path out_dir
         = fs_files fs0 !! report_path out_dir.
Proof.
  intros Hplan Hfp HA Hdone Hfail.
  assert (route_by_clusters order records labels out_dir group_thr fs
          = (Raise e, fsB)) as Hrun.
  { rewrite (route_by_clusters_eq _ _ _ _ _ _ _ _ _ _ Hplan).
    unfold bind at 1. rewrite mkdirs_eq, HA. unfold bind at 1.
    by rewrite Hfp, (exec_stops_at_failure _ _ _ _ _ _ _ Hdone Hfail). }
  split_and!; [done| | |].
  - by apply route_raise_report_untouched in Hrun as [? _].
  - apply for_each_ensure_dir_spec in HA as ((_ & _ & HcA & _) & _).
    apply exec_spec in Hdone as (evs & Hc & Hsub & _).
    exists evs. by rewrite Hc, HcA.
  - intros fs0 e0 fs1 Hr. by apply route_raise_report_untouched in Hr as [? _].
Qed.

End Failure.

(** ** Where an image ends up *)

Section Coverage.
Context (order : SetOrder).
Context (records : list FaceRec) (labels : list Z).
Context (out_dir : path) (group_thr : Z).

(** Why an entry is in the plan. *)
Lemma full_plan_cases E c2n pp st s d :
  route_plan order records labels out_dir group_thr = Ok (E, c2n, pp, st) ->
  (s, d) ∈ full_plan order out_dir pp st <->
  (exists lab i, on_image records labels s lab /\ lab ∈ E /\
     dict_lookup c2n lab = Some (person_name i) /\
     d = person_dst out_dir s (person_name i)) \/
  ((exists lab, on_image records labels s lab /\ (lab ∉ E) /\ lab ≠ noise) /\
   d = joinpath (group_only_dir out_dir) (name s)) \/
  (((exists lab, on_image records labels s lab) /\
    forall lab, on_image records labels s lab -> lab = noise) /\
   d = joinpath (unknown_dir out_dir) (name s)).
Proof.
  intros (Hc & _ & _ & _ & Hpp & Hg & Hu)%route_plan_facts.
  rewrite full_plan_elem, Hpp, Hg, Hu. split.
  - intros [(lab & person & Hon & HE & Hlk & ->)|[?|?]]; [left|by right; left|by right; right].
    assert (exists i, person = person_name i) as [i ->]
      by (subst c2n; by apply cluster_to_name_names in Hlk).
    by exists lab, i.
  - intros [(lab & i & Hon & HE & Hlk & ->)|[?|?]]; [left|by right; left|by right; right].
    by exists lab, (person_name i).
Qed.

Lemma materialized_mono fs fs' s d :
  fs_dirs fs ⊆ fs_dirs fs' -> dom (fs_files fs) ⊆ dom (fs_files fs') ->
  materialized fs s d -> materialized fs' s d.
Proof. unfold materialized. intros Hd Hf [?|[? ?]]; [left|right]; set_solver. Qed.

(** The copies of a call, and what a completed call has put in place. *)
Lemma route_events fs r fs' :
  route_by_clusters order records labels out_dir group_thr fs = (r, fs') ->
  exists E pp st evs,
    route_plan order records labels out_dir group_thr
      = Ok (E, cluster_to_name_of (eligible_sorted_of order E), pp, st) /\
    fs_copied fs' = fs_copied fs ++ evs /\
    evs `sublist_of` full_plan order out_dir pp st /\
    (forall d, d ∉ fs_dirs fs' ->
       (length (filter (fun e => e.2 = d) evs) <= 1)%nat) /\
    (forall v, r = Ok v ->
       v = (cluster_to_name_of (eligible_sorted_of order E),
            report_path out_dir, E) /\
       forall s d, (s, d) ∈ full_plan order out_dir pp st ->
         materialized fs' s d).
Proof.
  intros Hrun.
  destruct (route_plan_total order records labels out_dir group_thr)
    as (E & pp & st & Hplan & _).
  exists E, pp, st.
  pose proof (route_by_clusters_shape _ _ _ _ _ _ _ _ _ _ _ _ Hplan Hrun)
    as Hshape.
  inversion Hshape as [e fs1 HA|e fsA fs1 HA HB|e fsA fsB HA HB HC
                      |fsA fsB HA HB Hd Hl]; subst.
  - apply for_each_ensure_dir_spec in HA as ((_ & _ & Hc & _) & _).
    exists []. rewrite app_nil_r.
    split_and!; [done|done|apply sublist_nil_l| |done].
    intros d _. simpl. lia.
  - apply for_each_ensure_dir_spec in HA as ((_ & _ & Hc & _) & _).
    apply exec_spec in HB as (evs & H1 & H2 & H3 & _ & _ & _ & _ & H8 & _).
    exists evs. rewrite H1, Hc, H3. done.
  - apply for_each_ensure_dir_spec in HA as ((_ & _ & Hc & _) & _).
    apply exec_spec in HB as (evs & H1 & H2 & H3 & _ & _ & _ & _ & H8 & _).
    exists evs. rewrite H1, Hc, H3. done.
  - apply for_each_ensure_dir_spec in HA as ((_ & _ & Hc & _) & _).
    apply exec_spec in HB as (evs & H1 & H2 & H3 & _ & H5 & _ & _ & H8 & H9).
    exists evs. simpl. rewrite H1, Hc, H3.
    split_and!; [done..|]. intros v [= <-]. split; [done|].
    intros s d Hin.
    apply (materialized_mono fsB); simpl; [set_solver| |by apply H9].
    rewrite dom_insert. set_solver.
Qed.


End Coverage.

Lemma noise_not_eligible order records labels out_dir group_thr E c2n pp st :
  route_plan order records labels out_dir group_thr = Ok (E, c2n, pp, st) ->
  noise ∉ E.
Proof.
  intros (_ & _ & HE & _)%route_plan_facts. rewrite HE. by intros [? _].
Qed.


(** ** Records come from detected faces *)

Lemma face_records_elem img faces r :
  r ∈ face_records img faces ->
  img_path r = img /\ is_Some (faces !! face_index r) /\
  faces_in_image r = Z.of_nat (length faces).
Proof.
  unfold face_records, enumerate.
  intros ([idx f] & -> & Hin)%list_elem_of_fmap.
  apply list_elem_of_lookup in Hin as [j Hj].
  rewrite enumerate_from_lookup in Hj.
  destruct (faces !! j) as [f'|] eqn:Hf; [|done].
  simpl in Hj. injection Hj as <- <-. simpl. split_and!; [done| |done].
  by exists f'.
Qed.

Lemma collect_faces_elem c input mf bt ds gid r :
  r ∈ collect_faces c input mf bt ds gid ->
  img_path r ∈ rglob c input /\ is_image (img_path r) = true /\
  blurred c mf bt (img_path r) = false /\
  is_Some (detect c ds gid mf (img_path r) !! face_index r) /\
  faces_in_image r = Z.of_nat (length (detect c ds gid mf (img_path r))).
Proof.
  unfold collect_faces. intros (img & Hr & Himg)%list_elem_of_bind.
  apply list_elem_of_filter in Himg as [Hi Hg].
  destruct (blurred c mf bt img) eqn:Hb; [by apply elem_of_nil in Hr|].
  apply face_records_elem in Hr as (-> & Hf & Hn). done.
Qed.

(** ** New files of a call *)




Section NewFiles.
Context (order : SetOrder).
Context (records : list FaceRec) (labels : list Z).
Context (out_dir : path) (group_thr : Z).


End NewFiles.


Lemma filter_two {A} (P : A -> Prop) `{forall x, Decision (P x)}
    (l : list A) (x y : A) :
  x ≠ y -> x ∈ l -> y ∈ l -> P x -> P y -> (2 <= length (filter P l))%nat.
Proof.
  intros Hne Hx Hy HPx HPy.
  assert (x ∈ filter P l) as Hx' by (by apply list_elem_of_filter).
  assert (y ∈ filter P l) as Hy' by (by apply list_elem_of_filter).
  destruct (filter P l) as [|z [|z' l']]; simpl; [|..|lia].
  - by apply elem_of_nil in Hx'.
  - apply list_elem_of_singleton in Hx', Hy'. congruence.
Qed.


(** * The claims on concrete runs *)

Ltac by_compute :=
  match goal with
  | |- ?P =>
      let d := constr:(_ : Decision P) in
      apply (@bool_decide_unpack P d); vm_compute; exact I
  end.

Lemma on_image_elem records labels src lab :
  on_image records labels src lab <-> (src, lab) ∈ image_labels records labels.
Proof.
  unfold on_image, image_labels. rewrite list_elem_of_fmap. split.
  - intros (i & r & Hf%face_at_zip & <-). exists (r, lab). split; [done|].
    by apply list_elem_of_lookup_2 in Hf.
  - intros ([r l] & [= -> ->] & [i Hi]%list_elem_of_lookup).
    exists i, r. split; [by apply face_at_zip|done].
Qed.

Lemma all_noise_check records labels src :
  Forall (fun sl => sl.1 = src -> sl.2 = noise) (image_labels records labels) ->
  forall lab, on_image records labels src lab -> lab = noise.
Proof.
  rewrite Forall_forall. intros Hall lab Hon%on_image_elem.
  by apply (Hall _ Hon).
Qed.

(** ** The scenario of the specification: images A to D *)

Lemma scenario_run_eq : scenario_run = scenario_result.
Proof. vm_compute. reflexivity. Qed.

Lemma scenario_names_ok : names_ok scenario_records.
Proof.
  intros r Hr. unfold scenario_records in Hr.
  repeat (apply elem_of_cons in Hr as [->|Hr]); try done.
  by apply elem_of_nil in Hr.
Qed.

Lemma scenario_no_nested : no_nested scenario_fs ["out"].
Proof. intros q Hq. by apply not_elem_of_empty in Hq. Qed.


(** Witness of C2: in the scenario cluster 0 is eligible, cluster 1, seen
    only on the four-face image C, is not. *)
Lemma C2_witness :
  exists E, eligible_clusters_of scenario_records scenario_labels 3 = Ok E /\
    0 ∈ E /\ (1 ∉ E) /\ (noise ∉ E).
Proof.
  destruct (C2_eligibility_iff_personal_member scenario_records
              scenario_labels 3) as (E & HE & Hspec & Hmin & Hn & _).
  exists E. split_and!; [done| | |done].
  - apply Hspec. split; [done|]. exists 0%nat, (rec_of imgA 0 1).
    split; [done|]. simpl. lia.
  - destruct (Hmin 1) as (m & Hm & Hiff); [done| |].
    { exists 3%nat, (rec_of imgC 1 4). done. }
    vm_compute in Hm. injection Hm as <-. rewrite Hiff. lia.
Defined.

(** Witness of C6: the scenario with its first two records exchanged. *)
Lemma C6_witness :
  exists E, eligible_clusters_of scenario_records scenario_labels 3 = Ok E /\
    eligible_clusters_of swapped_records scenario_labels 3 = Ok E /\
    cluster_to_name_of (eligible_sorted_of elements_order E) !! 0%nat
      = (fun cl => (cl, "person_000")) <$>
          eligible_sorted_of elements_order E !! 0%nat.
Proof.
  destruct (C6_naming_sorted_and_deterministic elements_order elements_order
              scenario_records swapped_records scenario_labels scenario_labels 3)
    as (E & H1 & H2 & _ & _ & H5 & _).
  { simpl. apply perm_swap. }
  exists E. split_and!; [done..|]. apply (H5 0%nat).
Defined.

(** Witness of C10: a call without records on the scenario's disk. *)
Lemma C10_witness :
  mkdir_possible scenario_fs ["out"] /\
  ["out"; "__unknown__"] ∈
    fs_dirs (route_by_clusters elements_order [] [] ["out"] 3 scenario_fs).2 /\
  ["out"; "__group_only__"] ∈
    fs_dirs (route_by_clusters elements_order [] [] ["out"] 3 scenario_fs).2 /\
  fs_copied (route_by_clusters elements_order [] [] ["out"] 3 scenario_fs).2
    = [].
Proof.
  assert (mkdir_possible scenario_fs ["out"]) as Hposs.
  { intros p Hp. repeat (apply elem_of_cons in Hp as [->|Hp]);
      [by_compute..|by apply elem_of_nil in Hp]. }
  destruct (C10_shared_buckets_always_created elements_order [] [] ["out"] 3
              scenario_fs
              (route_by_clusters elements_order [] [] ["out"] 3 scenario_fs).1
              (route_by_clusters elements_order [] [] ["out"] 3 scenario_fs).2)
    as (Hu & Hg & _ & _ & Hc).
  { apply surjective_pairing. }
  { by right. }
  split_and!; [done|exact Hu|exact Hg|exact (Hc eq_refl)].
Defined.

(** ** A camera roll for the pipeline *)

(** Witness of C8: a run in which extraction finds no face. *)
Lemma C8_witness :
  main blind_camera elements_order (args_of 2) camera_fs
  = (Ok NoUsableFaces, camera_fs).
Proof.
  destruct (C8_empty_input_produces_nothing blind_camera elements_order
              (args_of 2) camera_fs []) as (_ & _ & H).
  apply H. vm_compute. reflexivity.
Defined.

(** Counterexample to C7: with [min_samples = -1] and no usable face the
    run does not fail at all; extraction has run and the result is the
    normal "no usable faces" exit. *)
Lemma C7_counterexample :
  min_samples (args_of (-1)) < 0 /\
  main blind_camera elements_order (args_of (-1)) camera_fs
  = (Ok NoUsableFaces, camera_fs).
Proof. split; [done|]. vm_compute. reflexivity. Qed.

(** Witness of C7 (amended): with a face on image A the same
    [min_samples = -1] is rejected by the clusterer, after extraction. *)
Lemma C7_witness :
  collect_faces camera ["in"] 110 45%float 640 0 ≠ [] /\
  main camera elements_order (args_of (-1)) camera_fs
  = (Raise InvalidParameterError, camera_fs).
Proof.
  destruct (C7_parameters_reach_clusterer_unchecked camera elements_order
              (args_of (-1)) camera_fs) as (_ & H & _).
  assert (collect_faces camera ["in"] 110 45%float 640 0 ≠ []) as Hne
    by (vm_compute; discriminate).
  split; [exact Hne|]. apply H; [exact Hne|]. vm_compute. reflexivity.
Defined.





(** ** Two images called a.jpg *)


(** ** A destination that cannot be written *)

(** Counterexample to C5: the copy of image A into [person_000] fails with
    a permission error; the call ends with that error, image B, which
    could have been copied, is copied nowhere, and no report is written. *)
Lemma C5_counterexample :
  exists fs',
    route_by_clusters elements_order locked_records locked_labels ["out"] 3
      locked_fs = (Raise PermissionError, fs') /\
    fs_copied fs' = [] /\
    fs_files fs' !! ["out"; "person_000"; "B__person_000.jpg"] = None /\
    fs_files fs' !! ["out"; "clustering_report.csv"] = None /\
    fs_files fs' !! imgB = Some (Blob 2).
Proof.
  eexists. split; [vm_compute; reflexivity|]. split_and!; reflexivity.
Qed.

(** Witness of C5 (amended): the same run, stopped at its first planned
    copy. *)
Lemma C5_witness :
  route_by_clusters elements_order locked_records locked_labels ["out"] 3
    locked_fs = (Raise PermissionError, locked_dirs.2).
Proof.
  refine (proj1 (C5_failed_copy_aborts_the_call elements_order locked_records
            locked_labels ["out"] 3 locked_fs {[0]} [(0, "person_000")]
            [(imgA, ["out"; "person_000"; "A__person_000.jpg"]);
             (imgB, ["out"; "person_000"; "B__person_000.jpg"])]
            (mkRouteState
               {[("person_000", imgA); ("person_000", imgB)]} ∅ ∅
               [mkLogRow "A.jpg" "person_000" 0 1 0%float
                  "eligible_person_image";
                mkLogRow "B.jpg" "person_000" 0 1 0%float
                  "eligible_person_image"])
            [] [(imgB, ["out"; "person_000"; "B__person_000.jpg"])]
            imgA ["out"; "person_000"; "A__person_000.jpg"]
            locked_dirs.2 locked_dirs.2 PermissionError _ _ _ _ _)).
  - vm_compute. reflexivity.
  - vm_compute. reflexivity.
  - vm_compute. reflexivity.
  - reflexivity.
  - vm_compute. reflexivity.
Defined.

(** * Further properties of the code *)

(** ** A call seen as two phases and a report *)

Section RunPhases.
Context (order : SetOrder).
Context (records : list FaceRec) (labels : list Z).
Context (out_dir : path) (group_thr : Z).

(** However a call ends, its final state is the state after the directory
    phase followed by a replay of either nothing or the whole plan, with the
    report written on top when the call returns. *)
Lemma route_phases E c2n pp st fs r fs' :
  route_plan order records labels out_dir group_thr = Ok (E, c2n, pp, st) ->
  route_by_clusters order records labels out_dir group_thr fs = (r, fs') ->
  exists rA fsA plan' rB fsB,
    for_each ensure_dir (all_dirs out_dir c2n) fs = (rA, fsA) /\
    exec plan' fsA = (rB, fsB) /\
    (plan' = [] \/ plan' = full_plan order out_dir pp st) /\
    fs_dirs fs' = fs_dirs fsB /\ fs_locked fs' = fs_locked fsB /\
    fs_copied fs' = fs_copied fsB /\
    ((fs_files fs' = fs_files fsB /\ forall v, r ≠ Ok v) \/
     (r = Ok (c2n, report_path out_dir, E) /\ rA = Ok tt /\ rB = Ok tt /\
      plan' = full_plan order out_dir pp st /\
      fs_files fs' =
        <[report_path out_dir := Csv report_header (log st)]> (fs_files fsB))).
Proof.
  intros Hplan Hrun.
  pose proof (route_by_clusters_shape _ _ _ _ _ _ _ _ _ _ _ _ Hplan Hrun)
    as Hshape.
  inversion Hshape as [e fs1 HA|e fsA fs1 HA HB|e fsA fsB HA HB HC
                      |fsA fsB HA HB Hd Hl]; subst.
  - exists (Raise e), fs', [], (Ok tt), fs'.
    split_and!; [done|apply exec_nil|by left|done..|].
    left. split; [done|]. intros v [=].
  - exists (Ok tt), fsA, (full_plan order out_dir pp st), (Raise e), fs'.
    split_and!; [done|done|by right|done..|].
    left. split; [done|]. intros v [=].
  - exists (Ok tt), fsA, (full_plan order out_dir pp st), (Ok tt), fs'.
    split_and!; [done|done|by right|done..|].
    left. split; [done|]. intros v [=].
  - exists (Ok tt), fsA, (full_plan order out_dir pp st), (Ok tt), fsB.
    split_and!; [done|done|by right|done..|].
    right. done.
Qed.

End RunPhases.
(** ** What a call leaves alone *)

Section Frame.
Context (order : SetOrder).
Context (records : list FaceRec) (labels : list Z).
Context (out_dir : path) (group_thr : Z).

Lemma planned_under_root E c2n pp st s d :
  route_plan order records labels out_dir group_thr = Ok (E, c2n, pp, st) ->
  (s, d) ∈ full_plan order out_dir pp st -> out_dir `prefix_of` d.
Proof.
  intros Hplan Hin.
  destruct (full_plan_bucket order records labels out_dir group_thr
              E c2n pp st s d Hplan Hin) as (x & _ & Hb).
  unfold in_bucket in Hb. etrans; [|exact Hb]. by apply prefix_app_r.
Qed.

Lemma report_under_root : out_dir `prefix_of` report_path out_dir.
Proof. apply joinpath_prefix. Qed.

(** X1. A call of [route_by_clusters], however it ends, changes nothing
    outside the output root: a path that does not extend [out_dir] holds
    the same file, or no file, as before.  No file and no directory is
    removed anywhere, and the write protection is left as it was. *)
Theorem X1_nothing_changes_outside_the_output_root
    (fs : FS) (r : res (list (Z * string) * path * gset Z)) (fs' : FS) :
  route_by_clusters order records labels out_dir group_thr fs = (r, fs') ->
  (forall q : path, ~ out_dir `prefix_of` q ->
     fs_files fs' !! q = fs_files fs !! q) /\
  dom (fs_files fs) ⊆ dom (fs_files fs') /\
  fs_dirs fs ⊆ fs_dirs fs' /\
  fs_locked fs' = fs_locked fs.
Proof.
  intros Hrun.
  destruct (route_plan_total order records labels out_dir group_thr)
    as (E & pp & st & Hplan & _). simpl in Hplan.
  destruct (route_phases order records labels out_dir group_thr _ _ _ _ _ _ _
              Hplan Hrun)
    as (rA & fsA & plan' & rB & fsB & HA & HB & Hsub & Hd & Hl & Hc & Hf).
  apply for_each_ensure_dir_spec in HA as ((FA & LA & CA & DA) & _).
  assert (forall (s d : path), (s, d) ∈ plan' -> out_dir `prefix_of` d) as Hroot.
  { intros s d Hin. destruct Hsub as [->| ->]; [by apply elem_of_nil in Hin|].
    by eapply planned_under_root. }
  assert (forall q : path, ~ out_dir `prefix_of` q ->
            fs_files fsB !! q = fs_files fs !! q) as Hframe.
  { intros q Hq. rewrite <- FA.
    apply (exec_frame _ _ _ _ _ HB). intros s d Hin Hpre.
    apply Hq. etrans; [by eapply Hroot|done]. }
  apply exec_spec in HB as (evs & _ & _ & DB & LB & WB & _).
  split_and!.
  - intros q Hq. destruct Hf as [[-> _]|(_ & _ & _ & _ & ->)]; [by apply Hframe|].
    rewrite lookup_insert_ne; [by apply Hframe|].
    intros <-. apply Hq, report_under_root.
  - rewrite <- FA. etrans; [exact WB|].
    destruct Hf as [[-> _]|(_ & _ & _ & _ & ->)]; [done|].
    rewrite dom_insert. set_solver.
  - rewrite Hd, DB. done.
  - by rewrite Hl, LB.
Qed.

End Frame.

(** ** Copies never overwrite *)

(** A plan whose destinations are not directories only adds files, each
    with the content of its source. *)
Lemma exec_faithful p : forall fs r fs',
  exec p fs = (r, fs') ->
  (forall (s d : path), (s, d) ∈ p -> d ∉ fs_dirs fs) ->
  (forall (q : path) c, fs_files fs !! q = Some c -> fs_files fs' !! q = Some c) /\
  exists evs, fs_copied fs' = fs_copied fs ++ evs /\
    forall (s d : path), (s, d) ∈ evs ->
      (s, d) ∈ p /\ (d ∉ dom (fs_files fs)) /\
      exists c, fs_files fs' !! d = Some c /\ fs_files fs' !! s = Some c.
Proof.
  induction p as [|[s d] p IH]; intros fs r fs' Hrun Hnd.
  - rewrite exec_nil in Hrun. injection Hrun as <- <-. split; [done|].
    exists []. rewrite app_nil_r. split; [done|].
    intros s d Hin. by apply elem_of_nil in Hin.
  - rewrite exec_cons in Hrun.
    assert (forall (s0 d0 : path), (s0, d0) ∈ p -> d0 ∉ fs_dirs fs) as Hnd'.
    { intros s0 d0 Hin. apply (Hnd s0). by apply elem_of_cons; right. }
    destruct (copy_unless_file_cases s d fs)
      as [[Hd HC]|[[Hd [e HC]]|[Hd (c & Hs & _ & _ & HC)]]];
      rewrite HC in Hrun.
    + destruct (IH _ _ _ Hrun Hnd') as (Hkeep & evs & Hc & Hev).
      split; [done|]. exists evs. split; [done|].
      intros s0 d0 Hin. destruct (Hev _ _ Hin) as (H1 & H2 & H3).
      split_and!; [by apply elem_of_cons; right|done..].
    + injection Hrun as <- <-. split; [done|].
      exists []. rewrite app_nil_r. split; [done|].
      intros s0 d0 Hin. by apply elem_of_nil in Hin.
    + assert (copy_target fs s d = d) as Ht.
      { unfold copy_target. rewrite decide_False; [done|].
        apply (Hnd s). by apply elem_of_cons; left. }
      rewrite Ht in Hrun.
      destruct (IH _ _ _ Hrun Hnd') as (Hkeep & evs & Hc & Hev).
      simpl in Hkeep, Hc, Hev.
      assert (s ≠ d) as Hsd.
      { intros ->. apply Hd. apply elem_of_dom. by eexists. }
      split.
      * intros q c0 Hq. apply Hkeep. rewrite lookup_insert_ne; [done|].
        intros <-. apply Hd. apply elem_of_dom. by eexists.
      * exists ((s, d) :: evs). split; [by rewrite Hc, <- app_assoc|].
        intros s0 d0 [Heq|Hin]%elem_of_cons.
        -- inversion Heq; subst s0 d0.
           split_and!; [by apply elem_of_cons; left|done|].
           exists c. split; apply Hkeep.
           ++ by rewrite lookup_insert_eq.
           ++ by rewrite lookup_insert_ne.
        -- destruct (Hev _ _ Hin) as (H1 & H2 & H3).
           split_and!; [by apply elem_of_cons; right| |done].
           intros Hin'. apply H2. rewrite dom_insert. set_solver.
Qed.

Section NoOverwrite.
Context (order : SetOrder).
Context (records : list FaceRec) (labels : list Z).
Context (out_dir : path) (group_thr : Z).

(** With named images and no directory inside a bucket, no planned
    destination is a directory once the directories of the call exist. *)
Lemma planned_not_dir E c2n pp st fs rA fsA s d :
  route_plan order records labels out_dir group_thr = Ok (E, c2n, pp, st) ->
  names_ok records -> no_nested fs out_dir ->
  for_each ensure_dir (all_dirs out_dir c2n) fs = (rA, fsA) ->
  (s, d) ∈ full_plan order out_dir pp st -> d ∉ fs_dirs fsA.
Proof.
  intros Hplan Hnames Hnest HA Hin Hd.
  pose proof (route_plan_facts records labels out_dir group_thr
                order E c2n pp st Hplan) as (Hc & _).
  destruct (full_plan_shape records labels out_dir group_thr
              order E c2n pp st s d Hplan Hnames Hin) as (x & f & ->).
  apply for_each_ensure_dir_spec in HA as (_ & GA & _).
  destruct (GA _ Hd) as [Hd0|(p & Hp & Hq)].
  - assert (out_dir `prefix_of` out_dir ++ [x; f]) as Hpre
      by (by apply prefix_app_r).
    pose proof (Hnest _ Hd0 Hpre) as Hlen.
    rewrite length_app in Hlen. simpl in Hlen. lia.
  - subst c2n. destruct (all_dirs_shape out_dir order E p _ Hp Hq) as [Hl _].
    rewrite length_app in Hl. simpl in Hl. lia.
Qed.

Lemma route_faithful
    (fs : FS) (r : res (list (Z * string) * path * gset Z)) (fs' : FS) :
  names_ok records -> no_nested fs out_dir ->
  route_by_clusters order records labels out_dir group_thr fs = (r, fs') ->
  (forall (q : path) c, fs_files fs !! q = Some c -> q ≠ report_path out_dir ->
     fs_files fs' !! q = Some c) /\
  exists evs, fs_copied fs' = fs_copied fs ++ evs /\
    forall (s d : path), (s, d) ∈ evs ->
      (d ∉ dom (fs_files fs)) /\
      is_Some (fs_files fs' !! d) /\
      (forall c, fs_files fs !! s = Some c -> fs_files fs' !! d = Some c) /\
      (s ≠ report_path out_dir -> fs_files fs' !! d = fs_files fs' !! s).
Proof.
  intros Hnames Hnest Hrun.
  destruct (route_plan_total order records labels out_dir group_thr)
    as (E & pp & st & Hplan & _). simpl in Hplan.
  destruct (route_phases order records labels out_dir group_thr _ _ _ _ _ _ _
              Hplan Hrun)
    as (rA & fsA & plan' & rB & fsB & HA & HB & Hsub & Hd & Hl & Hc & Hf).
  assert (forall (s d : path), (s, d) ∈ plan' ->
            (s, d) ∈ full_plan order out_dir pp st) as Hfull.
  { intros s d Hin. destruct Hsub as [->| ->]; [by apply elem_of_nil in Hin|done]. }
  assert (forall (s d : path), (s, d) ∈ plan' -> d ∉ fs_dirs fsA) as Hnd.
  { intros s d Hin. eapply planned_not_dir; eauto. }
  destruct (exec_faithful _ _ _ _ HB Hnd) as (Hkeep & evs & HcB & Hev).
  apply for_each_ensure_dir_spec in HA as ((FA & LA & CA & DA) & _).
  rewrite FA in Hkeep.
  assert (forall (q : path), q ≠ report_path out_dir ->
            fs_files fs' !! q = fs_files fsB !! q) as Hsame.
  { intros q Hq. destruct Hf as [[-> _]|(_ & _ & _ & _ & ->)]; [done|].
    by rewrite lookup_insert_ne. }
  assert (forall (s d : path), (s, d) ∈ plan' -> d ≠ report_path out_dir) as Hnr.
  { intros s d Hin%Hfull ->.
    destruct (full_plan_bucket order records labels out_dir group_thr
                E _ pp st s _ Hplan Hin) as (x & Hx & Hb).
    by apply (report_not_in_bucket out_dir x (report_path out_dir)). }
  split.
  - intros q c Hq Hne. rewrite Hsame by done. by apply Hkeep.
  - exists evs. split; [by rewrite Hc, HcB, CA|].
    intros s d Hin. destruct (Hev s d Hin) as (Hp & Hnew & c & Hcd & Hcs).
    rewrite FA in Hnew. pose proof (Hnr s d Hp) as Hdr.
    split_and!; [done| | |].
    + rewrite Hsame by done. by eexists.
    + intros c0 Hs0. rewrite Hsame by done.
      apply Hkeep in Hs0. congruence.
    + intros Hsr. rewrite !Hsame by done. congruence.
Qed.

(** X2. With records that name files and no directory inside a bucket
    beforehand, a call of [route_by_clusters], however it ends, overwrites
    no file: every file that existed keeps its content, the report alone
    excepted.  Every copy of the call creates a file that was not there,
    and at the end that file holds what the source held before the call
    and, for a source other than the report, what the source holds now. *)
Theorem X2_copies_never_overwrite_and_are_faithful
    (fs : FS) (r : res (list (Z * string) * path * gset Z)) (fs' : FS) :
  names_ok records -> no_nested fs out_dir ->
  route_by_clusters order records labels out_dir group_thr fs = (r, fs') ->
  (forall (q : path) c, fs_files fs !! q = Some c -> q ≠ report_path out_dir ->
     fs_files fs' !! q = Some c) /\
  exists evs, fs_copied fs' = fs_copied fs ++ evs /\
    forall (s d : path), (s, d) ∈ evs ->
      (d ∉ dom (fs_files fs)) /\
      is_Some (fs_files fs' !! d) /\
      (forall c, fs_files fs !! s = Some c -> fs_files fs' !! d = Some c) /\
      (s ≠ report_path out_dir -> fs_files fs' !! d = fs_files fs' !! s).
Proof. apply route_faithful. Qed.

End NoOverwrite.

(** ** The directories of a call *)

Lemma prefixes_snoc (p : path) (x : string) (q : path) :
  q ∈ prefixes (p ++ [x]) -> q ∈ prefixes p \/ q = p ++ [x].
Proof.
  intros (n & Hn & ->)%elem_of_prefixes. rewrite length_app in Hn. simpl in Hn.
  destruct (decide (n <= length p)%nat) as [Hle|Hgt].
  - left. apply elem_of_prefixes. exists n. split; [lia|].
    by rewrite take_app_le.
  - right. apply take_ge. rewrite length_app. simpl. lia.
Qed.

Lemma prefixes_nonempty (p q : path) : q ∈ prefixes p -> q ≠ [].
Proof.
  intros (n & Hn & ->)%elem_of_prefixes Hnil.
  apply (f_equal length) in Hnil. rewrite length_take in Hnil. simpl in Hnil. lia.
Qed.

Lemma cluster_to_name_lookup_inv (l : list Z) lab person :
  dict_lookup (cluster_to_name_of l) lab = Some person ->
  exists i, l !! i = Some lab /\ person = person_name i.
Proof.
  intros Hin%dict_lookup_Some.
  apply list_elem_of_lookup in Hin as [i Hi].
  rewrite cluster_to_name_lookup in Hi.
  destruct (l !! i) as [cl|] eqn:Hl; [|done].
  injection Hi as -> <-. by exists i.
Qed.

Lemma cluster_to_name_values_inv (l : list Z) person :
  person ∈ (cluster_to_name_of l).*2 <->
  exists i, (i < length l)%nat /\ person = person_name i.
Proof.
  rewrite list_elem_of_fmap. split.
  - intros ([lab p] & -> & Hin). apply list_elem_of_lookup in Hin as [i Hi].
    rewrite cluster_to_name_lookup in Hi.
    destruct (l !! i) as [cl|] eqn:Hl; [|done].
    injection Hi as -> <-. exists i. split; [|done].
    by apply lookup_lt_Some in Hl.
  - intros (i & Hi & ->). apply lookup_lt_is_Some in Hi as [cl Hcl].
    exists (cl, person_name i). split; [done|].
    apply list_elem_of_lookup. exists i.
    by rewrite cluster_to_name_lookup, Hcl.
Qed.

Lemma eligible_sorted_length order (E : gset Z) :
  length (eligible_sorted_of order E) = size E.
Proof. by rewrite (eligible_sorted_perm order E). Qed.

Section Directories.
Context (order : SetOrder).
Context (records : list FaceRec) (labels : list Z).
Context (out_dir : path) (group_thr : Z).

(** X3. The only directories a call of [route_by_clusters] can add are the
    output root with its ancestors, the two shared buckets and the folders
    [person_000] to [person_(n-1)], where [n] is the number of eligible
    clusters.  After a call that returns, all [n] person folders exist, a
    label has a folder name exactly when it is eligible, and two labels
    never share a folder. *)
Theorem X3_person_folders_match_eligible_clusters
    (fs : FS) (r : res (list (Z * string) * path * gset Z)) (fs' : FS) :
  route_by_clusters order records labels out_dir group_thr fs = (r, fs') ->
  exists E, eligible_clusters_of records labels group_thr = Ok E /\
    (forall q : path, q ∈ fs_dirs fs' ->
       q ∈ fs_dirs fs \/ (q ≠ [] /\ q `prefix_of` out_dir) \/
       q = unknown_dir out_dir \/ q = group_only_dir out_dir \/
       exists i, (i < size E)%nat /\ q = out_dir ++ [person_name i]) /\
    (forall v, r = Ok v ->
       v.2 = E /\
       (forall i, (i < size E)%nat ->
          out_dir ++ [person_name i] ∈ fs_dirs fs') /\
       (forall lab, is_Some (dict_lookup v.1.1 lab) <-> lab ∈ E) /\
       (forall lab person, dict_lookup v.1.1 lab = Some person ->
          (exists i, (i < size E)%nat /\ person = person_name i) /\
          joinpath out_dir person ∈ fs_dirs fs') /\
       (forall lab1 lab2 person,
          dict_lookup v.1.1 lab1 = Some person ->
          dict_lookup v.1.1 lab2 = Some person -> lab1 = lab2)).
Proof.
  intros Hrun.
  destruct (route_plan_total order records labels out_dir group_thr)
    as (E & pp & st & Hplan & HE & _). simpl in Hplan.
  set (l := eligible_sorted_of order E) in *.
  set (c2n := cluster_to_name_of l) in *.
  assert (length l = size E) as Hlen by apply eligible_sorted_length.
  destruct (route_phases order records labels out_dir group_thr _ _ _ _ _ _ _
              Hplan Hrun)
    as (rA & fsA & plan' & rB & fsB & HA & HB & Hsub & Hd & Hl & Hc & Hf).
  apply exec_spec in HB as (_ & _ & _ & DB & _).
  rewrite DB in Hd. rewrite Hd.
  apply for_each_ensure_dir_spec in HA as (_ & GA & OkA).
  assert (forall i, (i < size E)%nat ->
            joinpath out_dir (person_name i) ∈ all_dirs out_dir c2n) as Hall.
  { intros i Hi. unfold all_dirs. do 3 (apply elem_of_cons; right).
    apply list_elem_of_fmap. exists (person_name i). split; [done|].
    apply cluster_to_name_values_inv. exists i. split; [lia|done]. }
  assert (forall i, joinpath out_dir (person_name i) = out_dir ++ [person_name i])
    as Hjoin.
  { intros i. apply joinpath_nonempty. apply person_name_not_shared. }
  exists E. split; [done|]. split.
  - intros q Hq. destruct (GA q Hq) as [?|(p & Hp & Hqp)]; [by left|]. right.
    unfold all_dirs in Hp.
    apply elem_of_cons in Hp as [->|Hp].
    { left. split; [by eapply prefixes_nonempty|by apply prefixes_prefix]. }
    assert (forall x : string, x ≠ "" -> p = joinpath out_dir x ->
              (q ≠ [] /\ q `prefix_of` out_dir) \/ q = joinpath out_dir x) as Hx.
    { intros x Hx ->. rewrite joinpath_nonempty in * by done.
      apply prefixes_snoc in Hqp as [Hqp| ->]; [left|by right].
      split; [by eapply prefixes_nonempty|by apply prefixes_prefix]. }
    apply elem_of_cons in Hp as [->|Hp].
    { destruct (Hx "__unknown__") as [?| ->]; [done|done|by left|by right; left]. }
    apply elem_of_cons in Hp as [->|Hp].
    { destruct (Hx "__group_only__") as [?| ->];
        [done|done|by left|by right; right; left]. }
    apply list_elem_of_fmap in Hp as (person & -> & Hperson).
    apply cluster_to_name_values_inv in Hperson as (i & Hi & ->).
    destruct (Hx (person_name i)) as [?| ->];
      [apply person_name_not_shared|done|by left|].
    right. right. right. exists i. split; [lia|]. apply Hjoin.
  - intros v ->.
    destruct Hf as [[_ Hno]|(Hv & -> & _)]; [by destruct (Hno v)|].
    injection Hv as ->. simpl. specialize (OkA eq_refl).
    split; [done|]. split_and!.
    + intros i Hi. rewrite <- Hjoin.
      apply (OkA (joinpath out_dir (person_name i))); [by apply Hall|].
      apply prefixes_self. rewrite Hjoin. by destruct out_dir.
    + intros lab. split.
      * intros [person (i & Hi & _)%cluster_to_name_lookup_inv].
        apply (eligible_sorted_elem order). by eapply list_elem_of_lookup_2.
      * intros Hlab.
        destruct (cluster_to_name_get order E lab Hlab) as (i & _ & Hi).
        by eexists.
    + intros lab person (i & Hi & ->)%cluster_to_name_lookup_inv.
      assert (i < size E)%nat as Hlt.
      { rewrite <- Hlen. by apply lookup_lt_Some in Hi. }
      split; [by exists i|].
      apply (OkA (joinpath out_dir (person_name i))); [by apply Hall|].
      apply prefixes_self. rewrite Hjoin. by destruct out_dir.
    + intros lab1 lab2 person (i & Hi & ->)%cluster_to_name_lookup_inv
        (j & Hj & Heq)%cluster_to_name_lookup_inv.
      apply person_name_inj in Heq as ->. congruence.
Qed.

End Directories.

(** ** The report *)

Section OmapMerge.
Context {A B : Type}.
Implicit Types (f g h : A -> option B) (l : list A).

Lemma omap_ext_elem f g l :
  (forall x, x ∈ l -> f x = g x) -> omap f l = omap g l.
Proof.
  intros H. apply list_omap_ext. apply Forall2_same_length_lookup_2; [done|].
  intros i x y Hx Hy. assert (x = y) as <- by congruence.
  apply H. by eapply list_elem_of_lookup_2.
Qed.

Lemma omap_none f l : (forall x, x ∈ l -> f x = None) -> omap f l = [].
Proof.
  induction l as [|x l IH]; intros H; [done|]. csimpl.
  rewrite (H x) by (by apply elem_of_cons; left).
  apply IH. intros y Hy. apply H. by apply elem_of_cons; right.
Qed.

(** Two selections that never pick the same element add up. *)
Lemma omap_merge f g h l :
  (forall x, x ∈ l ->
     (f x = h x /\ g x = None) \/ (f x = None /\ g x = h x)) ->
  omap f l ++ omap g l ≡ₚ omap h l.
Proof.
  induction l as [|x l IH]; intros H; [done|]. csimpl.
  assert (omap f l ++ omap g l ≡ₚ omap h l) as IH'.
  { apply IH. intros y Hy. apply H. by apply elem_of_cons; right. }
  destruct (H x) as [[Hf Hg]|[Hf Hg]]; [by apply elem_of_cons; left|..];
    rewrite Hf, Hg; destruct (h x) as [y|]; simpl; try done.
  - by rewrite IH'.
  - by rewrite <- Permutation_middle, IH'.
Qed.

Lemma omap_merge3 f1 f2 f3 h l :
  (forall x, x ∈ l ->
     (f1 x = h x /\ f2 x = None /\ f3 x = None) \/
     (f1 x = None /\ f2 x = h x /\ f3 x = None) \/
     (f1 x = None /\ f2 x = None /\ f3 x = h x)) ->
  omap f1 l ++ omap f2 l ++ omap f3 l ≡ₚ omap h l.
Proof.
  intros H.
  set (g := fun x => match f2 x with Some y => Some y | None => f3 x end).
  assert (omap f2 l ++ omap f3 l ≡ₚ omap g l) as ->.
  { apply omap_merge. intros x Hx. unfold g.
    destruct (H x Hx) as [(_ & -> & ->)|[(_ & H2 & ->)|(_ & -> & H3)]];
      [by left| |by right].
    left. by destruct (f2 x). }
  apply omap_merge. intros x Hx. unfold g.
  destruct (H x Hx) as [(-> & -> & ->)|[(-> & -> & ->)|(-> & -> & ->)]];
    [by left|right|by right].
  by destruct (h x).
Qed.

End OmapMerge.

Lemma omap_lookup_seq {A B} (f : A -> option B) (l : list A) :
  omap (fun i => l !! i ≫= f) (seq 0 (length l)) = omap f l.
Proof.
  induction l as [|x l IH] using rev_ind; [done|].
  replace (length (l ++ [x])) with (S (length l))
    by (rewrite length_app; simpl; lia).
  rewrite seq_S, !omap_app. simpl.
  f_equal.
  - rewrite <- IH. apply omap_ext_elem. intros i [_ Hi]%elem_of_seq.
    by rewrite lookup_app_l by lia.
  - csimpl. rewrite lookup_app_r by lia. rewrite Nat.sub_diag. done.
Qed.

Section GroupingPartition.
Context {K : Type} `{EqDecision K}.

Lemma setdefault_append_concat (d : list (K * list nat)) k i :
  concat (setdefault_append d k i).*2 ≡ₚ concat d.*2 ++ [i].
Proof.
  induction d as [|[k' l] d IH]; [done|]. simpl.
  destruct (decide (k = k')) as [->|Hne]; simpl.
  - rewrite <- !app_assoc. f_equiv. apply Permutation_app_comm.
  - rewrite IH. by rewrite app_assoc.
Qed.

Lemma group_from_concat (keys : list K) : forall n d,
  concat (group_from n keys d).*2 ≡ₚ concat d.*2 ++ seq n (length keys).
Proof.
  induction keys as [|k keys IH]; intros n d; simpl.
  - by rewrite app_nil_r.
  - rewrite IH, setdefault_append_concat. by rewrite <- app_assoc.
Qed.

End GroupingPartition.

Lemma noise_only_spec records labels src :
  noise_only records labels src <->
  forall lab, on_image records labels src lab -> lab = noise.
Proof.
  unfold noise_only. rewrite Forall_forall. split.
  - intros H lab Hlab%on_image_elem. by apply (H (src, lab)).
  - intros H [s lab] Hin Hs. simpl in *. subst s.
    by apply H, on_image_elem.
Qed.

Section ReportRows.
Context (order : SetOrder).
Context (records : list FaceRec) (labels : list Z).
Context (out_dir : path) (group_thr : Z).

Lemma log_faces_rows src folder reason keep idxs : forall log0 log',
  log_faces records labels src folder reason keep idxs log0 = Ok log' ->
  log' = log0 ++
    omap (face_rows records labels keep
            (fun _ r => Some (face_row src folder reason r))) idxs.
Proof.
  induction idxs as [|i idxs IH]; intros log0 log' H; simpl in H.
  - injection H as <-. by rewrite app_nil_r.
  - unfold list_get in H. csimpl. unfold face_rows at 1.
    destruct (labels !! i) as [lab|]; [|done].
    destruct (keep lab) eqn:Hk.
    + destruct (records !! i) as [r|]; [|done].
      apply IH in H. rewrite H. by rewrite <- app_assoc.
    + destruct (records !! i); by apply IH in H.
Qed.

Lemma person_step_log c2n src idxs lab st p st1 :
  person_step records labels out_dir c2n src idxs lab st = Ok (p, st1) ->
  log st1 = log st ++
    omap (face_rows records labels (fun l => bool_decide (l = lab))
            (person_row c2n src)) idxs.
Proof.
  unfold person_step, dict_get.
  destruct (dict_lookup c2n lab) as [person|] eqn:Hperson; [|done].
  destruct (log_faces _ _ _ _ _ _ _ _) as [log'|] eqn:Hlog; [|done].
  apply log_faces_rows in Hlog. intros H.
  assert (log st1 = log') as ->.
  { destruct (decide _); by injection H as <- <-. }
  rewrite Hlog. f_equal. apply omap_ext_elem. intros i _.
  unfold face_rows. destruct (labels !! i) as [l|]; [|done].
  destruct (records !! i) as [r|]; [|done].
  case_bool_decide as Hl; [|done]. subst l.
  unfold person_row. by rewrite Hperson.
Qed.

Lemma persons_fold_log c2n src idxs (L : list Z) : forall st p st1,
  plan_fold (person_step records labels out_dir c2n src idxs) L st
    = Ok (p, st1) ->
  log st1 = log st ++
    (L ≫= fun lab =>
       omap (face_rows records labels (fun l => bool_decide (l = lab))
               (person_row c2n src)) idxs).
Proof.
  induction L as [|lab L IH]; intros st p st1 H; simpl in H.
  - injection H as <- <-. by rewrite app_nil_r.
  - destruct (person_step _ _ _ _ _ _ _ _) as [[p1 sta]|] eqn:Hstep; [|done].
    destruct (plan_fold _ _ _) as [[p2 stb]|] eqn:Hfold; [|done].
    injection H as <- <-.
    apply person_step_log in Hstep. apply IH in Hfold.
    rewrite Hfold, Hstep, bind_cons. by rewrite <- app_assoc.
Qed.

Lemma persons_rows_perm (mk : Z -> FaceRec -> option LogRow) idxs (L : list Z) :
  NoDup L ->
  (L ≫= fun lab =>
     omap (face_rows records labels (fun l => bool_decide (l = lab)) mk) idxs)
  ≡ₚ omap (face_rows records labels (fun l => bool_decide (l ∈ L)) mk) idxs.
Proof.
  induction 1 as [|lab L Hnotin Hnd IH].
  - symmetry. rewrite omap_none; [done|]. intros i _. unfold face_rows.
    destruct (labels !! i) as [l|]; [|done].
    destruct (records !! i) as [r|]; [|done].
    rewrite bool_decide_eq_false_2; [done|]. apply not_elem_of_nil.
  - rewrite bind_cons, IH. apply omap_merge. intros i _. unfold face_rows.
    destruct (labels !! i) as [l|]; [|by left].
    destruct (records !! i) as [r|]; [|by left].
    destruct (decide (l = lab)) as [->|Hne].
    + left. rewrite bool_decide_eq_true_2 by done.
      rewrite (bool_decide_eq_true_2 (lab ∈ lab :: L)) by (by apply elem_of_cons; left).
      by rewrite bool_decide_eq_false_2.
    + right. rewrite (bool_decide_eq_false_2 (l = lab)) by done.
      split; [done|]. destruct (decide (l ∈ L)) as [Hin|Hout].
      * rewrite !bool_decide_eq_true_2; [done|by apply elem_of_cons; right|done].
      * rewrite !bool_decide_eq_false_2; [done| |done].
        intros [?|?]%elem_of_cons; done.
Qed.

Lemma image_step_log E c2n src idxs st p st1 :
  image_step order records labels out_dir E c2n (src, idxs) st = Ok (p, st1) ->
  exists labs,
    labels_at labels idxs = Ok labs /\
    log st1 = log st ++
      (iter_labels order (filter (fun lab => lab ∈ E) labs) ≫= fun lab =>
         omap (face_rows records labels (fun l => bool_decide (l = lab))
                 (person_row c2n src)) idxs) ++
      (if decide (filter (fun lab => (lab ∉ E) /\ (lab ≠ noise)) labs ≠ ∅)
       then omap (face_rows records labels
                    (fun l => bool_decide
                       (l ∈ (filter (fun lab => (lab ∉ E) /\ (lab ≠ noise))
                               labs : gset Z)))
                    (fun _ r => Some (face_row src "__group_only__"
                                        "group_only_person_on_image" r))) idxs
       else []) ++
      (if bool_decide (0 < size (labs ∖ {[noise]}))%nat then []
       else omap (face_rows records labels (fun l => bool_decide (l = noise))
                    (fun _ r => Some (face_row src "__unknown__"
                                        "noise_only_image" r))) idxs).
Proof.
  unfold image_step.
  destruct (labels_at labels idxs) as [labs|]; [|done]. cbv zeta.
  destruct (plan_fold _ _ _) as [[p0 sta]|] eqn:Hfold; [|done].
  apply persons_fold_log in Hfold.
  intros H. exists labs. split; [done|].
  destruct (decide (filter _ labs ≠ ∅)) as [Hne|Hne].
  - destruct (log_faces _ _ _ "__group_only__" _ _ _ _) as [log1|] eqn:H1;
      [|done].
    apply log_faces_rows in H1.
    case_bool_decide.
    + injection H as <- <-. simpl. rewrite H1, Hfold, app_nil_r.
      by rewrite <- !app_assoc.
    + destruct (log_faces _ _ _ "__unknown__" _ _ _ _) as [log2|] eqn:H2;
        [|done].
      apply log_faces_rows in H2.
      injection H as <- <-. simpl in *. rewrite H2, H1, Hfold.
      by rewrite <- !app_assoc.
  - case_bool_decide.
    + injection H as <- <-. by rewrite Hfold, !app_nil_r.
    + destruct (log_faces _ _ _ "__unknown__" _ _ _ _) as [log2|] eqn:H2;
        [|done].
      apply log_faces_rows in H2.
      injection H as <- <-. simpl in *. rewrite H2, Hfold.
      by rewrite <- !app_assoc.
Qed.

End ReportRows.

Section Report.
Context (order : SetOrder).
Context (records : list FaceRec) (labels : list Z).
Context (out_dir : path) (group_thr : Z).

(** The rows logged for one image are the rows of its faces. *)
Lemma image_rows_perm (E : gset Z) c2n src idxs st p st1 :
  (noise ∉ E) ->
  (src, idxs) ∈ (build_indices records labels).2 ->
  image_step order records labels out_dir E c2n (src, idxs) st = Ok (p, st1) ->
  exists rows, log st1 = log st ++ rows /\
    rows ≡ₚ omap (fun i => zip records labels !! i ≫=
                             report_row records labels E c2n) idxs.
Proof.
  intros HnE Hitem Hstep.
  destruct (image_step_log _ _ _ _ _ _ _ _ _ _ _ Hstep) as (labs & Hlabs & ->).
  eexists. split; [done|].
  destruct (image_item_labels records labels src idxs Hitem)
    as (labs' & Hlabs' & Hon & _).
  assert (labs' = labs) as -> by congruence.
  destruct (image_item_spec records labels src idxs Hitem) as [_ Hidx].
  set (L := iter_labels order (filter (fun lab => lab ∈ E) labs)).
  assert (NoDup L) as HL.
  { unfold L. rewrite iter_labels_perm. apply NoDup_elements. }
  assert (forall lab, lab ∈ L <-> lab ∈ labs /\ lab ∈ E) as HLin.
  { intros lab. unfold L. rewrite iter_labels_perm, elem_of_elements.
    rewrite elem_of_filter. tauto. }
  rewrite (persons_rows_perm records labels (person_row c2n src) idxs L HL).
  set (inel := filter (fun lab => (lab ∉ E) /\ (lab ≠ noise)) labs : gset Z).
  set (any := bool_decide (0 < size (labs ∖ {[noise]}))%nat).
  assert ((if decide (inel ≠ ∅)
           then omap (face_rows records labels
                        (fun l => bool_decide (l ∈ inel))
                        (fun _ r => Some (face_row src "__group_only__"
                                            "group_only_person_on_image" r)))
                  idxs
           else [])
          = omap (face_rows records labels (fun l => bool_decide (l ∈ inel))
                    (fun _ r => Some (face_row src "__group_only__"
                                        "group_only_person_on_image" r)))
              idxs) as ->.
  { destruct (decide (inel ≠ ∅)) as [|Hempty]; [done|].
    symmetry. apply omap_none. intros i _. unfold face_rows.
    destruct (labels !! i) as [l|]; [|done].
    destruct (records !! i) as [r|]; [|done].
    rewrite bool_decide_eq_false_2; [done|].
    intros Hin. apply Hempty. set_solver. }
  assert ((if any then []
           else omap (face_rows records labels (fun l => bool_decide (l = noise))
                        (fun _ r => Some (face_row src "__unknown__"
                                            "noise_only_image" r))) idxs)
          = omap (face_rows records labels
                    (fun l => bool_decide (l = noise) && negb any)
                    (fun _ r => Some (face_row src "__unknown__"
                                        "noise_only_image" r))) idxs) as ->.
  { destruct any.
    - symmetry. apply omap_none. intros i _. unfold face_rows.
      destruct (labels !! i) as [l|]; [|done].
      destruct (records !! i) as [r|]; [|done].
      by rewrite andb_false_r.
    - apply omap_ext_elem. intros i _. unfold face_rows.
      destruct (labels !! i) as [l|]; [|done].
      destruct (records !! i) as [r|]; [|done].
      by rewrite andb_true_r. }
  assert (any = false <-> noise_only records labels src) as Hany.
  { rewrite noise_only_spec. unfold any. rewrite bool_decide_eq_false.
    rewrite has_any_cluster_spec. split.
    - intros Hno lab Hlab%Hon. destruct (decide (lab = noise)); [done|].
      destruct Hno. by exists lab.
    - intros Hall (lab & Hlab%Hon & Hne). by apply Hne, Hall. }
  apply omap_merge3. intros i Hi.
  apply Hidx in Hi as (r & l & [Hr Hl] & Hsrc).
  assert (zip records labels !! i = Some (r, l)) as Hz
    by (by apply face_at_zip).
  assert (l ∈ labs) as Hllabs by (apply Hon; by exists i, r).
  unfold face_rows. rewrite Hr, Hl, Hz. simpl. rewrite Hsrc.
  destruct (decide (l ∈ E)) as [HlE|HlE].
  - left. rewrite bool_decide_eq_true_2 by (by apply HLin).
    split; [done|].
    rewrite (bool_decide_eq_false_2 (l ∈ inel)) by set_solver.
    rewrite (bool_decide_eq_false_2 (l = noise)) by (by intros ->).
    done.
  - right. rewrite (bool_decide_eq_false_2 (l ∈ L)) by (rewrite HLin; tauto).
    destruct (decide (l ≠ noise)) as [Hn|Hn].
    + left. rewrite (bool_decide_eq_true_2 (l ∈ inel)) by set_solver.
      rewrite (bool_decide_eq_false_2 (l = noise)) by done. done.
    + right. apply dec_stable in Hn. subst l.
      rewrite (bool_decide_eq_false_2 (noise ∈ inel)) by set_solver.
      rewrite (bool_decide_eq_true_2 (noise = noise)) by done.
      split_and!; [done..|]. simpl.
      destruct (decide (noise_only records labels src)) as [Hno|Hno].
      * apply Hany in Hno. by rewrite Hno.
      * destruct any; [done|]. destruct Hno. by apply Hany.
Qed.

(** The log of a call lists the rows of all faces. *)
Lemma route_plan_log E c2n pp st :
  route_plan order records labels out_dir group_thr = Ok (E, c2n, pp, st) ->
  log st ≡ₚ omap (report_row records labels E c2n) (zip records labels).
Proof.
  intros Hplan.
  assert (noise ∉ E) as HnE by (by eapply noise_not_eligible).
  unfold route_plan in Hplan.
  destruct (eligible_clusters_of records labels group_thr) as [E0|]; [|done].
  cbv zeta in Hplan.
  destruct (plan_fold _ _ _) as [[pp0 st0]|] eqn:Hfold; [|done].
  injection Hplan as -> <- -> ->.
  set (c2n := cluster_to_name_of (eligible_sorted_of order E)) in *.
  set (h := fun i => zip records labels !! i ≫= report_row records labels E c2n).
  assert (log st ≡ₚ omap h (concat (build_indices records labels).2.*2)) as ->.
  { revert Hfold.
    apply (plan_fold_inv
             (fun pre _ st => log st ≡ₚ omap h (concat pre.*2))); [done|].
    intros pre [src idxs] post p st1 p1 st2 Hxs IH Hstep.
    destruct (image_rows_perm E c2n src idxs st1 p1 st2 HnE) as (rows & -> & Hrows);
      [rewrite Hxs; apply elem_of_app; right; by apply elem_of_cons; left
      |done|].
    rewrite fmap_app, concat_app, omap_app. simpl. rewrite app_nil_r.
    by rewrite IH, Hrows. }
  rewrite build_indices_eq. simpl.
  rewrite group_from_concat. simpl.
  rewrite length_fmap, length_fmap.
  unfold h. by rewrite omap_lookup_seq.
Qed.

End Report.

Lemma length_omap_filter {A B} (f : A -> option B) (P : A -> Prop)
    `{forall x, Decision (P x)} (l : list A) :
  (forall x, x ∈ l -> is_Some (f x) <-> P x) ->
  length (omap f l) = length (filter P l).
Proof.
  induction l as [|x l IH]; intros Hf; [done|].
  assert (length (omap f l) = length (filter P l)) as IH'.
  { apply IH. intros y Hy. apply Hf. by apply elem_of_cons; right. }
  csimpl. rewrite filter_cons.
  pose proof (Hf x (list_elem_of_here _ _)) as Hx.
  destruct (f x) as [y|]; destruct (decide (P x)) as [HP|HP]; simpl.
  - by rewrite IH'.
  - destruct HP. apply Hx. by eexists.
  - apply Hx in HP as [? ?]. done.
  - done.
Qed.

Section ReportTheorem.
Context (order : SetOrder).
Context (records : list FaceRec) (labels : list Z).
Context (out_dir : path) (group_thr : Z).

(** X4. After a call of [route_by_clusters] that returns, the report holds
    the header and one row for every face that has a non-noise label or
    lies on an image showing nothing but noise, and no other row.  The row
    of a face names its image, and as folder the person folder of its
    cluster when the cluster is eligible, [__group_only__] when the cluster
    is not, and [__unknown__] for noise on a noise-only image.  A noise
    face on an image that also shows a cluster has no row. *)
Theorem X4_report_has_one_row_per_routed_face
    (fs : FS) (v : list (Z * string) * path * gset Z) (fs' : FS) :
  route_by_clusters order records labels out_dir group_thr fs = (Ok v, fs') ->
  exists rows,
    fs_files fs' !! report_path out_dir = Some (Csv report_header rows) /\
    rows ≡ₚ omap (report_row records labels v.2 v.1.1) (zip records labels) /\
    length rows =
      length (filter (fun rl => rl.2 ≠ noise \/
                                noise_only records labels (img_path rl.1))
                (zip records labels)) /\
    (forall row, row ∈ rows <->
       exists i r lab, face_at records labels i r lab /\
         ((lab ∈ v.2 /\
           exists person, dict_lookup v.1.1 lab = Some person /\
             row = face_row (img_path r) person "eligible_person_image" r) \/
          ((lab ∉ v.2) /\ lab ≠ noise /\
           row = face_row (img_path r) "__group_only__"
                   "group_only_person_on_image" r) \/
          (lab = noise /\
           (forall lab', on_image records labels (img_path r) lab' ->
              lab' = noise) /\
           row = face_row (img_path r) "__unknown__" "noise_only_image" r))).
Proof.
  intros Hrun.
  destruct (route_plan_total order records labels out_dir group_thr)
    as (E & pp & st & Hplan & _). simpl in Hplan.
  set (c2n := cluster_to_name_of (eligible_sorted_of order E)) in *.
  pose proof (route_plan_log order records labels out_dir group_thr
                E c2n pp st Hplan) as Hlog.
  assert (noise ∉ E) as HnE by (by eapply noise_not_eligible).
  destruct (route_phases order records labels out_dir group_thr _ _ _ _ _ _ _
              Hplan Hrun)
    as (rA & fsA & plan' & rB & fsB & _ & _ & _ & _ & _ & _ & Hf).
  destruct Hf as [[_ Hno]|(Hv & _ & _ & _ & Hfiles)]; [by destruct (Hno v)|].
  injection Hv as ->. simpl.
  exists (log st). split_and!.
  - by rewrite Hfiles, lookup_insert_eq.
  - done.
  - rewrite Hlog. apply length_omap_filter. intros [r lab] _. simpl.
    destruct (decide (lab ∈ E)) as [HlE|HlE].
    + destruct (cluster_to_name_get order E lab HlE) as (i & _ & Hi).
      fold c2n in Hi. rewrite Hi. simpl. split; [|by eexists].
      intros _. left. by intros ->.
    + destruct (decide (lab ≠ noise)) as [Hn|Hn]; [by split; [left|eexists]|].
      destruct (decide (noise_only _ _ _)) as [Hno|Hno].
      * split; [by right|by eexists].
      * split; [by intros [? ?]|]. intros [?|?]; done.
  - intros row. rewrite Hlog, list_elem_of_omap. split.
    + intros ([r lab] & Hin & Hrow).
      apply list_elem_of_lookup in Hin as [i Hi].
      apply face_at_zip in Hi. exists i, r, lab. split; [done|].
      simpl in Hrow.
      destruct (decide (lab ∈ E)) as [HlE|HlE].
      * left. split; [done|].
        destruct (dict_lookup c2n lab) as [person|]; [|done].
        injection Hrow as <-. by exists person.
      * right. destruct (decide (lab ≠ noise)) as [Hn|Hn].
        -- left. by injection Hrow as <-.
        -- right. apply dec_stable in Hn.
           destruct (decide (noise_only _ _ _)) as [Hno|Hno]; [|done].
           injection Hrow as <-. split_and!; [done| |done].
           by apply noise_only_spec.
    + intros (i & r & lab & Hface & Hcase).
      exists (r, lab). split.
      { apply face_at_zip in Hface. by eapply list_elem_of_lookup_2. }
      simpl.
      destruct Hcase as [(HlE & person & Hp & ->)|
                         [(HlE & Hn & ->)|(-> & Hall & ->)]].
      * rewrite decide_True by done. by rewrite Hp.
      * rewrite decide_False by done. by rewrite decide_True.
      * rewrite (decide_False (P := noise ∈ E)) by done.
        try rewrite (decide_False (P := noise ≠ noise))
          by (by intros H; apply H).
        rewrite decide_True; [done|]. by apply noise_only_spec.
Qed.

End ReportTheorem.

(** ** The records of the extraction *)

Lemma face_records_lookup img faces i :
  face_records img faces !! i =
    (fun f => mkFaceRec img i (Z.of_nat (length faces)) (face_bbox f)
                (face_det_score f) (face_embedding f)) <$> faces !! i.
Proof.
  unfold face_records, enumerate. rewrite list_lookup_fmap.
  rewrite enumerate_from_lookup. by destruct (faces !! i).
Qed.

Lemma face_records_length img faces :
  length (face_records img faces) = length faces.
Proof.
  unfold face_records, enumerate.
  rewrite length_fmap, length_zip, length_seq. lia.
Qed.

Lemma face_records_indices img faces :
  face_index <$> face_records img faces = seq 0 (length faces).
Proof.
  apply list_eq. intros i. rewrite list_lookup_fmap, face_records_lookup.
  destruct (faces !! i) as [f|] eqn:Hf; simpl.
  - symmetry. apply lookup_seq. split; [done|]. by apply lookup_lt_Some in Hf.
  - symmetry. apply lookup_seq_ge. by apply lookup_ge_None in Hf.
Qed.

Lemma filter_all {A} (P : A -> Prop) `{forall x, Decision (P x)} (l : list A) :
  (forall x, x ∈ l -> P x) -> filter P l = l.
Proof.
  induction l as [|x l IH]; intros HP; [done|].
  rewrite filter_cons_True by (apply HP; by apply elem_of_cons; left).
  f_equal. apply IH. intros y Hy. apply HP. by apply elem_of_cons; right.
Qed.

(** The part of [l ≫= g] that belongs to one element of a list without
    repetition. *)
Lemma bind_filter_key {A B} `{EqDecision A} (key : B -> A) (g : A -> list B)
    (l : list A) (p : A) :
  NoDup l -> (forall q r, r ∈ g q -> key r = q) ->
  filter (fun r => key r = p) (l ≫= g) = if decide (p ∈ l) then g p else [].
Proof.
  intros Hnd Hkey. induction Hnd as [|x l Hx Hnd IH]; [done|].
  rewrite bind_cons, filter_app, IH.
  destruct (decide (x = p)) as [->|Hne].
  - rewrite (decide_True (P := p ∈ p :: l)) by (by apply elem_of_cons; left).
    rewrite (decide_False (P := p ∈ l)) by done. rewrite app_nil_r.
    apply filter_all. intros r Hr. by apply Hkey.
  - rewrite filter_none.
    2:{ intros r Hr%Hkey. congruence. }
    simpl. destruct (decide (p ∈ l)) as [Hin|Hout].
    + by rewrite decide_True by (by apply elem_of_cons; right).
    + rewrite decide_False; [done|]. intros [?|?]%elem_of_cons; done.
Qed.

Section Extraction.
Context (c : Collaborators) (input : path).
Context (mf : Z) (bt : float) (ds gid : Z).

(** X5. Every record that [collect_faces] returns belongs to a listed file
    with an image extension that passed the sharpness test.  Its
    [face_index] counts from zero and stays below its [faces_in_image],
    which is the number of faces the detector found on that image and so at
    least one; box, score and embedding are those of the detection with
    that index; and all records of one image carry the same
    [faces_in_image]. *)
Theorem X5_collected_records_describe_detections (r : FaceRec) :
  r ∈ collect_faces c input mf bt ds gid ->
  img_path r ∈ rglob c input /\
  is_image (img_path r) = true /\
  blurred c mf bt (img_path r) = false /\
  0 <= Z.of_nat (face_index r) < faces_in_image r /\
  faces_in_image r = Z.of_nat (length (detect c ds gid mf (img_path r))) /\
  (exists f, detect c ds gid mf (img_path r) !! face_index r = Some f /\
     bbox r = face_bbox f /\ det_score r = face_det_score f /\
     embedding r = face_embedding f) /\
  (forall r', r' ∈ collect_faces c input mf bt ds gid ->
     img_path r' = img_path r -> faces_in_image r' = faces_in_image r).
Proof.
  intros Hr.
  destruct (collect_faces_elem _ _ _ _ _ _ _ Hr) as (H1 & H2 & H3 & H4 & H5).
  split_and!; [done..|lia| |done| |].
  - destruct H4 as [f Hf]. apply lookup_lt_Some in Hf. lia.
  - unfold collect_faces in Hr.
    apply list_elem_of_bind in Hr as (img & Hr & _).
    destruct (blurred c mf bt img); [by apply elem_of_nil in Hr|].
    apply list_elem_of_lookup in Hr as [i Hi].
    rewrite face_records_lookup in Hi.
    destruct (detect c ds gid mf img !! i) as [f|] eqn:Hf; [|done].
    injection Hi as <-. simpl. by exists f.
  - intros r' Hr' Heq.
    destruct (collect_faces_elem _ _ _ _ _ _ _ Hr') as (_ & _ & _ & _ & H5').
    by rewrite H5', Heq, H5.
Qed.

(** X6. When the directory listing names no file twice, the records that
    [collect_faces] returns for an image are numbered 0, 1, 2, ... in the
    order they appear, and their common [faces_in_image] is their number:
    an image has exactly as many records as it has detected faces. *)
Theorem X6_an_image_has_faces_in_image_records (p : path) :
  NoDup (rglob c input) ->
  let rs := filter (fun r => img_path r = p)
              (collect_faces c input mf bt ds gid) in
  face_index <$> rs = seq 0 (length rs) /\
  Forall (fun r => faces_in_image r = Z.of_nat (length rs)) rs /\
  (p ∈ rglob c input -> is_image p = true -> blurred c mf bt p = false ->
   length rs = length (detect c ds gid mf p)).
Proof.
  intros Hnd rs. unfold rs, collect_faces.
  rewrite (bind_filter_key img_path).
  2:{ by apply NoDup_filter. }
  2:{ intros q r Hr. destruct (blurred c mf bt q); [by apply elem_of_nil in Hr|].
      by apply face_records_elem in Hr as [? _]. }
  destruct (decide (p ∈ filter _ (rglob c input))) as [Hin|Hout].
  - destruct (blurred c mf bt p) eqn:Hb.
    + split_and!; [done|by apply Forall_nil|done].
    + rewrite face_records_length. split_and!.
      * apply face_records_indices.
      * apply Forall_forall. intros r Hr.
        by apply face_records_elem in Hr as (_ & _ & ?).
      * done.
  - split_and!; [done|by apply Forall_nil|].
    intros H1 H2 _. destruct Hout. by apply list_elem_of_filter.
Qed.

End Extraction.

(** ** The whole pipeline *)




(** ** File names *)

Lemma string_app_nil_l (b : string) : "" +:+ b = b.
Proof. reflexivity. Qed.

Lemma string_app_cons (x : ascii) (a b : string) :
  String x a +:+ b = String x (a +:+ b).
Proof. reflexivity. Qed.

Lemma string_app_assoc (a b c : string) : (a +:+ b) +:+ c = a +:+ (b +:+ c).
Proof.
  induction a as [|x a IH]; [done|]. rewrite !string_app_cons. by f_equal.
Qed.

Lemma string_app_length (a b : string) :
  String.length (a +:+ b) = (String.length a + String.length b)%nat.
Proof.
  induction a as [|x a IH]; [done|]. rewrite string_app_cons. simpl.
  by rewrite IH.
Qed.

Lemma string_length_zero (s : string) : String.length s = 0%nat -> s = "".
Proof. by destruct s. Qed.

Lemma substring_zero_length (n : nat) (s : string) : String.substring n 0 s = "".
Proof.
  revert n. induction s as [|x s IH]; intros [|n]; simpl; try done.
Qed.

Lemma substring_all (s : string) : String.substring 0 (String.length s) s = s.
Proof. induction s as [|x s IH]; simpl; [done|]. by rewrite IH. Qed.

Lemma substring_app_l (a b : string) :
  String.substring 0 (String.length a) (a +:+ b) = a.
Proof.
  induction a as [|x a IH].
  - rewrite string_app_nil_l. by destruct b.
  - rewrite string_app_cons. simpl. by rewrite IH.
Qed.

Lemma substring_app_r (a b : string) :
  String.substring (String.length a) (String.length b) (a +:+ b) = b.
Proof.
  induction a as [|x a IH]; [apply substring_all|].
  rewrite string_app_cons. simpl. done.
Qed.

Lemma substring_split (n : nat) (s : string) :
  (n <= String.length s)%nat ->
  String.substring 0 n s +:+ String.substring n (String.length s - n) s = s.
Proof.
  revert n. induction s as [|x s IH]; intros [|n] Hn; simpl in Hn.
  - done.
  - lia.
  - simpl. by rewrite string_app_nil_l, substring_all.
  - simpl. rewrite string_app_cons. f_equal. apply IH. lia.
Qed.

Lemma substring_prefix_length (n : nat) (s : string) :
  (n <= String.length s)%nat -> String.length (String.substring 0 n s) = n.
Proof.
  revert n. induction s as [|x s IH]; intros [|n] Hn; simpl in Hn.
  - done.
  - lia.
  - done.
  - simpl. rewrite IH by lia. done.
Qed.

Lemma rfind_dot_lt (s : string) (i : nat) :
  rfind_dot s = Some i -> (i < String.length s)%nat.
Proof.
  revert i. induction s as [|x s IH]; intros i; simpl; [done|].
  destruct (rfind_dot s) as [j|].
  - intros [= <-]. specialize (IH j eq_refl). lia.
  - destruct (Ascii.eqb x "."); [|done]. intros [= <-]. lia.
Qed.

Lemma rfind_dot_app (a b : string) :
  rfind_dot (a +:+ b) =
    match rfind_dot b with
    | Some i => Some (String.length a + i)%nat
    | None => rfind_dot a
    end.
Proof.
  induction a as [|x a IH].
  - rewrite string_app_nil_l. by destruct (rfind_dot b).
  - rewrite string_app_cons. simpl. rewrite IH. by destruct (rfind_dot b).
Qed.

Lemma lower_length (s : string) : String.length (lower s) = String.length s.
Proof. induction s as [|x s IH]; simpl; [done|]. by rewrite IH. Qed.

Lemma lower_ascii_dot (x : ascii) :
  Ascii.eqb (lower_ascii x) "." = Ascii.eqb x ".".
Proof. by destruct x as [[] [] [] [] [] [] [] []]. Qed.

Lemma rfind_dot_lower (s : string) : rfind_dot (lower s) = rfind_dot s.
Proof.
  induction s as [|x s IH]; simpl; [done|].
  by rewrite IH, lower_ascii_dot.
Qed.

(** An accepted extension starts with its only dot and has letters after
    it. *)
Lemma image_ext_shape (e : string) :
  lower e ∈ IMG_EXTS ->
  rfind_dot e = Some 0%nat /\ (2 <= String.length e)%nat.
Proof.
  intros Hin. rewrite <- rfind_dot_lower, <- lower_length.
  unfold IMG_EXTS in Hin.
  repeat (apply elem_of_cons in Hin as [->|Hin]; [split; [done|simpl; lia]|]).
  by apply elem_of_nil in Hin.
Qed.

Lemma name_split (p : path) : name p = stem p +:+ suffix p.
Proof.
  unfold stem, suffix. cbv zeta. symmetry. apply substring_split.
  unfold split_point. destruct (rfind_dot (name p)) as [i|] eqn:Hi; [|done].
  apply rfind_dot_lt in Hi. destruct (_ && _); lia.
Qed.

Lemma suffix_nonempty_stem (p : path) : suffix p ≠ "" -> stem p ≠ "".
Proof.
  unfold stem, suffix, split_point. cbv zeta.
  destruct (rfind_dot (name p)) as [i|] eqn:Hi.
  - destruct ((0 <? i)%nat && (i <? String.length (name p) - 1)%nat) eqn:Hb.
    + intros _ Hnil. apply andb_true_iff in Hb as [H0%Nat.ltb_lt H1%Nat.ltb_lt].
      apply (f_equal String.length) in Hnil.
      rewrite substring_prefix_length in Hnil by lia. simpl in Hnil. lia.
    + rewrite Nat.sub_diag, substring_zero_length. done.
  - rewrite Nat.sub_diag, substring_zero_length. done.
Qed.

(** The suffix of a name made of a non-empty stem and an accepted
    extension is that extension. *)
Lemma suffix_of_image_name (p : path) (s e : string) :
  name p = s +:+ e -> s ≠ "" -> lower e ∈ IMG_EXTS ->
  suffix p = e /\ stem p = s.
Proof.
  intros Hname Hs He. destruct (image_ext_shape e He) as [Hdot Hlen].
  assert (0 < String.length s)%nat as Hpos.
  { destruct s; [done|simpl; lia]. }
  unfold suffix, stem, split_point. cbv zeta. rewrite Hname.
  rewrite rfind_dot_app, Hdot, Nat.add_0_r, string_app_length.
  rewrite (proj2 (Nat.ltb_lt _ _) Hpos).
  rewrite (proj2 (Nat.ltb_lt (String.length s) _)) by lia. simpl.
  replace (String.length s + String.length e - String.length s)%nat
    with (String.length e) by lia.
  by rewrite substring_app_r, substring_app_l.
Qed.

Lemma is_image_name_iff (p : path) :
  is_image p = true <->
  exists s e, name p = s +:+ e /\ s ≠ "" /\ lower e ∈ IMG_EXTS.
Proof.
  unfold is_image. rewrite bool_decide_eq_true. split.
  - intros Hin. exists (stem p), (suffix p).
    split_and!; [apply name_split| |done].
    apply suffix_nonempty_stem. intros Hnil. rewrite Hnil in Hin.
    unfold IMG_EXTS in Hin. simpl in Hin.
    repeat (apply elem_of_cons in Hin as [Hin|Hin]; [done|]).
    by apply elem_of_nil in Hin.
  - intros (s & e & Hname & Hs & He).
    by destruct (suffix_of_image_name p s e Hname Hs He) as [-> _].
Qed.

(** X8. [is_image] looks at the final component of a path only, and
    accepts it exactly when it consists of a non-empty stem followed by one
    of the seven extensions, written in any mix of upper and lower case.
    So a file called just [.jpg], or one without a dot, is not an image. *)
Theorem X8_is_image_by_name (p : path) :
  is_image p = true <->
  exists s e, name p = s +:+ e /\ s ≠ "" /\ lower e ∈ IMG_EXTS.
Proof. apply is_image_name_iff. Qed.

(** ** The copies of the pipeline *)

Lemma name_joinpath (p : path) (s : string) : s ≠ "" -> name (joinpath p s) = s.
Proof.
  intros Hs. rewrite joinpath_nonempty by done. unfold name.
  apply last_last.
Qed.

Lemma suffix_by_name (p q : path) : name p = name q -> suffix p = suffix q.
Proof. unfold suffix. by intros ->. Qed.

Lemma is_image_by_name (p q : path) : name p = name q -> is_image p = is_image q.
Proof. unfold is_image. by intros ->%suffix_by_name. Qed.

Lemma is_image_named (p : path) : is_image p = true -> name p ≠ "".
Proof.
  intros (s & e & Hname & Hs & _)%is_image_name_iff Hnil.
  rewrite Hnil in Hname. destruct s; [done|].
  by rewrite string_app_cons in Hname.
Qed.

(** The copy of an image in a person folder carries the image's
    extension. *)
Lemma person_dst_suffix (out_dir src : path) (i : nat) :
  is_image src = true ->
  suffix (person_dst out_dir src (person_name i)) = suffix src /\
  is_image (person_dst out_dir src (person_name i)) = true.
Proof.
  intros Himg.
  assert (lower (suffix src) ∈ IMG_EXTS) as Hext.
  { unfold is_image in Himg. by apply bool_decide_eq_true in Himg. }
  assert (name (person_dst out_dir src (person_name i))
          = (stem src +:+ "__" +:+ person_name i) +:+ suffix src) as Hname.
  { unfold person_dst. rewrite name_joinpath by apply person_dst_name_nonempty.
    unfold person_dst_name. by rewrite !string_app_assoc. }
  assert (stem src +:+ "__" +:+ person_name i ≠ "") as Hne.
  { apply string_app_nonempty_r, string_app_nonempty_r.
    apply person_name_not_shared. }
  split.
  - by destruct (suffix_of_image_name _ _ _ Hname Hne Hext) as [-> _].
  - apply is_image_name_iff. by eexists _, _.
Qed.

Lemma main_cases c order args fs r fs' :
  main c order args fs = (r, fs') ->
  fs' = fs \/
  exists labels rr,
    route_by_clusters order
      (collect_faces c (input_dir args) (min_face args) (blur_thr args)
         (det_size args) (gpu_id args))
      labels (out_dir_arg args) (group_thr_arg args) fs = (rr, fs').
Proof.
  unfold main.
  destruct (collect_faces _ _ _ _ _ _) as [|r0 rs] eqn:Hrec.
  { intros [= <- <-]. by left. }
  unfold bind, lift.
  destruct (cluster_faces _ _ _ _) as [labels|e].
  2:{ intros [= <- <-]. by left. }
  destruct (route_by_clusters _ _ _ _ _ _) as [rr fs1] eqn:Hrun.
  intros H. right. exists labels, rr.
  destruct rr; unfold ret in H; by injection H as <- <-.
Qed.

(** X9. Whatever [main] copies is a usable image: the source of every
    copy is a listed file with an image extension that passed the
    sharpness test and shows at least one detected face, so a blurred
    image, a file of another type or an image without faces is copied
    nowhere.  The destination lies under the output root and carries the
    extension of its source, so it is an image file as well. *)
Theorem X9_main_copies_only_usable_images
    (c : Collaborators) (order : SetOrder) (args : Args) (fs : FS)
    (r : res Outcome) (fs' : FS) :
  main c order args fs = (r, fs') ->
  exists evs, fs_copied fs' = fs_copied fs ++ evs /\
    forall (s d : path), (s, d) ∈ evs ->
      s ∈ rglob c (input_dir args) /\
      is_image s = true /\
      blurred c (min_face args) (blur_thr args) s = false /\
      detect c (det_size args) (gpu_id args) (min_face args) s ≠ [] /\
      out_dir_arg args `prefix_of` d /\
      suffix d = suffix s /\
      is_image d = true.
Proof.
  intros [->|(labels & rr & Hrun)]%main_cases.
  { exists []. rewrite app_nil_r. split; [done|].
    intros s d Hin. by apply elem_of_nil in Hin. }
  set (records := collect_faces c (input_dir args) (min_face args)
                    (blur_thr args) (det_size args) (gpu_id args)) in *.
  destruct (route_copies _ _ _ _ _ _ _ _ Hrun)
    as (E & pp & st & evs & Hplan & Hc & Hsub).
  exists evs. split; [done|]. intros s d Hin.
  assert ((s, d) ∈ full_plan order (out_dir_arg args) pp st) as Hfull.
  { eapply elem_of_sublist; [exact Hin|exact Hsub]. }
  assert (exists lab, on_image records labels s lab) as [lab0 Hon].
  { apply (full_plan_cases order records labels (out_dir_arg args)
             (group_thr_arg args) E _ pp st s d Hplan) in Hfull
      as [(lab & i & Hon & _)|[[(lab & Hon & _) _]|[[[lab Hon] _] _]]];
      by exists lab. }
  destruct (on_image_record _ _ _ _ Hon) as (rec & Hrec & Hpath).
  apply collect_faces_elem in Hrec as (H1 & H2 & H3 & [f Hf] & _).
  rewrite Hpath in *.
  split_and!; [done..| | | |].
  - intros Hnil. by rewrite Hnil in Hf.
  - by eapply planned_under_root.
  - apply (full_plan_cases order records labels (out_dir_arg args)
             (group_thr_arg args) E _ pp st s d Hplan) in Hfull
      as [(lab & i & _ & _ & _ & ->)|[[_ ->]|[_ ->]]].
    + by apply person_dst_suffix.
    + apply suffix_by_name, name_joinpath. by apply is_image_named.
    + apply suffix_by_name, name_joinpath. by apply is_image_named.
  - apply (full_plan_cases order records labels (out_dir_arg args)
             (group_thr_arg args) E _ pp st s d Hplan) in Hfull
      as [(lab & i & _ & _ & _ & ->)|[[_ ->]|[_ ->]]].
    + by apply person_dst_suffix.
    + rewrite <- H2. apply is_image_by_name, name_joinpath.
      by apply is_image_named.
    + rewrite <- H2. apply is_image_by_name, name_joinpath.
      by apply is_image_named.
Qed.

(** ** How a call can fail, and when it cannot *)






Section Outcomes.
Context (order : SetOrder).
Context (records : list FaceRec) (labels : list Z).
Context (out_dir : path) (group_thr : Z).


End Outcomes.

(** ** ensure_dir *)



(** ** center_crop_square *)

Section Crop.
Context {A : Type}.
Context (resize : Image A -> Z -> Z -> option (Image A)).

Lemma half_margin (n : nat) :
  (n / 2 <= n - n / 2 /\ n - n / 2 <= n / 2 + 1)%nat.
Proof.
  pose proof (Nat.div_mod_eq n 2) as H.
  pose proof (Nat.mod_upper_bound n 2 ltac:(lia)). lia.
Qed.

(** The central square of a well-formed image. *)
Lemma central_square (bgr : Image A) :
  well_formed bgr ->
  let h := im_height bgr in
  let w := im_width bgr in
  let s := Nat.min h w in
  let y0 := ((h - s) / 2)%nat in
  let x0 := ((w - s) / 2)%nat in
  let crop := slice bgr y0 (y0 + s) x0 (x0 + s) in
  im_height crop = s /\ im_width crop = s /\ well_formed crop /\
  (forall i j, (i < s)%nat -> (j < s)%nat ->
     pixel crop i j = pixel bgr (y0 + i) (x0 + j)) /\
  (h = w -> crop = bgr).
Proof.
  intros Hwf h w s y0 x0 crop.
  assert (y0 <= h - s - y0)%nat as Hy by apply half_margin.
  assert (x0 <= w - s - x0)%nat as Hx by apply half_margin.
  assert (s <= h /\ s <= w)%nat as [Hsh Hsw] by (unfold s; lia).
  assert (h = w -> y0 = 0%nat /\ x0 = 0%nat /\ s = h) as Hsq.
  { intros Hhw. unfold y0, x0.
    assert (s = h) as -> by (unfold s; lia).
    by rewrite <- Hhw, Nat.sub_diag. }
  assert (length (im_rows bgr) = h) as Hlen by done.
  clearbody y0 x0 s h.
  assert (y0 + s - y0 = s)%nat as Ey by lia.
  assert (x0 + s - x0 = s)%nat as Ex by lia.
  assert (forall row, row ∈ im_rows bgr -> length row = w) as Hrow.
  { intros row Hin. unfold well_formed in Hwf.
    by eapply Forall_forall in Hwf. }
  unfold crop, slice, im_height. simpl. rewrite Ey, Ex. fold w.
  split_and!.
  - rewrite length_fmap, length_take, length_drop. lia.
  - lia.
  - unfold well_formed. simpl. apply Forall_forall.
    intros row' (row & -> & Hin)%list_elem_of_fmap.
    apply elem_of_take in Hin as (k & Hk & _).
    rewrite lookup_drop in Hk. apply list_elem_of_lookup_2 in Hk as Hin.
    rewrite length_take, length_drop, (Hrow row Hin). lia.
  - intros i j Hi Hj. unfold pixel. simpl.
    rewrite list_lookup_fmap, lookup_take_lt, lookup_drop by done.
    destruct (im_rows bgr !! (y0 + i)%nat) as [row|]; [|done]. simpl.
    by rewrite lookup_take_lt, lookup_drop.
  - intros Hhw. destruct (Hsq Hhw) as (-> & -> & ->).
    destruct bgr as [w' rows]. simpl in *. unfold w in *.
    simpl in *. f_equal; [lia|].
    rewrite drop_0, take_ge by lia.
    rewrite <- (list_fmap_id rows) at 2. apply list_fmap_ext.
    intros k row Hk. simpl. rewrite drop_0. apply take_ge.
    rewrite (Hrow row) by (by eapply list_elem_of_lookup_2). lia.
Qed.

(** X12. On an image whose rows all have the announced width,
    [center_crop_square] cuts out the square whose side is the shorter
    side of the image: pixel (i, j) of the cut is pixel (y0 + i, x0 + j) of
    the image, the cut spans the shorter side entirely, and on the longer
    side the margin before it is the margin after it or one pixel less.  A
    square image is cut to itself.  The cut is returned as it is when its
    side is at least [size_min], and handed to the resizer with the target
    [size_min] by [size_min] otherwise. *)
Theorem X12_center_crop_is_the_central_square
    (bgr : Image A) (size_min : Z) :
  well_formed bgr ->
  let h := im_height bgr in
  let w := im_width bgr in
  let s := Nat.min h w in
  let y0 := ((h - s) / 2)%nat in
  let x0 := ((w - s) / 2)%nat in
  exists crop,
    im_height crop = s /\ im_width crop = s /\ well_formed crop /\
    (forall i j, (i < s)%nat -> (j < s)%nat ->
       pixel crop i j = pixel bgr (y0 + i) (x0 + j)) /\
    (y0 <= h - s - y0 <= y0 + 1)%nat /\
    (x0 <= w - s - x0 <= x0 + 1)%nat /\
    (y0 = 0%nat \/ x0 = 0%nat) /\
    (h = w -> crop = bgr) /\
    (size_min <= Z.of_nat s ->
       center_crop_square resize bgr size_min = Some crop) /\
    (Z.of_nat s < size_min ->
       center_crop_square resize bgr size_min = resize crop size_min size_min).
Proof.
  intros Hwf h w s y0 x0.
  destruct (central_square bgr Hwf) as (H1 & H2 & H3 & H4 & H5).
  exists (slice bgr y0 (y0 + s) x0 (x0 + s)).
  split; [exact H1|]. split; [exact H2|]. split; [exact H3|].
  split; [exact H4|]. split; [apply half_margin|].
  split; [apply half_margin|]. split; [|split; [exact H5|split]].
  - unfold y0, x0, s.
    destruct (Nat.min_spec h w) as [[_ ->]|[_ ->]];
      [left|right]; by rewrite Nat.sub_diag.
  - intros Hle. unfold center_crop_square. cbv zeta. fold h w s y0 x0.
    by rewrite (proj2 (Z.ltb_ge _ _) Hle).
  - intros Hlt. unfold center_crop_square. cbv zeta. fold h w s y0 x0.
    by rewrite (proj2 (Z.ltb_lt _ _) Hlt).
Qed.

(** X13. Before the sharpness test [collect_faces] leaves an image alone
    when both its sides are at least [min_face].  Any other image is cut to
    its central square and that square is always handed to the resizer, for
    the size [min_face] by [min_face]: the pipeline never works on a bare
    cut, and never shrinks an image. *)
Theorem X13_small_images_are_cut_and_resized
    (bgr : Image A) (min_face : Z) :
  well_formed bgr ->
  let s := Nat.min (im_height bgr) (im_width bgr) in
  (min_face <= Z.of_nat s -> crop_if_small resize bgr min_face = Some bgr) /\
  (Z.of_nat s < min_face ->
   exists crop,
     crop_if_small resize bgr min_face = resize crop min_face min_face /\
     im_height crop = s /\ im_width crop = s /\ well_formed crop /\
     Z.of_nat (im_height crop) < min_face /\
     forall i j, (i < s)%nat -> (j < s)%nat ->
       pixel crop i j =
         pixel bgr ((im_height bgr - s) / 2 + i) ((im_width bgr - s) / 2 + j)).
Proof.
  intros Hwf s.
  destruct (central_square bgr Hwf) as (H1 & H2 & H3 & H4 & _).
  fold s in H1, H2, H4. split.
  - intros Hle. unfold crop_if_small. fold s.
    by rewrite (proj2 (Z.ltb_ge _ _) Hle).
  - intros Hlt. eexists. split_and!; [|exact H1|exact H2|exact H3| |exact H4].
    + unfold crop_if_small, center_crop_square. cbv zeta. fold s.
      by rewrite !(proj2 (Z.ltb_lt _ _) Hlt).
    + rewrite H1. done.
Qed.

End Crop.

(** ** app.py: find_common_parent and count_images_in_folder *)






Lemma image_extensions_eq : image_extensions = IMG_EXTS.
Proof. reflexivity. Qed.

(** X15. [count_images_in_folder] counts the listed paths that are regular
    files and that [is_image] accepts: the extension list of app.py is the
    one of the router.  The count is therefore at most the number of files
    [collect_faces] opens in that folder, and equal to it when every listed
    path with an image extension is a regular file; when that count is
    zero, [collect_faces] finds nothing and [main] ends with "no usable
    faces". *)
Theorem X15_count_images_matches_the_files_of_collect_faces
    (c : Collaborators) (fs : FS) (folder_path : path) :
  let files := filter (fun p => is_image p = true) (rglob c folder_path) in
  count_images_in_folder c fs folder_path
    = length (filter (fun p => p ∈ dom (fs_files fs)) files) /\
  (count_images_in_folder c fs folder_path <= length files)%nat /\
  ((forall p, p ∈ files -> p ∈ dom (fs_files fs)) ->
   count_images_in_folder c fs folder_path = length files /\
   (count_images_in_folder c fs folder_path = 0%nat ->
    (forall mf bt ds gid, collect_faces c folder_path mf bt ds gid = []) /\
    (forall order args fs0, input_dir args = folder_path ->
       main c order args fs0 = (Ok NoUsableFaces, fs0)))).
Proof.
  intros files.
  assert (count_images_in_folder c fs folder_path
          = length (filter (fun p => p ∈ dom (fs_files fs)) files)) as Hcount.
  { unfold count_images_in_folder, files. rewrite list_filter_filter.
    f_equal. apply list_filter_iff. intros p. unfold is_image.
    rewrite bool_decide_eq_true, image_extensions_eq. tauto. }
  split; [done|]. split.
  { rewrite Hcount. apply length_filter. }
  intros Hfiles.
  assert (count_images_in_folder c fs folder_path = length files) as Hall.
  { rewrite Hcount. f_equal. by apply filter_all. }
  split; [done|]. intros Hzero.
  assert (forall mf bt ds gid, collect_faces c folder_path mf bt ds gid = [])
    as Hnil.
  { intros mf bt ds gid. unfold collect_faces. fold files.
    rewrite Hall in Hzero. apply nil_length_inv in Hzero. by rewrite Hzero. }
  split; [done|]. intros order args fs0 Hin. unfold main.
  by rewrite Hin, Hnil.
Qed.

(** ** The files of a completed call *)

Section Outputs.
Context (order : SetOrder).
Context (records : list FaceRec) (labels : list Z).
Context (out_dir : path) (group_thr : Z).

(** Why an entry is in the plan, with the folder looked up by label. *)
Lemma full_plan_why E c2n pp st (s d : path) :
  route_plan order records labels out_dir group_thr = Ok (E, c2n, pp, st) ->
  (s, d) ∈ full_plan order out_dir pp st <->
  (exists lab person, on_image records labels s lab /\ lab ∈ E /\
     dict_lookup c2n lab = Some person /\
     d = person_dst out_dir s person) \/
  ((exists lab, on_image records labels s lab /\ (lab ∉ E) /\ lab ≠ noise) /\
   d = joinpath (group_only_dir out_dir) (name s)) \/
  (((exists lab, on_image records labels s lab) /\
    forall lab, on_image records labels s lab -> lab = noise) /\
   d = joinpath (unknown_dir out_dir) (name s)).
Proof.
  intros Hplan.
  pose proof (route_plan_facts records labels out_dir group_thr
                order E c2n pp st Hplan) as (_ & _ & _ & _ & Hpp & Hg & Hu).
  rewrite full_plan_elem, Hpp, Hg, Hu. tauto.
Qed.

Lemma route_files_after
    (fs : FS) (v : list (Z * string) * path * gset Z) (fs' : FS) :
  names_ok records -> no_nested fs out_dir ->
  route_by_clusters order records labels out_dir group_thr fs = (Ok v, fs') ->
  forall q : path, q ∈ dom (fs_files fs') <->
    q ∈ dom (fs_files fs) \/ q = report_path out_dir \/
    exists s : path,
      (exists lab person, on_image records labels s lab /\ lab ∈ v.2 /\
         dict_lookup v.1.1 lab = Some person /\
         q = person_dst out_dir s person) \/
      ((exists lab, on_image records labels s lab /\ (lab ∉ v.2) /\
                    lab ≠ noise) /\
       q = joinpath (group_only_dir out_dir) (name s)) \/
      (((exists lab, on_image records labels s lab) /\
        forall lab, on_image records labels s lab -> lab = noise) /\
       q = joinpath (unknown_dir out_dir) (name s)).
Proof.
  intros Hnames Hnest Hrun q.
  destruct (route_plan_total order records labels out_dir group_thr)
    as (E & pp & st & Hplan & _). simpl in Hplan.
  set (c2n := cluster_to_name_of (eligible_sorted_of order E)) in *.
  destruct (route_phases order records labels out_dir group_thr _ _ _ _ _ _ _
              Hplan Hrun)
    as (rA & fsA & plan' & rB & fsB & HA & HB & _ & _ & _ & _ & Hf).
  destruct Hf as [[_ Hno]|(Hv & -> & -> & -> & Hfiles)]; [by destruct (Hno v)|].
  injection Hv as ->. simpl.
  destruct (completed_run_state records labels out_dir group_thr order
              E c2n pp st fs fsA fsB Hplan Hnames Hnest HA HB) as [_ Hdst].
  assert (forall (s d : path), (s, d) ∈ full_plan order out_dir pp st ->
            d ∉ fs_dirs fsA) as Hnd.
  { intros s d Hin. eapply planned_not_dir; eauto. }
  apply for_each_ensure_dir_spec in HA as ((FA & _) & _).
  apply exec_spec in HB as (evs & _ & Hsub & _ & _ & Hmono & Hnew & _).
  rewrite Hfiles, dom_insert, elem_of_union, elem_of_singleton.
  split.
  - intros [->|Hq]; [by right; left|].
    apply Hnew in Hq as [Hq|(s & d & Hin & ->)]; [left; by rewrite <- FA|].
    assert ((s, d) ∈ full_plan order out_dir pp st) as Hin'.
    { eapply elem_of_sublist; [exact Hin|exact Hsub]. }
    right. right. exists s.
    assert (copy_target fsA s d = d) as ->.
    { unfold copy_target. rewrite decide_False; [done|]. by eapply Hnd. }
    by apply (full_plan_why E c2n pp st s d Hplan).
  - intros [Hq|[->|[s Hs]]]; [|by left|].
    + right. apply Hmono. by rewrite FA.
    + right. apply (Hdst s). by apply (full_plan_why E c2n pp st s q Hplan).
Qed.

(** X16. With records that name files and no directory inside a bucket
    beforehand, the files present after a call that returns are exactly the
    files present before, the report, and the destinations the routing
    rules give: for every image the copy in the folder of each eligible
    person on it, the copy in [__group_only__] when a cluster that is not
    eligible is on it, and the copy in [__unknown__] when it shows only
    noise.  Nothing else is created and nothing is missing. *)
Theorem X16_files_after_a_completed_call
    (fs : FS) (v : list (Z * string) * path * gset Z) (fs' : FS) :
  names_ok records -> no_nested fs out_dir ->
  route_by_clusters order records labels out_dir group_thr fs = (Ok v, fs') ->
  forall q : path, q ∈ dom (fs_files fs') <->
    q ∈ dom (fs_files fs) \/ q = report_path out_dir \/
    exists s : path,
      (exists lab person, on_image records labels s lab /\ lab ∈ v.2 /\
         dict_lookup v.1.1 lab = Some person /\
         q = person_dst out_dir s person) \/
      ((exists lab, on_image records labels s lab /\ (lab ∉ v.2) /\
                    lab ≠ noise) /\
       q = joinpath (group_only_dir out_dir) (name s)) \/
      (((exists lab, on_image records labels s lab) /\
        forall lab, on_image records labels s lab -> lab = noise) /\
       q = joinpath (unknown_dir out_dir) (name s)).
Proof. apply route_files_after. Qed.

(** X17. The row of the report and the copy on disk agree.  After a call
    that returns, every row names a folder that holds the row's image: some
    source image with the file name of the row is present in the bucket the
    row assigns.  And every image the call placed in a bucket has a row
    with its file name and that bucket. *)
Theorem X17_report_and_copies_agree
    (fs : FS) (v : list (Z * string) * path * gset Z) (fs' : FS) :
  route_by_clusters order records labels out_dir group_thr fs = (Ok v, fs') ->
  exists rows plan,
    fs_files fs' !! report_path out_dir = Some (Csv report_header rows) /\
    (forall s d, (s, d) ∈ plan -> materialized fs' s d) /\
    (exists evs, fs_copied fs' = fs_copied fs ++ evs /\ evs `sublist_of` plan) /\
    (forall row, row ∈ rows ->
       exists s d, (s, d) ∈ plan /\ name s = row_file row /\
         in_bucket out_dir (row_assigned_folder row) d) /\
    (forall s d, (s, d) ∈ plan ->
       exists row, row ∈ rows /\ row_file row = name s /\
         in_bucket out_dir (row_assigned_folder row) d).
Proof.
  intros Hrun.
  destruct (route_events order records labels out_dir group_thr fs (Ok v) fs'
              Hrun) as (E & pp & st & evs & Hplan & Hc & Hsub & _ & Hdone).
  destruct (Hdone v eq_refl) as [-> Hmat].
  set (c2n := cluster_to_name_of (eligible_sorted_of order E)) in *.
  pose proof (route_plan_log order records labels out_dir group_thr
                E c2n pp st Hplan) as Hlog.
  assert (noise ∉ E) as HnE by (by eapply noise_not_eligible).
  destruct (route_phases order records labels out_dir group_thr _ _ _ _ _ _ _
              Hplan Hrun)
    as (rA & fsA & plan' & rB & fsB & _ & _ & _ & _ & _ & _ & Hf).
  destruct Hf as [[_ Hno]|(_ & _ & _ & _ & Hfiles)];
    [by destruct (Hno (c2n, report_path out_dir, E))|].
  exists (log st), (full_plan order out_dir pp st).
  split; [by rewrite Hfiles, lookup_insert_eq|].
  split; [done|]. split; [by exists evs|].
  assert (forall lab person, dict_lookup c2n lab = Some person -> person ≠ "")
    as Hperson.
  { intros lab person (i & _ & ->)%cluster_to_name_lookup_inv.
    apply person_name_not_shared. }
  split.
  - intros row Hrow. rewrite Hlog in Hrow.
    apply list_elem_of_omap in Hrow as ([r lab] & Hin & Hrow).
    apply list_elem_of_lookup in Hin as [i Hi]. apply face_at_zip in Hi.
    assert (on_image records labels (img_path r) lab) as Hon
      by (by exists i, r).
    simpl in Hrow. exists (img_path r).
    destruct (decide (lab ∈ E)) as [HlE|HlE].
    + destruct (dict_lookup c2n lab) as [person|] eqn:Hp; [|done].
      injection Hrow as <-. simpl.
      exists (person_dst out_dir (img_path r) person).
      split_and!; [|done|].
      * apply (full_plan_why E c2n pp st _ _ Hplan). left. by exists lab, person.
      * apply in_bucket_joinpath; [by eapply Hperson|done].
    + destruct (decide (lab ≠ noise)) as [Hn|Hn].
      * injection Hrow as <-. simpl. eexists. split_and!; [|done|].
        -- apply (full_plan_why E c2n pp st _ _ Hplan). right. left.
           split; [|done]. by exists lab.
        -- by apply in_bucket_joinpath.
      * destruct (decide (noise_only _ _ _)) as [Hno|Hno]; [|done].
        injection Hrow as <-. simpl. eexists. split_and!; [|done|].
        -- apply (full_plan_why E c2n pp st _ _ Hplan). right. right.
           split; [|done]. split; [by exists lab|]. by apply noise_only_spec.
        -- by apply in_bucket_joinpath.
  - intros s d Hin.
    apply (full_plan_why E c2n pp st s d Hplan) in Hin
      as [(lab & person & Hon & HlE & Hp & ->)|
          [[(lab & Hon & HlE & Hn) ->]|[[[lab Hon] Hall] ->]]].
    + destruct Hon as (i & r & Hface & <-).
      exists (face_row (img_path r) person "eligible_person_image" r).
      split_and!; [|done|].
      * rewrite Hlog. apply list_elem_of_omap. exists (r, lab). split.
        { apply face_at_zip in Hface. by eapply list_elem_of_lookup_2. }
        simpl. rewrite decide_True by done. by rewrite Hp.
      * simpl. apply in_bucket_joinpath; [by eapply Hperson|done].
    + destruct Hon as (i & r & Hface & <-).
      exists (face_row (img_path r) "__group_only__"
                "group_only_person_on_image" r).
      split_and!; [|done|].
      * rewrite Hlog. apply list_elem_of_omap. exists (r, lab). split.
        { apply face_at_zip in Hface. by eapply list_elem_of_lookup_2. }
        simpl. rewrite decide_False by done. by rewrite decide_True.
      * simpl. by apply in_bucket_joinpath.
    + pose proof (Hall lab Hon) as ->.
      destruct Hon as (i & r & Hface & <-).
      exists (face_row (img_path r) "__unknown__" "noise_only_image" r).
      split_and!; [|done|].
      * rewrite Hlog. apply list_elem_of_omap. exists (r, noise). split.
        { apply face_at_zip in Hface. by eapply list_elem_of_lookup_2. }
        simpl. rewrite (decide_False (P := noise ∈ E)) by done.
        try rewrite (decide_False (P := noise ≠ noise))
          by (by intros H; apply H).
        rewrite decide_True; [done|]. by apply noise_only_spec.
      * simpl. by apply in_bucket_joinpath.
Qed.

End Outputs.

(** ** The threshold *)

(** X18. Raising [group_thr] can only make more clusters eligible.  At the
    extremes: when every record has more than [group_thr] faces on its
    image, no cluster is eligible; when every record has at most
    [group_thr], every cluster other than noise is eligible, and then no
    call copies anything into [__group_only__]. *)
Theorem X18_eligibility_grows_with_group_thr
    (records : list FaceRec) (labels : list Z) (thr1 thr2 : Z) :
  thr1 <= thr2 ->
  exists E1 E2,
    eligible_clusters_of records labels thr1 = Ok E1 /\
    eligible_clusters_of records labels thr2 = Ok E2 /\
    E1 ⊆ E2 /\
    ((forall r, r ∈ records -> thr1 < faces_in_image r) -> E1 = ∅) /\
    ((forall r, r ∈ records -> faces_in_image r <= thr2) ->
     (forall lab, lab ∈ E2 <->
        lab ≠ noise /\ exists i r, face_at records labels i r lab) /\
     forall order out_dir fs r fs',
       route_by_clusters order records labels out_dir thr2 fs = (r, fs') ->
       exists evs, fs_copied fs' = fs_copied fs ++ evs /\
         forall s d, (s, d) ∈ evs -> ~ in_bucket out_dir "__group_only__" d).
Proof.
  intros Hle.
  destruct (eligible_clusters_of_spec records labels thr1) as (E1 & HE1 & H1).
  destruct (eligible_clusters_of_spec records labels thr2) as (E2 & HE2 & H2).
  exists E1, E2. split_and!; [done..| | |].
  - intros lab (Hn & i & r & Hf & Hthr)%H1. apply H2.
    split; [done|]. exists i, r. split; [done|lia].
  - intros Hbig. apply set_eq. intros lab.
    split; [|by intros ?%not_elem_of_empty].
    intros (_ & i & r & [Hr _] & Hthr)%H1.
    apply list_elem_of_lookup_2, Hbig in Hr. lia.
  - intros Hsmall.
    assert (forall lab, lab ∈ E2 <->
              lab ≠ noise /\ exists i r, face_at records labels i r lab) as Hall.
    { intros lab. rewrite H2. split.
      - intros (Hn & i & r & Hf & _). split; [done|]. by exists i, r.
      - intros (Hn & i & r & Hf). split; [done|]. exists i, r.
        split; [done|]. destruct Hf as [Hr _].
        by apply list_elem_of_lookup_2, Hsmall in Hr. }
    split; [done|]. intros order out_dir fs r fs' Hrun.
    destruct (route_copies _ _ _ _ _ _ _ _ Hrun)
      as (E & pp & st & evs & Hplan & Hc & Hsub).
    exists evs. split; [done|]. intros s d Hin Hb.
    assert ((s, d) ∈ full_plan order out_dir pp st) as Hfull.
    { eapply elem_of_sublist; [exact Hin|exact Hsub]. }
    pose proof (route_plan_facts records labels out_dir thr2
                  order E _ pp st Hplan) as (_ & HE & _).
    assert (E = E2) as -> by congruence.
    apply (full_plan_cases order records labels out_dir thr2
             E2 _ pp st s d Hplan) in Hfull
      as [(lab & i & _ & _ & _ & ->)|[[(lab & Hon & HlE & Hn) _]|[_ ->]]].
    + unfold person_dst in Hb. apply in_bucket_joinpath in Hb.
      * by destruct (person_name_not_shared i) as (_ & ? & _).
      * apply person_name_not_shared.
    + apply HlE, Hall. split; [done|].
      destruct Hon as (i & rec & Hf & _). by exists i, rec.
    + unfold unknown_dir in Hb. by apply in_bucket_joinpath in Hb.
Qed.

(** ** app.py: the processing queue *)

Lemma list_remove_absent (x : path) (xs : list path) :
  x ∉ xs -> App.list_remove x xs = xs.
Proof.
  induction xs as [|y xs IH]; intros Hx; simpl; [done|].
  rewrite decide_False by (intros ->; apply Hx; by apply elem_of_cons; left).
  f_equal. apply IH. intros ?. apply Hx. by apply elem_of_cons; right.
Qed.

Lemma list_remove_present (x : path) (xs : list path) :
  x ∈ xs ->
  length xs = S (length (App.list_remove x xs)) /\
  (NoDup xs -> x ∉ App.list_remove x xs) /\
  App.list_remove x xs `sublist_of` xs.
Proof.
  induction xs as [|y xs IH]; intros Hx; [by apply elem_of_nil in Hx|].
  simpl. destruct (decide (x = y)) as [->|Hne].
  - split_and!; [done| |by apply sublist_cons].
    intros Hnd. by apply NoDup_cons in Hnd as [? _].
  - apply elem_of_cons in Hx as [?|Hx]; [done|].
    destruct (IH Hx) as (H1 & H2 & H3). split_and!.
    + simpl. by rewrite H1.
    + intros Hnd. apply NoDup_cons in Hnd as [_ Hnd].
      intros [?|?]%elem_of_cons; [done|]. by apply H2.
    + by apply sublist_skip.
Qed.

(** X19. [add_to_queue] appends a folder that is not yet queued and does
    nothing for one that is: the folder is in the queue afterwards, a queue
    without repetition stays so, the folders already queued keep their
    places, and adding the same folder again changes nothing, not even the
    log.  What is being processed is not touched. *)
Theorem X19_add_to_queue_never_duplicates
    (env : App.Env) (folder_path : path) (ss : App.Session) :
  let ss' := App.add_to_queue env folder_path ss in
  folder_path ∈ App.processing_queue ss' /\
  (NoDup (App.processing_queue ss) -> NoDup (App.processing_queue ss')) /\
  (folder_path ∈ App.processing_queue ss -> ss' = ss) /\
  (folder_path ∉ App.processing_queue ss ->
     App.processing_queue ss' = App.processing_queue ss ++ [folder_path] /\
     exists logs, App.processing_logs ss'
       = Some (logs ++ [App.line_queue_added env (name folder_path)]) /\
       (forall l, App.processing_logs ss = Some l -> logs = l)) /\
  App.add_to_queue env folder_path ss' = ss' /\
  App.current_processing ss' = App.current_processing ss /\
  App.processing_status ss' = App.processing_status ss /\
  App.processing_state ss' = App.processing_state ss.
Proof.
  intros ss'. unfold ss', App.add_to_queue.
  destruct (decide (folder_path ∉ App.processing_queue ss)) as [Hout|Hin].
  - cbv zeta. split_and!.
    + unfold App.ensure_logs. simpl.
      destruct (App.processing_logs ss); simpl; set_solver.
    + intros Hnd. unfold App.ensure_logs. simpl.
      assert (NoDup (App.processing_queue ss ++ [folder_path])) as Hnd'.
      { apply NoDup_app. split_and!; [done| |apply NoDup_singleton].
        intros x Hx Hx'. apply list_elem_of_singleton in Hx'. by subst x. }
      by destruct (App.processing_logs ss).
    + done.
    + intros _. unfold App.ensure_logs. simpl.
      destruct (App.processing_logs ss) as [l|] eqn:Hl; simpl; rewrite ?Hl.
      * split; [done|]. exists l. split; [done|]. by intros ? [= ->].
      * split; [done|]. exists []. split; [done|]. by intros ? [=].
    + rewrite decide_False; [done|]. intros Hnot. apply Hnot.
      unfold App.ensure_logs. simpl.
      destruct (App.processing_logs ss); simpl; set_solver.
    + unfold App.ensure_logs. simpl. by destruct (App.processing_logs ss).
    + unfold App.ensure_logs. simpl. by destruct (App.processing_logs ss).
    + unfold App.ensure_logs. simpl. by destruct (App.processing_logs ss).
  - apply dec_stable in Hin.
    split_and!; [done..| | | | |]; try done.
    by rewrite decide_False by (by intros H; apply H).
Qed.

Lemma process_next_cases (env : App.Env) (ss : App.Session) (fs : FS)
    (logs : list string) :
  App.processing_logs ss = Some logs ->
  exists ss1,
    App.processing_queue ss1
      = (match App.current_processing ss with
         | Some current => App.list_remove current (App.processing_queue ss)
         | None => App.processing_queue ss
         end) /\
    App.processing_status ss1 = App.processing_status ss /\
    App.results ss1 = App.results ss /\
    App.output_dir ss1 = App.output_dir ss /\
    is_Some (App.processing_logs ss1) /\
    ((exists next_folder rest ss3,
        App.processing_queue ss1 = next_folder :: rest /\
        App.processing_status ss = "processing" /\
        App.processing_queue ss3 = App.processing_queue ss1 /\
        App.current_processing ss3 = Some next_folder /\
        App.auto_process_current ss3 = true /\
        App.processing_status ss3 = "processing" /\
        App.process_next_in_queue env ss fs
          = (let '(ss4, fs4) :=
               App.scan_folder_for_images env next_folder ss3 fs in
             (App.Returned, ss4, fs4))) \/
     ((App.processing_queue ss1 = [] \/
       App.processing_status ss ≠ "processing") /\
      exists ss2,
        App.process_next_in_queue env ss fs = (App.RerunException, ss2, fs) /\
        App.processing_queue ss2 = App.processing_queue ss1 /\
        App.current_processing ss2 = None /\
        App.processing_status ss2 = "idle" /\
        App.processing_state ss2 = "completed" /\
        App.results ss2 = App.results ss)).
Proof.
  intros Hlogs. unfold App.process_next_in_queue.
  set (removed :=
    match App.current_processing ss with
    | Some current =>
        if decide (current ∈ App.processing_queue ss) then
          App.log_append (App.line_queue_removed env (name current))
            (App.set_queue
               (App.list_remove current (App.processing_queue ss)) ss)
        else Some ss
    | None => Some ss
    end).
  assert (exists ss1, removed = Some ss1 /\
            App.processing_queue ss1
              = (match App.current_processing ss with
                 | Some current =>
                     App.list_remove current (App.processing_queue ss)
                 | None => App.processing_queue ss
                 end) /\
            App.processing_status ss1 = App.processing_status ss /\
            App.results ss1 = App.results ss /\
            App.output_dir ss1 = App.output_dir ss /\
            is_Some (App.processing_logs ss1)) as (ss1 & -> & Hq & Hs & Hr & Ho & Hl).
  { unfold removed. destruct (App.current_processing ss) as [cur|].
    - destruct (decide (cur ∈ App.processing_queue ss)) as [Hin|Hout].
      + unfold App.log_append. simpl. rewrite Hlogs. eexists.
        split; [done|]. simpl. split_and!; [done..|by eexists].
      + exists ss. rewrite list_remove_absent by done.
        split_and!; [done..|by rewrite Hlogs].
    - exists ss. split_and!; [done..|by rewrite Hlogs]. }
  exists ss1. split_and!; [done..|].
  destruct Hl as [l1 Hl1].
  destruct (App.processing_queue ss1) as [|next rest] eqn:Hq1.
  - right. split; [by left|]. unfold App.queue_completed, App.log_append.
    simpl. rewrite Hl1. eexists. split; [done|]. simpl.
    split_and!; done.
  - destruct (decide (App.processing_status ss1 = "processing")) as [Hp|Hp].
    + left. unfold App.log_append. simpl. rewrite Hl1.
      exists next, rest,
        (App.set_auto true
           (App.set_logs (Some (l1 ++ [App.line_queue_next env (name next)]))
              (App.set_current (Some next) ss1))).
      split; [done|]. split; [by rewrite <- Hs|]. simpl.
      split_and!; done.
    + right. split; [right; by rewrite <- Hs|].
      unfold App.queue_completed, App.log_append.
      simpl. rewrite Hl1. eexists. split; [done|]. simpl.
      split_and!; done.
Qed.

(** X20. With the log in place, [process_next_in_queue] never raises.  It
    takes the folder being processed out of the queue: the queue gets one
    entry shorter, and in a queue without repetition the folder is gone.
    If folders remain and the status is "processing", the first of them
    becomes the current one and is handed to the scan with auto-processing
    switched on.  Otherwise the queue is done: nothing is current, the
    status is "idle", the state "completed", the file system untouched and
    the script is rerun. *)
Theorem X20_the_queue_advances
    (env : App.Env) (ss : App.Session) (fs : FS) (logs : list string)
    (sig : App.signal) (ss' : App.Session) (fs' : FS) :
  App.processing_logs ss = Some logs ->
  App.process_next_in_queue env ss fs = (sig, ss', fs') ->
  let q := match App.current_processing ss with
           | Some current => App.list_remove current (App.processing_queue ss)
           | None => App.processing_queue ss
           end in
  (forall e, sig ≠ App.Raised e) /\
  (forall current, App.current_processing ss = Some current ->
     current ∈ App.processing_queue ss ->
     length (App.processing_queue ss) = S (length q) /\
     (NoDup (App.processing_queue ss) -> current ∉ q)) /\
  ((q = [] \/ App.processing_status ss ≠ "processing") ->
     sig = App.RerunException /\ fs' = fs /\
     App.processing_queue ss' = q /\
     App.current_processing ss' = None /\
     App.processing_status ss' = "idle" /\
     App.processing_state ss' = "completed") /\
  (forall next_folder rest,
     q = next_folder :: rest -> App.processing_status ss = "processing" ->
     sig = App.Returned /\
     exists ss3,
       (ss', fs') = App.scan_folder_for_images env next_folder ss3 fs /\
       App.processing_queue ss3 = q /\
       App.current_processing ss3 = Some next_folder /\
       App.auto_process_current ss3 = true).
Proof.
  intros Hlogs Hrun q.
  destruct (process_next_cases env ss fs logs Hlogs)
    as (ss1 & Hq & Hs & _ & _ & _ & Hcases).
  fold q in Hq. split_and!.
  - intros e ->.
    destruct Hcases as [(n & rest & ss3 & _ & _ & _ & _ & _ & _ & Heq)|
                        (_ & ss2 & Heq & _)];
      rewrite Heq in Hrun; [|done].
    by destruct (App.scan_folder_for_images env n ss3 fs).
  - intros current Hcur Hin. unfold q. rewrite Hcur.
    by destruct (list_remove_present current _ Hin) as (? & ? & _).
  - intros Hend.
    destruct Hcases as [(n & rest & ss3 & Hq1 & Hp & _)|
                        (_ & ss2 & Heq & H1 & H2 & H3 & H4 & _)].
    + rewrite Hq in Hq1. destruct Hend as [Hnil|Hnp]; [congruence|done].
    + rewrite Heq in Hrun. injection Hrun as <- <- <-.
      split_and!; [done..|congruence|done|done|done].
  - intros next rest Hnext Hp.
    destruct Hcases as [(n & rest' & ss3 & Hq1 & _ & H3 & H4 & H5 & _ & Heq)|
                        ([Hnil|Hnp] & _)]; [|congruence|done].
    rewrite Heq in Hrun.
    assert (n = next) as -> by congruence.
    destruct (App.scan_folder_for_images env next ss3 fs) as [ss4 fs4] eqn:Hscan.
    injection Hrun as <- <- <-. split; [done|].
    exists ss3. split_and!; [by rewrite Hscan|congruence|done|done].
Qed.

Lemma process_next_no_raise env ss fs e ss' fs' :
  is_Some (App.processing_logs ss) ->
  App.process_next_in_queue env ss fs ≠ (App.Raised e, ss', fs').
Proof.
  intros [logs Hlogs] Hrun.
  destruct (process_next_cases env ss fs logs Hlogs)
    as (ss1 & _ & _ & _ & _ & _ & Hcases).
  destruct Hcases as [(n & rest & ss3 & _ & _ & _ & _ & _ & _ & Heq)|
                      (_ & ss2 & Heq & _)];
    rewrite Heq in Hrun; [|done].
  by destruct (App.scan_folder_for_images env n ss3 fs).
Qed.

(** ** app.py: process_images *)

Section TryPipeline.
Context (env : App.Env) (c : Collaborators) (order : SetOrder).
Context (out : path) (ss : App.Session) (fs : FS).
Context (Hlogs : is_Some (App.processing_logs ss)).

Lemma on_exception_logged e (s : App.Session) :
  is_Some (App.processing_logs s) ->
  exists s', App.on_exception env e s = (App.Returned, s') /\
    App.processing_state s' = "error" /\
    App.results s' = App.results s /\
    App.processing_queue s' = App.processing_queue s /\
    App.current_processing s' = App.current_processing s /\
    App.processing_status s' = App.processing_status s /\
    App.output_dir s' = App.output_dir s.
Proof.
  intros [l Hl]. unfold App.on_exception, App.log_append. simpl.
  rewrite Hl. eexists. split; [done|]. simpl. done.
Qed.

Lemma try_pipeline_spec sig ss' fs' :
  App.try_pipeline env c order out ss fs = (sig, ss', fs') ->
  let p := App.params ss in
  let records :=
    collect_faces c (App.input_dir ss) (App.min_face p) (App.blur_thr p)
      (App.det_size p) (App.gpu_id p) in
  (forall e, sig ≠ App.Raised e) /\
  (records = [] ->
     sig = App.Returned /\ fs' = fs /\
     App.processing_state ss' = App.processing_state ss /\
     App.results ss' = App.results ss /\
     App.processing_queue ss' = App.processing_queue ss /\
     App.current_processing ss' = App.current_processing ss /\
     App.processing_status ss' = App.processing_status ss /\
     App.output_dir ss' = App.output_dir ss) /\
  (forall e,
     cluster_faces c records (App.eps_sim p) (App.min_samples p) = Raise e ->
     records ≠ [] /\ sig = App.Returned /\ fs' = fs /\
     App.processing_state ss' = "error" /\
     App.results ss' = App.results ss /\
     App.processing_queue ss' = App.processing_queue ss /\
     App.current_processing ss' = App.current_processing ss /\
     App.processing_status ss' = App.processing_status ss /\
     App.output_dir ss' = App.output_dir ss) /\
  (forall labels e fs2, records ≠ [] ->
     cluster_faces c records (App.eps_sim p) (App.min_samples p) = Ok labels ->
     route_by_clusters order records labels out (App.group_thr p) fs
       = (Raise e, fs2) ->
     sig = App.Returned /\ fs' = fs2 /\
     App.processing_state ss' = "error" /\
     App.results ss' = App.results ss /\
     App.processing_queue ss' = App.processing_queue ss /\
     App.current_processing ss' = App.current_processing ss /\
     App.processing_status ss' = App.processing_status ss /\
     App.output_dir ss' = App.output_dir ss) /\
  (forall labels v fs2, records ≠ [] ->
     cluster_faces c records (App.eps_sim p) (App.min_samples p) = Ok labels ->
     route_by_clusters order records labels out (App.group_thr p) fs
       = (Ok v, fs2) ->
     exists ss4,
       App.process_next_in_queue env ss4 fs2 = (sig, ss', fs') /\
       App.results ss4
         = Some (App.mkResults v.1.1 v.2 out v.1.2 (length records)
                   (length (App.uploaded_files ss))) /\
       App.processing_state ss4 = "completed" /\
       App.processing_queue ss4 = App.processing_queue ss /\
       App.current_processing ss4 = App.current_processing ss).
Proof.
  intros Hrun p records. revert Hrun.
  destruct Hlogs as [l0 Hl0].
  unfold App.try_pipeline. cbv zeta. fold p. fold records.
  destruct records as [|r0 rs] eqn:Hrec.
  { intros [= <- <- <-]. split_and!; [done|done|..].
    - intros e He. by rewrite cluster_faces_nil in He.
    - by intros labels e fs2 ?.
    - by intros labels v fs2 ?. }
  destruct (cluster_faces c (r0 :: rs) (App.eps_sim p) (App.min_samples p))
    as [labels|e] eqn:Hcl.
  2:{ destruct (on_exception_logged (App.PipelineError e) ss)
        as (s' & Heq & Hs'); [by eexists|].
      rewrite Heq. intros [= <- <- <-].
      split_and!; [done|done| |by intros ? ? ? _ [=]|by intros ? ? ? _ [=]].
      intros e' [= <-]. destruct Hs' as (? & ? & ? & ? & ? & ?). done. }
  set (ssa := App.set_logs _ ss).
  assert (is_Some (App.processing_logs ssa)) as Hla by (by eexists).
  destruct (route_by_clusters order (r0 :: rs) labels out (App.group_thr p) fs)
    as [[[[c2n report] E]|e] fs2] eqn:Hroute.
  2:{ destruct (on_exception_logged (App.PipelineError e) ssa Hla)
        as (s' & Heq & Hs').
      rewrite Heq. intros [= <- <- <-].
      split_and!; [done|done|by intros ? [=]| |].
      - intros ? ? ? _ [= <-] Hr. rewrite Hroute in Hr.
        injection Hr as <- <-.
        destruct Hs' as (? & ? & ? & ? & ? & ?). done.
      - intros ? ? ? _ [= <-] Hr. by rewrite Hroute in Hr. }
  set (ssb := App.set_state "completed" _).
  assert (is_Some (App.processing_logs ssb)) as Hlb by (by eexists).
  destruct (App.process_next_in_queue env ssb fs2) as [[sig0 ss5] fs5] eqn:Hnext.
  destruct sig0 as [|e|].
  - intros [= <- <- <-].
    split_and!; [done|done|by intros ? [=]| |].
    + intros ? ? ? _ [= <-] Hr. by rewrite Hroute in Hr.
    + intros ? v ? _ [= <-] Hr. rewrite Hroute in Hr.
      injection Hr as <- <-. exists ssb. done.
  - by apply process_next_no_raise in Hnext.
  - intros [= <- <- <-].
    split_and!; [done|done|by intros ? [=]| |].
    + intros ? ? ? _ [= <-] Hr. by rewrite Hroute in Hr.
    + intros ? v ? _ [= <-] Hr. rewrite Hroute in Hr.
      injection Hr as <- <-. exists ssb. done.
Qed.

End TryPipeline.

(** X21. [process_images] lets no exception of the pipeline escape.  The
    only exception it can raise is the one of creating a fresh output
    directory, before the [try].  When extraction finds no face it returns
    with the state still "processing".  When the clusterer or the router
    raises, it returns with the state "error", at the file system the
    failure left.  In these cases the results, the queue and the current
    folder are as before: the queue does not advance.  When the router
    returns, the results are recorded, the state is "completed", and the
    queue is advanced, which does not raise. *)
Theorem X21_process_images_contains_pipeline_errors
    (env : App.Env) (c : Collaborators) (order : SetOrder)
    (ss : App.Session) (fs : FS)
    (sig : App.signal) (ss' : App.Session) (fs' : FS) :
  App.process_images env c order ss fs = (sig, ss', fs') ->
  let p := App.params ss in
  let records :=
    collect_faces c (App.input_dir ss) (App.min_face p) (App.blur_thr p)
      (App.det_size p) (App.gpu_id p) in
  let out :=
    default (joinpath (joinpath (App.home env) "FaceSort_Results")
               ("facesort_" +:+ App.timestamp env)) (App.output_dir ss) in
  let made :=
    match App.output_dir ss with
    | Some _ => (Ok tt, fs)
    | None => ensure_dir out fs
    end in
  let quiet :=
    App.results ss' = App.results ss /\
    App.processing_queue ss' = App.processing_queue ss /\
    App.current_processing ss' = App.current_processing ss /\
    App.processing_status ss' = App.processing_status ss in
  (forall e, sig = App.Raised e ->
     e = App.PipelineError FileExistsError /\ App.output_dir ss = None /\
     made.1 = Raise FileExistsError /\ fs' = fs /\
     App.output_dir ss' = Some out) /\
  (made.1 = Ok tt ->
   (records = [] ->
      sig = App.Returned /\ fs' = made.2 /\
      App.processing_state ss' = "processing" /\ quiet) /\
   (forall e,
      cluster_faces c records (App.eps_sim p) (App.min_samples p) = Raise e ->
      records ≠ [] /\ sig = App.Returned /\ fs' = made.2 /\
      App.processing_state ss' = "error" /\ quiet) /\
   (forall labels e fs2, records ≠ [] ->
      cluster_faces c records (App.eps_sim p) (App.min_samples p) = Ok labels ->
      route_by_clusters order records labels out (App.group_thr p) made.2
        = (Raise e, fs2) ->
      sig = App.Returned /\ fs' = fs2 /\
      App.processing_state ss' = "error" /\ quiet) /\
   (forall labels v fs2, records ≠ [] ->
      cluster_faces c records (App.eps_sim p) (App.min_samples p) = Ok labels ->
      route_by_clusters order records labels out (App.group_thr p) made.2
        = (Ok v, fs2) ->
      exists ss4,
        App.process_next_in_queue env ss4 fs2 = (sig, ss', fs') /\
        App.results ss4
          = Some (App.mkResults v.1.1 v.2 out v.1.2 (length records)
                    (length (App.uploaded_files ss))) /\
        App.processing_state ss4 = "completed" /\
        App.processing_queue ss4 = App.processing_queue ss /\
        App.current_processing ss4 = App.current_processing ss)).
Proof.
  intros Hrun p records out made quiet.
  unfold App.process_images in Hrun. cbv zeta in Hrun.
  set (ss0 := App.set_state "processing"
                (App.set_logs
                   (Some (default [] (App.processing_logs (App.ensure_logs ss))
                          ++ [App.line_started env
                                (App.folder_name (App.ensure_logs ss))]))
                   (App.ensure_logs ss))) in *.
  assert (App.output_dir ss0 = App.output_dir ss /\
          App.params ss0 = App.params ss /\
          App.input_dir ss0 = App.input_dir ss /\
          App.results ss0 = App.results ss /\
          App.processing_queue ss0 = App.processing_queue ss /\
          App.current_processing ss0 = App.current_processing ss /\
          App.processing_status ss0 = App.processing_status ss /\
          App.uploaded_files ss0 = App.uploaded_files ss /\
          App.processing_state ss0 = "processing")
    as (Ho & Hp & Hi & Hr & Hq & Hc & Hs & Hu & Hst).
  { unfold ss0, App.ensure_logs. destruct (App.processing_logs ss); simpl;
      split_and!; done. }
  assert (forall d (s1 : App.Session) fs1,
            is_Some (App.processing_logs s1) ->
            App.params s1 = App.params ss -> App.input_dir s1 = App.input_dir ss ->
            App.results s1 = App.results ss ->
            App.processing_queue s1 = App.processing_queue ss ->
            App.current_processing s1 = App.current_processing ss ->
            App.processing_status s1 = App.processing_status ss ->
            App.uploaded_files s1 = App.uploaded_files ss ->
            App.processing_state s1 = "processing" ->
            App.try_pipeline env c order d s1 fs1 = (sig, ss', fs') ->
            (forall e, sig ≠ App.Raised e) /\
            (records = [] ->
               sig = App.Returned /\ fs' = fs1 /\
               App.processing_state ss' = "processing" /\ quiet) /\
            (forall e,
               cluster_faces c records (App.eps_sim p) (App.min_samples p)
                 = Raise e ->
               records ≠ [] /\ sig = App.Returned /\ fs' = fs1 /\
               App.processing_state ss' = "error" /\ quiet) /\
            (forall labels e fs2, records ≠ [] ->
               cluster_faces c records (App.eps_sim p) (App.min_samples p)
                 = Ok labels ->
               route_by_clusters order records labels d (App.group_thr p) fs1
                 = (Raise e, fs2) ->
               sig = App.Returned /\ fs' = fs2 /\
               App.processing_state ss' = "error" /\ quiet) /\
            (forall labels v fs2, records ≠ [] ->
               cluster_faces c records (App.eps_sim p) (App.min_samples p)
                 = Ok labels ->
               route_by_clusters order records labels d (App.group_thr p) fs1
                 = (Ok v, fs2) ->
               exists ss4,
                 App.process_next_in_queue env ss4 fs2 = (sig, ss', fs') /\
                 App.results ss4
                   = Some (App.mkResults v.1.1 v.2 d v.1.2 (length records)
                             (length (App.uploaded_files ss))) /\
                 App.processing_state ss4 = "completed" /\
                 App.processing_queue ss4 = App.processing_queue ss /\
                 App.current_processing ss4 = App.current_processing ss))
    as Htry.
  { intros d s1 fs1 Hl1 Hp1 Hi1 Hr1 Hq1 Hc1 Hs1 Hu1 Hst1 Hrun1.
    pose proof (try_pipeline_spec env c order d s1 fs1 Hl1 sig ss' fs' Hrun1)
      as (T0 & T1 & T2 & T3 & T4).
    cbv zeta in T1, T2, T3, T4.
    rewrite Hp1, Hi1 in T1, T2, T3, T4. fold p records in T1, T2, T3, T4.
    unfold quiet. split; [done|]. split_and!.
    - intros Hnil. destruct (T1 Hnil) as (? & ? & ? & ? & ? & ? & ? & _).
      split_and!; first [done|etrans; [eassumption|eassumption]].
    - intros e He. destruct (T2 e He) as (? & ? & ? & ? & ? & ? & ? & ? & _).
      split_and!; first [done|etrans; [eassumption|eassumption]].
    - intros labels e fs2 Hne Hcl Hroute.
      destruct (T3 labels e fs2 Hne Hcl Hroute)
        as (? & ? & ? & ? & ? & ? & ? & _).
      split_and!; first [done|etrans; [eassumption|eassumption]].
    - intros labels v fs2 Hne Hcl Hroute.
      destruct (T4 labels v fs2 Hne Hcl Hroute) as (ss4 & ? & ? & ? & ? & ?).
      exists ss4. rewrite <- Hu1.
      split_and!; first [done|etrans; [eassumption|eassumption]]. }
  rewrite Ho in Hrun. unfold made, out.
  destruct (App.output_dir ss) as [d|] eqn:Hout; simpl.
  - simpl in Hrun.
    assert (is_Some (App.processing_logs ss0)) as Hl0
      by (unfold ss0; by eexists).
    destruct (Htry d ss0 fs Hl0 Hp Hi Hr Hq Hc Hs Hu Hst Hrun) as (T0 & T).
    split; [|done]. intros e ->. by destruct (T0 e).
  - set (d := joinpath (joinpath (App.home env) "FaceSort_Results")
                ("facesort_" +:+ App.timestamp env)) in *.
    destruct (ensure_dir_cases d fs) as [[_ HE]|[_ HE]]; rewrite HE in Hrun |- *.
    + simpl in Hrun |- *.
      match type of Hrun with
      | App.try_pipeline _ _ _ _ ?s1 _ = _ =>
          assert (is_Some (App.processing_logs s1)) as Hl1 by (by eexists)
      end.
      destruct (Htry d _ _ Hl1 Hp Hi Hr Hq Hc Hs Hu Hst Hrun) as (T0 & T).
      split; [|done]. intros e ->. by destruct (T0 e).
    + simpl. injection Hrun as <- <- <-. split; [|done].
      intros e [= <-]. done.
Qed.

(** * The further properties on concrete runs *)

Lemma scenario_run_value :
  route_by_clusters elements_order scenario_records scenario_labels ["out"] 3
    scenario_fs
  = (Ok ([(0, "person_000")], ["out"; "clustering_report.csv"], {[0]}),
     scenario_result.2).
Proof. vm_compute. reflexivity. Qed.

(** Witness of X1: the scenario leaves image A where it was. *)
Lemma X1_witness :
  fs_files scenario_result.2 !! imgA = Some (Blob 1) /\
  fs_locked scenario_result.2 = ∅.
Proof.
  destruct (X1_nothing_changes_outside_the_output_root elements_order
              scenario_records scenario_labels ["out"] 3 scenario_fs
              scenario_result.1 scenario_result.2) as (H1 & _ & _ & H4).
  { vm_compute. reflexivity. }
  split; [|exact H4]. rewrite H1; [reflexivity|]. by_compute.
Defined.

(** Witness of X2: in the scenario the copy of image D holds what image D
    holds. *)
Lemma X2_witness :
  fs_files scenario_result.2 !! imgD = Some (Blob 4) /\
  exists evs, fs_copied scenario_result.2 = fs_copied scenario_fs ++ evs /\
    ((imgD, ["out"; "__unknown__"; "D.jpg"]) ∈ evs ->
     fs_files scenario_result.2 !! ["out"; "__unknown__"; "D.jpg"]
       = Some (Blob 4)).
Proof.
  destruct (X2_copies_never_overwrite_and_are_faithful elements_order
              scenario_records scenario_labels ["out"] 3 scenario_fs
              scenario_result.1 scenario_result.2
              scenario_names_ok scenario_no_nested)
    as (Hkeep & evs & Hc & Hev).
  { vm_compute. reflexivity. }
  split; [by apply Hkeep|]. exists evs. split; [exact Hc|].
  intros Hin. destruct (Hev _ _ Hin) as (_ & _ & Hsame & _).
  by apply Hsame.
Defined.

(** Witness of X3: the scenario has one eligible cluster and one person
    folder. *)
Lemma X3_witness : ["out"; "person_000"] ∈ fs_dirs scenario_result.2.
Proof.
  destruct (X3_person_folders_match_eligible_clusters elements_order
              scenario_records scenario_labels ["out"] 3 scenario_fs
              (Ok ([(0, "person_000")], ["out"; "clustering_report.csv"],
                   {[0]}))
              scenario_result.2 scenario_run_value)
    as (E & _ & _ & Hv).
  destruct (Hv _ eq_refl) as (HE & Hdirs & _). simpl in HE. subst E.
  apply (Hdirs 0%nat). vm_compute. lia.
Defined.

(** Witness of X4: the report of the scenario has six rows for seven
    faces; the noise face on image C has none. *)
Lemma X4_witness :
  exists rows,
    fs_files scenario_result.2 !! ["out"; "clustering_report.csv"]
      = Some (Csv report_header rows) /\
    length rows = 6%nat.
Proof.
  destruct (X4_report_has_one_row_per_routed_face elements_order
              scenario_records scenario_labels ["out"] 3 scenario_fs
              ([(0, "person_000")], ["out"; "clustering_report.csv"], {[0]})
              scenario_result.2 scenario_run_value)
    as (rows & Hfile & _ & Hlen & _).
  exists rows. split; [exact Hfile|]. rewrite Hlen. vm_compute. reflexivity.
Defined.

Lemma camera_records :
  collect_faces camera ["in"] 110 45%float 640 0 = [camera_record].
Proof. vm_compute. reflexivity. Qed.

(** Witness of X5: the record of image A in the camera roll. *)
Lemma X5_witness :
  is_image imgA = true /\ faces_in_image camera_record = 1.
Proof.
  destruct (X5_collected_records_describe_detections camera ["in"] 110
              45%float 640 0 camera_record) as (_ & H2 & _ & _ & H5 & _).
  { rewrite camera_records. apply list_elem_of_here. }
  split; [exact H2|exact H5].
Defined.

(** Witness of X6: image A of the camera roll has one record. *)
Lemma X6_witness :
  length (filter (fun r => img_path r = imgA)
            (collect_faces camera ["in"] 110 45%float 640 0)) = 1%nat.
Proof.
  destruct (X6_an_image_has_faces_in_image_records camera ["in"] 110
              45%float 640 0 imgA) as (_ & _ & H3).
  { by_compute. }
  apply H3; [by_compute|reflexivity|reflexivity].
Defined.

Lemma camera_main_value :
  main camera elements_order (args_of 2) camera_fs
  = (Ok (Routed [] ["out"; "clustering_report.csv"] ∅),
     (main camera elements_order (args_of 2) camera_fs).2).
Proof. vm_compute. reflexivity. Qed.


(** Witness of X9: the one copy of the camera roll. *)
Lemma X9_witness :
  exists evs,
    fs_copied (main camera elements_order (args_of 2) camera_fs).2
      = fs_copied camera_fs ++ evs /\
    forall s d, (s, d) ∈ evs -> is_image s = true /\ is_image d = true.
Proof.
  destruct (X9_main_copies_only_usable_images camera elements_order
              (args_of 2) camera_fs _ _ camera_main_value)
    as (evs & Hc & Hev).
  exists evs. split; [exact Hc|]. intros s d Hin.
  destruct (Hev s d Hin) as (_ & H2 & _ & _ & _ & _ & H7). by split.
Defined.





Lemma demo_image_well_formed : well_formed demo_image.
Proof. unfold well_formed, demo_image. simpl. by repeat constructor. Qed.

(** Witness of X12: the left two columns of a picture two high and three
    wide. *)
Lemma X12_witness :
  exists crop,
    center_crop_square no_resize demo_image 2 = Some crop /\
    im_height crop = 2%nat /\ im_width crop = 2%nat /\
    pixel crop 1 1 = Some 5%nat.
Proof.
  destruct (X12_center_crop_is_the_central_square no_resize demo_image 2
              demo_image_well_formed)
    as (crop & H1 & H2 & _ & Hpix & _ & _ & _ & _ & Hsome & _).
  exists crop. split_and!; [apply Hsome; vm_compute; discriminate|exact H1|exact H2|].
  rewrite (Hpix 1%nat 1%nat); [reflexivity|vm_compute; lia|vm_compute; lia].
Defined.

(** Witness of X13: the same picture is too small for faces of five
    pixels and goes to the resizer. *)
Lemma X13_witness :
  exists crop,
    crop_if_small no_resize demo_image 5 = no_resize crop 5 5 /\
    im_height crop = 2%nat.
Proof.
  destruct (X13_small_images_are_cut_and_resized no_resize demo_image 5
              demo_image_well_formed) as [_ Hsmall].
  destruct Hsmall as (crop & H1 & H2 & _); [vm_compute; reflexivity|].
  exists crop. split; [exact H1|exact H2].
Defined.

(** Witness of X16: the copy of image D in the scenario. *)
Lemma X16_witness :
  ["out"; "__unknown__"; "D.jpg"] ∈ dom (fs_files scenario_result.2).
Proof.
  apply (X16_files_after_a_completed_call elements_order scenario_records
           scenario_labels ["out"] 3 scenario_fs
           ([(0, "person_000")], ["out"; "clustering_report.csv"], {[0]})
           scenario_result.2 scenario_names_ok scenario_no_nested
           scenario_run_value).
  right. right. exists imgD. right. right. split; [|reflexivity]. split.
  - exists noise, 6%nat, (rec_of imgD 0 5). done.
  - apply all_noise_check. by_compute.
Defined.

(** Witness of X17: the scenario's report and plan. *)
Lemma X17_witness :
  exists rows,
    fs_files scenario_result.2 !! ["out"; "clustering_report.csv"]
      = Some (Csv report_header rows).
Proof.
  destruct (X17_report_and_copies_agree elements_order scenario_records
              scenario_labels ["out"] 3 scenario_fs
              ([(0, "person_000")], ["out"; "clustering_report.csv"], {[0]})
              scenario_result.2 scenario_run_value)
    as (rows & plan & Hfile & _).
  by exists rows.
Defined.

(** Witness of X18: the scenario with thresholds three and five. *)
Lemma X18_witness :
  exists E1 E2,
    eligible_clusters_of scenario_records scenario_labels 3 = Ok E1 /\
    eligible_clusters_of scenario_records scenario_labels 5 = Ok E2 /\
    E1 ⊆ E2.
Proof.
  destruct (X18_eligibility_grows_with_group_thr scenario_records
              scenario_labels 3 5) as (E1 & E2 & H1 & H2 & H3 & _).
  { lia. }
  by exists E1, E2.
Defined.

(** Witness of X20: the queue holds only the folder just processed. *)
Lemma X20_witness :
  (App.process_next_in_queue demo_env (demo_session 2) camera_fs).1.1
  = App.RerunException.
Proof.
  destruct (X20_the_queue_advances demo_env (demo_session 2) camera_fs []
              (App.process_next_in_queue demo_env (demo_session 2) camera_fs).1.1
              (App.process_next_in_queue demo_env (demo_session 2) camera_fs).1.2
              (App.process_next_in_queue demo_env (demo_session 2) camera_fs).2)
    as (_ & _ & Hend & _).
  { reflexivity. }
  { vm_compute. reflexivity. }
  apply Hend. left. vm_compute. reflexivity.
Defined.

(** Witness of X21: a [min_samples] the clusterer rejects ends in the
    state "error", and [process_images] returns. *)
Lemma X21_witness :
  (App.process_images demo_env camera elements_order (demo_session (-1))
     camera_fs).1.1 = App.Returned /\
  App.processing_state
    (App.process_images demo_env camera elements_order (demo_session (-1))
       camera_fs).1.2 = "error".
Proof.
  destruct (X21_process_images_contains_pipeline_errors demo_env camera
              elements_order (demo_session (-1)) camera_fs
              (App.process_images demo_env camera elements_order
                 (demo_session (-1)) camera_fs).1.1
              (App.process_images demo_env camera elements_order
                 (demo_session (-1)) camera_fs).1.2
              (App.process_images demo_env camera elements_order
                 (demo_session (-1)) camera_fs).2)
    as (_ & Hmade).
  { vm_compute. reflexivity. }
  destruct (Hmade eq_refl) as (_ & Hraise & _).
  destruct (Hraise InvalidParameterError) as (_ & H1 & _ & H2 & _).
  { vm_compute. reflexivity. }
  split; [exact H1|exact H2].
Defined.

(** Witness of X8: an upper-case extension. *)
Lemma X8_witness : is_image ["in"; "A.JPG"] = true.
Proof.
  apply (X8_is_image_by_name ["in"; "A.JPG"]).
  exists "A", ".JPG". split_and!; [reflexivity|discriminate|by_compute].
Defined.


(** Witness of X15: both files of the camera roll are images. *)
Lemma X15_witness : count_images_in_folder camera camera_fs ["in"] = 2%nat.
Proof.
  destruct (X15_count_images_matches_the_files_of_collect_faces camera
              camera_fs ["in"]) as (_ & _ & Hall).
  destruct Hall as [-> _]; [|vm_compute; reflexivity].
  assert (Forall (fun p => p ∈ dom (fs_files camera_fs))
            (filter (fun p => is_image p = true) (rglob camera ["in"]))) as HF
    by by_compute.
  rewrite Forall_forall in HF. exact HF.
Defined.

(** Witness of X19: the folder [in] is queued already. *)
Lemma X19_witness :
  App.add_to_queue demo_env ["in"] (demo_session 2) = demo_session 2.
Proof.
  destruct (X19_add_to_queue_never_duplicates demo_env ["in"] (demo_session 2))
    as (_ & _ & Hsame & _).
  apply Hsame. by_compute.
Defined.

(** ** Two sources, one name, one person *)

Lemma person_dst_by_name (out_dir a b : path) (person : string) :
  name a = name b ->
  person_dst out_dir a person = person_dst out_dir b person.
Proof.
  intros Hname. unfold person_dst, person_dst_name, stem, suffix.
  by rewrite Hname.
Qed.

(** X22. The copy of an image in a person folder is named after the
    image's basename only.  When two different source images have the same
    basename and show the same person, their destination in that person's
    folder is one path: unless a directory occupies it, the call copies to
    it at most once and never both images, so one of the two is missing
    from the folder of a person it shows; after a call that returns, a file
    is there. *)
Theorem X22_same_basename_one_file_in_person_folder
    (order : SetOrder) (records : list FaceRec) (labels : list Z)
    (out_dir : path) (group_thr : Z) (fs : FS)
    (r : res (list (Z * string) * path * gset Z)) (fs' : FS)
    (a b : path) (person : string) :
  route_by_clusters order records labels out_dir group_thr fs = (r, fs') ->
  a ≠ b -> name a = name b ->
  (person_dst out_dir a person ∉ fs_dirs fs') ->
  person_dst out_dir b person = person_dst out_dir a person /\
  exists evs, fs_copied fs' = fs_copied fs ++ evs /\
    (length (filter (fun e => e.2 = person_dst out_dir a person) evs)
     <= 1)%nat /\
    ~ ((a, person_dst out_dir a person) ∈ evs /\
       (b, person_dst out_dir b person) ∈ evs) /\
    (forall v lab, r = Ok v ->
       on_image records labels a lab -> lab ∈ v.2 ->
       dict_lookup v.1.1 lab = Some person ->
       person_dst out_dir a person ∈ dom (fs_files fs')).
Proof.
  intros Hrun Hab Hname Hnodir.
  pose proof (person_dst_by_name out_dir a b person Hname) as Hdst.
  split; [done|].
  destruct (route_events _ _ _ _ _ _ _ _ Hrun)
    as (E & pp & st & evs & Hplan & Hc & Hsub & Honce & HOk).
  exists evs. split_and!; [done|by apply Honce| |].
  - intros [Ha Hb]. rewrite <- Hdst in Hb.
    pose proof (Honce _ Hnodir) as Hle.
    assert ((a, person_dst out_dir a person)
            ≠ (b, person_dst out_dir a person)) as Hne
      by (intros [= ?]; done).
    pose proof (filter_two
      (fun e : path * path => e.2 = person_dst out_dir a person)
      evs _ _ Hne Ha Hb eq_refl eq_refl) as Hge.
    lia.
  - intros v lab Hv Hon HlE Hperson.
    destruct (HOk v Hv) as [-> Hmat]. simpl in HlE, Hperson.
    assert ((a, person_dst out_dir a person)
              ∈ full_plan order out_dir pp st) as Hin.
    { apply (full_plan_why order records labels out_dir group_thr
               E _ pp st a _ Hplan). left. by exists lab, person. }
    destruct (Hmat _ _ Hin) as [?|[? _]]; done.
Qed.

Lemma twin_person_run_value :
  route_by_clusters elements_order twin_records twin_person_labels ["out"] 3
    twin_fs = twin_person_result.
Proof. vm_compute. reflexivity. Qed.

(** Witness of X22: both images show person 0; one copy is made. *)
Lemma X22_witness :
  length (fs_copied twin_person_result.2) = 1%nat /\
  ~ ((imgX, ["out"; "person_000"; "a__person_000.jpg"])
       ∈ fs_copied twin_person_result.2 /\
     (imgY, ["out"; "person_000"; "a__person_000.jpg"])
       ∈ fs_copied twin_person_result.2).
Proof.
  destruct (X22_same_basename_one_file_in_person_folder elements_order
              twin_records twin_person_labels ["out"] 3 twin_fs
              twin_person_result.1 twin_person_result.2 imgX imgY
              "person_000")
    as (_ & evs & Hc & _ & Hnot & _).
  { vm_compute. reflexivity. }
  { discriminate. }
  { reflexivity. }
  { by_compute. }
  simpl in Hc. subst evs. split; [reflexivity|exact Hnot].
Defined.


(** ** Records and labels of different lengths *)

Lemma plan_fold_ext {A}
    (step1 step2 : A -> RouteState -> res (list (path * path) * RouteState))
    (xs : list A) :
  (forall x st, x ∈ xs -> step1 x st = step2 x st) ->
  forall st, plan_fold step1 xs st = plan_fold step2 xs st.
Proof.
  induction xs as [|x xs IH]; intros H st; simpl; [done|].
  rewrite (H x st) by (by apply elem_of_cons; left).
  destruct (step2 x st) as [[p1 st1]|]; [|done].
  rewrite IH; [done|]. intros y st' Hy. apply H. by apply elem_of_cons; right.
Qed.

Section Truncation.
Context (records records' : list FaceRec) (labels labels' : list Z).

Lemma any_personal_ext group_thr idxs :
  Forall (fun i => records' !! i = records !! i) idxs ->
  any_personal records' group_thr idxs = any_personal records group_thr idxs.
Proof.
  induction 1 as [|i idxs Hi _ IH]; simpl; [done|].
  unfold list_get. rewrite Hi. destruct (records !! i); [|done].
  by rewrite IH.
Qed.

Lemma eligible_loop_ext group_thr items :
  Forall (fun kl : Z * list nat =>
            Forall (fun i => records' !! i = records !! i) kl.2) items ->
  forall acc, eligible_loop records' group_thr items acc
              = eligible_loop records group_thr items acc.
Proof.
  induction 1 as [|[lab idxs] items Hi _ IH]; intros acc; simpl; [done|].
  destruct (decide (lab = noise)); [apply IH|].
  rewrite (any_personal_ext group_thr idxs Hi).
  destruct (any_personal records group_thr idxs) as [[]|]; [apply IH..|done].
Qed.

Lemma labels_at_ext idxs :
  Forall (fun i => labels' !! i = labels !! i) idxs ->
  labels_at labels' idxs = labels_at labels idxs.
Proof.
  induction 1 as [|i idxs Hi _ IH]; simpl; [done|].
  unfold list_get. rewrite Hi, IH. done.
Qed.

Lemma log_faces_ext src folder reason keep idxs :
  Forall (fun i => records' !! i = records !! i /\
                   labels' !! i = labels !! i) idxs ->
  forall log0,
    log_faces records' labels' src folder reason keep idxs log0
    = log_faces records labels src folder reason keep idxs log0.
Proof.
  induction 1 as [|i idxs [Hr Hl] _ IH]; intros log0; simpl; [done|].
  unfold list_get. rewrite Hr, Hl.
  destruct (labels !! i) as [lab|]; [|done].
  destruct (keep lab); [|apply IH].
  destruct (records !! i); [apply IH|done].
Qed.

Lemma person_step_ext out_dir c2n src idxs lab st :
  Forall (fun i => records' !! i = records !! i /\
                   labels' !! i = labels !! i) idxs ->
  person_step records' labels' out_dir c2n src idxs lab st
  = person_step records labels out_dir c2n src idxs lab st.
Proof.
  intros H. unfold person_step.
  destruct (dict_get c2n lab); [|done]. by rewrite (log_faces_ext _ _ _ _ _ H).
Qed.

Lemma image_step_ext order out_dir E c2n src idxs st :
  Forall (fun i => records' !! i = records !! i /\
                   labels' !! i = labels !! i) idxs ->
  image_step order records' labels' out_dir E c2n (src, idxs) st
  = image_step order records labels out_dir E c2n (src, idxs) st.
Proof.
  intros H. unfold image_step.
  rewrite (labels_at_ext idxs) by (eapply Forall_impl; [exact H|]; by intros ? [_ ?]).
  destruct (labels_at labels idxs) as [labs|]; [|done]. cbv zeta.
  rewrite (plan_fold_ext
             (person_step records' labels' out_dir c2n src idxs)
             (person_step records labels out_dir c2n src idxs))
    by (intros; by apply person_step_ext).
  destruct (plan_fold _ _ _) as [[p st1]|]; [|done].
  rewrite !(log_faces_ext _ _ _ _ _ H).
  match goal with
  | |- match ?x with _ => _ end = _ => destruct x as [st2|]; [|done]
  end.
  by rewrite !(log_faces_ext _ _ _ _ _ H).
Qed.

End Truncation.

(** X23. [route_by_clusters] pairs records and labels with [zip]: only the
    faces that have both a record and a label count.  Whatever stands in
    either list beyond the length of the shorter one changes nothing: the
    call on the two lists cut to that length behaves the same, in result
    and in every effect on the file system. *)
Theorem X23_only_paired_faces_count
    (order : SetOrder) (records : list FaceRec) (labels : list Z)
    (out_dir : path) (group_thr : Z) (fs : FS) :
  let n := Nat.min (length records) (length labels) in
  route_by_clusters order (take n records) (take n labels) out_dir group_thr fs
  = route_by_clusters order records labels out_dir group_thr fs /\
  route_by_clusters order (take n records) labels out_dir group_thr fs
  = route_by_clusters order records labels out_dir group_thr fs /\
  route_by_clusters order records (take n labels) out_dir group_thr fs
  = route_by_clusters order records labels out_dir group_thr fs.
Proof.
  intros n.
  assert (forall records' labels',
            zip records' labels' = zip records labels ->
            (forall i, (i < n)%nat ->
               records' !! i = records !! i /\ labels' !! i = labels !! i) ->
            route_by_clusters order records' labels' out_dir group_thr fs
            = route_by_clusters order records labels out_dir group_thr fs)
    as Hsame.
  { intros records' labels' Hzip Hat.
    destruct (route_plan_total order records labels out_dir group_thr)
      as (E & pp & st & Hplan & _). simpl in Hplan.
    assert (build_indices records' labels' = build_indices records labels)
      as Hbi by (unfold build_indices; by rewrite Hzip).
    assert (forall i r l, face_at records labels i r l -> (i < n)%nat) as Hlt.
    { intros i r l [Hr Hl]. apply lookup_lt_Some in Hr, Hl. unfold n. lia. }
    assert (route_plan order records' labels' out_dir group_thr
            = route_plan order records labels out_dir group_thr) as Hplan'.
    { unfold route_plan, eligible_clusters_of. rewrite Hbi.
      rewrite (eligible_loop_ext records records').
      2:{ apply Forall_forall. intros [lab idxs] Hin. simpl.
          apply Forall_forall. intros i Hi.
          apply (cluster_item_spec records labels lab idxs Hin) in Hi
            as [r Hf]. by apply Hat, (Hlt i r lab). }
      destruct (eligible_loop records group_thr _ ∅) as [E0|]; [|done].
      cbv zeta.
      rewrite (plan_fold_ext
                 (image_step order records' labels' out_dir E0
                    (cluster_to_name_of (eligible_sorted_of order E0)))
                 (image_step order records labels out_dir E0
                    (cluster_to_name_of (eligible_sorted_of order E0))));
        [done|].
      intros [src idxs] st0 Hin. apply image_step_ext.
      apply Forall_forall. intros i Hi.
      apply (image_item_spec records labels src idxs Hin) in Hi
        as (r & l & Hf & _). by apply Hat, (Hlt i r l). }
    rewrite (route_by_clusters_eq order records labels out_dir group_thr
               E _ pp st fs Hplan).
    rewrite <- Hplan' in Hplan.
    by rewrite (route_by_clusters_eq order records' labels' out_dir group_thr
                  E _ pp st fs Hplan). }
  split_and!.
  - apply Hsame.
    + apply zip_with_take_both'; unfold n; lia.
    + intros i Hi. by rewrite !lookup_take_lt.
  - apply Hsame.
    + apply zip_with_take_l'. unfold n. lia.
    + intros i Hi. by rewrite lookup_take_lt.
  - apply Hsame.
    + apply zip_with_take_r'. unfold n. lia.
    + intros i Hi. by rewrite lookup_take_lt.
Qed.

(** Witness of X23: the scenario with two labels too many. *)
Lemma X23_witness :
  route_by_clusters elements_order scenario_records
    (scenario_labels ++ [7; 8]) ["out"] 3 scenario_fs
  = scenario_result.
Proof.
  destruct (X23_only_paired_faces_count elements_order scenario_records
              (scenario_labels ++ [7; 8]) ["out"] 3 scenario_fs)
    as (_ & _ & H).
  rewrite <- H. vm_compute. reflexivity.
Defined.

(** ** The outcome of a call and the iteration order of sets *)

Section CreatedFiles.
Context (order : SetOrder).
Context (records : list FaceRec) (labels : list Z).
Context (out_dir : path) (group_thr : Z).

(** The files a completed call creates, the report apart, are targets of
    its copies; every copy is planned and leaves at its target what the
    source held before the call. *)
Lemma route_created E c2n pp st fs v fs' :
  names_ok records -> no_nested fs out_dir ->
  route_plan order records labels out_dir group_thr = Ok (E, c2n, pp, st) ->
  route_by_clusters order records labels out_dir group_thr fs = (Ok v, fs') ->
  exists evs, fs_copied fs' = fs_copied fs ++ evs /\
    (forall (s d : path), (s, d) ∈ evs ->
       (s, d) ∈ full_plan order out_dir pp st /\
       forall c, fs_files fs !! s = Some c -> fs_files fs' !! d = Some c) /\
    (forall q : path, q ∈ dom (fs_files fs') -> q ∉ dom (fs_files fs) ->
       q ≠ report_path out_dir -> exists s : path, (s, q) ∈ evs).
Proof.
  intros Hnames Hnest Hplan Hrun.
  destruct (route_faithful order records labels out_dir group_thr fs _ fs'
              Hnames Hnest Hrun) as (_ & evs & Hc & Hev).
  destruct (route_phases order records labels out_dir group_thr E c2n pp st
              fs _ fs' Hplan Hrun)
    as (rA & fsA & plan' & rB & fsB & HA & HB & _ & _ & _ & HcB & Hf).
  destruct Hf as [[_ Hno]|(_ & _ & _ & -> & Hfiles)]; [by destruct (Hno v)|].
  assert (forall (s d : path), (s, d) ∈ full_plan order out_dir pp st ->
            d ∉ fs_dirs fsA) as Hnd.
  { intros s d Hin.
    by apply (planned_not_dir order records labels out_dir group_thr
                E c2n pp st fs rA fsA s d). }
  destruct (exec_spec _ _ _ _ HB)
    as (evs' & HcB' & Hsub & _ & _ & _ & Hdom & _).
  pose proof HA as HA'.
  apply for_each_ensure_dir_spec in HA' as ((FA & _ & CA & _) & _).
  assert (evs' = evs) as ->.
  { apply (app_inv_head (fs_copied fs)). rewrite <- Hc, HcB, HcB'. by rewrite CA. }
  assert (forall (s d : path), (s, d) ∈ evs ->
            (s, d) ∈ full_plan order out_dir pp st) as Hin.
  { intros s d Hsd. by apply (elem_of_sublist evs _ _ Hsd). }
  exists evs. split_and!; [done| |].
  - intros s d Hsd. split; [by apply Hin|].
    by destruct (Hev s d Hsd) as (_ & _ & Hcopy & _).
  - intros q Hq Hnew Hrep.
    assert (q ∈ dom (fs_files fsB)) as HqB.
    { rewrite Hfiles in Hq. apply dom_insert in Hq.
      apply elem_of_union in Hq as [Hq|Hq]; [|done].
      by apply elem_of_singleton in Hq. }
    destruct (Hdom q HqB) as [Hold|(s & d & Hsd & ->)].
    + by rewrite FA in Hold.
    + exists s. unfold copy_target.
      rewrite decide_False by (by apply (Hnd s), Hin). done.
Qed.

End CreatedFiles.

Section OrderIndependence.
Context (o1 o2 : SetOrder).
Context (records : list FaceRec) (labels : list Z).
Context (out_dir : path) (group_thr : Z).

Lemma route_value_order_irrelevant fs1 fs2 v1 fs1' v2 fs2' :
  route_by_clusters o1 records labels out_dir group_thr fs1 = (Ok v1, fs1') ->
  route_by_clusters o2 records labels out_dir group_thr fs2 = (Ok v2, fs2') ->
  v1 = v2.
Proof.
  intros H1 H2.
  destruct (route_result_eligible _ _ _ _ _ _ _ _ H1) as (E1 & N1 & R1).
  destruct (route_result_eligible _ _ _ _ _ _ _ _ H2) as (E2 & N2 & R2).
  assert (v1.2 = v2.2) as HE by congruence.
  destruct v1 as [[a1 b1] c1], v2 as [[a2 b2] c2]. simpl in *. subst.
  by rewrite (eligible_sorted_order_irrelevant o1 o2).
Qed.

(** X24. Python does not fix the iteration order of the sets
    [route_by_clusters] walks.  With records that name files and no
    directory inside a bucket beforehand, two completed calls from the same
    file system that differ only in that order return the same value and
    leave the same directories and the same set of files, and their reports
    hold the same rows up to order.  When moreover every record's image
    exists beforehand, a path other than the report holds the same content
    after both calls unless the two calls copied different sources to it. *)
Theorem X24_outcome_does_not_depend_on_set_order
    (fs : FS) (v1 v2 : list (Z * string) * path * gset Z) (fs1 fs2 : FS) :
  names_ok records -> no_nested fs out_dir ->
  route_by_clusters o1 records labels out_dir group_thr fs = (Ok v1, fs1) ->
  route_by_clusters o2 records labels out_dir group_thr fs = (Ok v2, fs2) ->
  v1 = v2 /\
  fs_dirs fs1 = fs_dirs fs2 /\
  dom (fs_files fs1) = dom (fs_files fs2) /\
  (exists rows1 rows2,
     fs_files fs1 !! report_path out_dir = Some (Csv report_header rows1) /\
     fs_files fs2 !! report_path out_dir = Some (Csv report_header rows2) /\
     rows1 ≡ₚ rows2) /\
  ((forall r, r ∈ records -> img_path r ∈ dom (fs_files fs)) ->
   exists evs1 evs2,
     fs_copied fs1 = fs_copied fs ++ evs1 /\
     fs_copied fs2 = fs_copied fs ++ evs2 /\
     forall q : path, q ≠ report_path out_dir ->
       (forall s1 s2 : path, (s1, q) ∈ evs1 -> (s2, q) ∈ evs2 -> s1 = s2) ->
       fs_files fs1 !! q = fs_files fs2 !! q).
Proof.
  intros Hnames Hnest H1 H2.
  pose proof (route_value_order_irrelevant _ _ _ _ _ _ H1 H2) as Hv.
  destruct (route_plan_total o1 records labels out_dir group_thr)
    as (E1 & pp1 & st1 & Hplan1 & _). simpl in Hplan1.
  destruct (route_plan_total o2 records labels out_dir group_thr)
    as (E2 & pp2 & st2 & Hplan2 & _). simpl in Hplan2.
  destruct (route_phases o1 records labels out_dir group_thr _ _ _ _ _ _ _
              Hplan1 H1)
    as (rA1 & fsA1 & plan1 & rB1 & fsB1 & HA1 & HB1 & _ & Hd1 & _ & _ & Hf1).
  destruct (route_phases o2 records labels out_dir group_thr _ _ _ _ _ _ _
              Hplan2 H2)
    as (rA2 & fsA2 & plan2 & rB2 & fsB2 & HA2 & HB2 & _ & Hd2 & _ & _ & Hf2).
  destruct Hf1 as [[_ Hno]|(Hr1 & _ & _ & _ & Hfiles1)]; [by destruct (Hno v1)|].
  destruct Hf2 as [[_ Hno]|(Hr2 & _ & _ & _ & Hfiles2)]; [by destruct (Hno v2)|].
  injection Hr1 as Hv1. injection Hr2 as Hv2.
  assert (E1 = E2) as HE by (subst v1 v2; congruence).
  assert (cluster_to_name_of (eligible_sorted_of o1 E1)
          = cluster_to_name_of (eligible_sorted_of o2 E2)) as Hn
    by (subst v1 v2; congruence).
  assert (dom (fs_files fs1) = dom (fs_files fs2)) as Hdom.
  { apply set_eq. intros q.
    rewrite (route_files_after o1 records labels out_dir group_thr fs v1 fs1
               Hnames Hnest H1 q).
    rewrite (route_files_after o2 records labels out_dir group_thr fs v2 fs2
               Hnames Hnest H2 q).
    by rewrite Hv. }
  split_and!; [done| |done| |].
  - rewrite Hd1, Hd2.
    apply exec_spec in HB1 as (? & _ & _ & -> & _).
    apply exec_spec in HB2 as (? & _ & _ & -> & _).
    rewrite Hn in HA1. congruence.
  - exists (log st1), (log st2). split_and!.
    + rewrite Hfiles1. by rewrite lookup_insert_eq.
    + rewrite Hfiles2. by rewrite lookup_insert_eq.
    + rewrite (route_plan_log o1 records labels out_dir group_thr _ _ _ _ Hplan1).
      rewrite (route_plan_log o2 records labels out_dir group_thr _ _ _ _ Hplan2).
      by rewrite Hn, HE.
  - intros Hsrc.
    destruct (route_created o1 records labels out_dir group_thr _ _ _ _ _ _ _
                Hnames Hnest Hplan1 H1) as (evs1 & Hc1 & Hev1 & Hnew1).
    destruct (route_created o2 records labels out_dir group_thr _ _ _ _ _ _ _
                Hnames Hnest Hplan2 H2) as (evs2 & Hc2 & Hev2 & Hnew2).
    exists evs1, evs2. split_and!; [done..|].
    intros q Hq Hsame.
    destruct (fs_files fs !! q) as [c|] eqn:Hold.
    { destruct (route_faithful o1 records labels out_dir group_thr fs _ fs1
                  Hnames Hnest H1) as (K1 & _).
      destruct (route_faithful o2 records labels out_dir group_thr fs _ fs2
                  Hnames Hnest H2) as (K2 & _).
      by rewrite (K1 q c Hold Hq), (K2 q c Hold Hq). }
    apply not_elem_of_dom in Hold.
    destruct (decide (q ∈ dom (fs_files fs1))) as [Hin1|Hout1].
    + assert (q ∈ dom (fs_files fs2)) as Hin2 by (by rewrite <- Hdom).
      destruct (Hnew1 q Hin1 Hold Hq) as (s1 & Hs1).
      destruct (Hnew2 q Hin2 Hold Hq) as (s2 & Hs2).
      pose proof (Hsame s1 s2 Hs1 Hs2) as <-.
      destruct (Hev1 s1 q Hs1) as (Hp1 & Hcopy1).
      destruct (Hev2 s1 q Hs2) as (_ & Hcopy2).
      assert (s1 ∈ dom (fs_files fs)) as [c Hc]%elem_of_dom.
      { apply (full_plan_why o1 records labels out_dir group_thr _ _ _ _ _ _
                 Hplan1) in Hp1.
        assert (exists lab, on_image records labels s1 lab)
          as (lab & i & r & (Hr & _) & <-).
        { destruct Hp1 as [(lab & _ & Hon & _)|[((lab & Hon & _) & _)
                          |(((lab & Hon) & _) & _)]]; by exists lab. }
        apply Hsrc. by apply (list_elem_of_lookup_2 _ i). }
      by rewrite (Hcopy1 c Hc), (Hcopy2 c Hc).
    + assert (q ∉ dom (fs_files fs2)) as Hout2 by (by rewrite <- Hdom).
      apply not_elem_of_dom in Hout1, Hout2. by rewrite Hout1, Hout2.
Qed.

End OrderIndependence.

Lemma reversed_run_value :
  route_by_clusters reversed_order scenario_records scenario_labels ["out"] 3
    scenario_fs
  = (Ok ([(0, "person_000")], ["out"; "clustering_report.csv"], {[0]}),
     reversed_result.2).
Proof. vm_compute. reflexivity. Qed.

(** Witness of X24: the scenario, walked in the order of [elements] and in
    the reverse order, leaves the same directories and files. *)
Lemma X24_witness :
  fs_dirs scenario_result.2 = fs_dirs reversed_result.2 /\
  dom (fs_files scenario_result.2) = dom (fs_files reversed_result.2).
Proof.
  destruct (X24_outcome_does_not_depend_on_set_order
              elements_order reversed_order
              scenario_records scenario_labels ["out"] 3 scenario_fs
              _ _ scenario_result.2 reversed_result.2
              scenario_names_ok scenario_no_nested
              scenario_run_value reversed_run_value)
    as (_ & Hd & Hf & _).
  split; [exact Hd|exact Hf].
Defined.
